(** * py-updater: a shallow embedding of [updater.py]

    The development follows the layout of the source file:
    utilities (JSON state file, version parsing and comparison, digest
    verification), release selection, the install / swap primitives and the
    orchestration routine [run_update].

    Conventions.
    - Python [str] values are modelled by [string]; the characters are the
      code points below 256, on which the class [\d] of the [re] module is
      exactly the ten ASCII digits.
    - Python integers are [Z].
    - Code that performs I/O lives in the monad [M]: it threads the file
      system, collects the observable trace, and either returns a value or
      raises an exception.  What the outside world answers (the hosting
      API, the network, the archive library, the digest library, the clock,
      operating-system failures) is read from an [env] record.
    - The file system is a finite map from path strings to nodes, and the
      strings are compared as they are.  The map therefore describes the
      operating system for paths in absolute normal form
      ([Path.canonical]); the statements that depend on where a path lies
      assume that form. *)

From Stdlib Require Import ZArith Ascii String List Bool Lia.
From stdpp Require Import base option list strings gmap fin_maps.

Import ListNotations.
#[local] Set Warnings "-register-all".
Local Open Scope string_scope.
Local Open Scope Z_scope.
Local Open Scope list_scope.

(** ** Characters and strings *)

Module Str.

Definition code (c : ascii) : nat := nat_of_ascii c.

Definition is_digit (c : ascii) : bool :=
  (48 <=? code c)%nat && (code c <=? 57)%nat.

(** The class [[A-Fa-f0-9]]. *)
Definition is_hex (c : ascii) : bool :=
  is_digit c
  || ((65 <=? code c)%nat && (code c <=? 70)%nat)
  || ((97 <=? code c)%nat && (code c <=? 102)%nat).

(** Characters removed by [str.strip()] among the code points below 256. *)
Definition is_space (c : ascii) : bool :=
  ((9 <=? code c)%nat && (code c <=? 13)%nat)
  || ((28 <=? code c)%nat && (code c <=? 32)%nat)
  || (code c =? 133)%nat || (code c =? 160)%nat.

Definition lower_char (c : ascii) : ascii :=
  if ((65 <=? code c)%nat && (code c <=? 90)%nat)
     || ((192 <=? code c)%nat && (code c <=? 222)%nat && negb (code c =? 215)%nat)
  then ascii_of_nat (code c + 32) else c.

(** [str.lower()] *)
Fixpoint lower (s : string) : string :=
  match s with
  | EmptyString => EmptyString
  | String c s' => String (lower_char c) (lower s')
  end.

(** [s.startswith(c)] for a one-character prefix. *)
Definition startswith (c : ascii) (s : string) : bool :=
  match s with
  | String d _ => Ascii.eqb d c
  | EmptyString => false
  end.

(** [s[1:]] *)
Definition tail (s : string) : string :=
  match s with
  | String _ s' => s'
  | EmptyString => EmptyString
  end.

(** [s.lstrip(c)] for a one-character set: drops every leading [c]. *)
Fixpoint lstrip_char (c : ascii) (s : string) : string :=
  match s with
  | String d s' => if Ascii.eqb d c then lstrip_char c s' else s
  | EmptyString => EmptyString
  end.

Fixpoint lstrip (s : string) : string :=
  match s with
  | String c s' => if is_space c then lstrip s' else s
  | EmptyString => EmptyString
  end.

Fixpoint rstrip (s : string) : string :=
  match s with
  | EmptyString => EmptyString
  | String c s' =>
      match rstrip s' with
      | EmptyString => if is_space c then EmptyString else String c EmptyString
      | r => String c r
      end
  end.

(** [s.strip()] *)
Definition strip (s : string) : string := lstrip (rstrip s).

(** [sep.join(l)] *)
Fixpoint join (sep : string) (l : list string) : string :=
  match l with
  | [] => ""
  | [x] => x
  | x :: l' => x +:+ sep +:+ join sep l'
  end.

Definition digit_val (c : ascii) : Z := Z.of_nat (code c) - 48.

(** [int(s)] on a string of ASCII digits (most significant digit first). *)
Fixpoint int_acc (acc : Z) (s : string) : Z :=
  match s with
  | EmptyString => acc
  | String c s' => int_acc (10 * acc + digit_val c) s'
  end.

Definition int (s : string) : Z := int_acc 0 s.

(** [s[n:]] *)
Fixpoint drop (n : nat) (s : string) : string :=
  match n, s with
  | S n', String _ s' => drop n' s'
  | _, _ => s
  end.

(** Truth value of a string in a condition: empty strings are false. *)
Definition truthy (s : string) : bool :=
  match s with EmptyString => false | _ => true end.

End Str.

(** ** The fragment of the [re] module that the updater uses

    A backtracking matcher in continuation style.  The state of a match is
    the position [i] in the subject, the rest [s] of the subject from that
    position on, and the groups captured so far. *)

Module Re.

Inductive regex : Type :=
| Eps
| Chr (p : ascii → bool)        (** one character of a class *)
| Seq (r1 r2 : regex)
| Alt (r1 r2 : regex)           (** first alternative preferred *)
| StarC (p : ascii → bool)      (** greedy [*] over a character class *)
| Group (r : regex)             (** capturing group *)
| Bol                           (** [^] *)
| Eol.                          (** [$] *)

Definition lit (c : ascii) : regex := Chr (Ascii.eqb c).
Definition plus (p : ascii → bool) : regex := Seq (Chr p) (StarC p).
Definition opt (r : regex) : regex := Alt r Eps.

(** [r{n}] *)
Fixpoint rep (n : nat) (r : regex) : regex :=
  match n with
  | O => Eps
  | S n' => Seq r (rep n' r)
  end.

Fixpoint seqs (l : list regex) : regex :=
  match l with
  | [] => Eps
  | r :: l' => Seq r (seqs l')
  end.

(** [.] matches anything but a newline. *)
Definition dot (c : ascii) : bool := negb (Str.code c =? 10)%nat.

(** Without [re.MULTILINE], [$] matches at the end of the subject and just
    before a newline that ends the subject. *)
Definition at_eol (s : string) : bool :=
  match s with
  | EmptyString => true
  | String c EmptyString => (Str.code c =? 10)%nat
  | _ => false
  end.

Section Matcher.
Context {A : Type}.

Definition cont : Type := nat → string → list string → option A.

Fixpoint star_class (p : ascii → bool) (i : nat) (s : string)
    (caps : list string) (k : cont) : option A :=
  match s with
  | String c s' =>
      if p c then
        match star_class p (S i) s' caps k with
        | Some a => Some a
        | None => k i s caps
        end
      else k i s caps
  | EmptyString => k i s caps
  end.

Fixpoint rmatch (r : regex) (i : nat) (s : string)
    (caps : list string) (k : cont) : option A :=
  match r with
  | Eps => k i s caps
  | Chr p =>
      match s with
      | String c s' => if p c then k (S i) s' caps else None
      | EmptyString => None
      end
  | Seq r1 r2 => rmatch r1 i s caps (λ i' s' caps', rmatch r2 i' s' caps' k)
  | Alt r1 r2 =>
      match rmatch r1 i s caps k with
      | Some a => Some a
      | None => rmatch r2 i s caps k
      end
  | StarC p => star_class p i s caps k
  | Group r =>
      rmatch r i s caps
        (λ i' s' caps', k i' s' (caps' ++ [substring 0 (i' - i) s]))
  | Bol => if (i =? 0)%nat then k i s caps else None
  | Eol => if at_eol s then k i s caps else None
  end.
End Matcher.

(** [re.match(r, s)]: a match anchored at position 0; the result lists the
    captured groups 1, 2, ... *)
Definition re_match (r : regex) (s : string) : option (list string) :=
  rmatch r 0 s [] (λ _ _ caps, Some caps).

(** [re.search(r, s)]: the leftmost position at which [r] matches. *)
Fixpoint search_from (r : regex) (i : nat) (s : string) : option (list string) :=
  match rmatch r i s [] (λ _ _ caps, Some caps) with
  | Some caps => Some caps
  | None =>
      match s with
      | String _ s' => search_from r (S i) s'
      | EmptyString => None
      end
  end.

Definition re_search (r : regex) (s : string) : option (list string) :=
  search_from r 0 s.

(** [m.group(n)] for [n >= 1]. *)
Definition group (m : list string) (n : nat) : string :=
  nth (n - 1) m "".

End Re.

(** ** Version comparator *)

(** A parsed version: the triple that [parse_semver] returns. *)
Definition version : Type := Z * Z * Z.

(** The first pattern of [parse_semver]: anchored at both ends, three
    dot-separated captured digit runs, then optionally a sign character
    ([-] or [+]) followed by any characters (non-capturing). *)
Definition semver3_re : Re.regex :=
  Re.seqs [ Re.Bol; Re.Group (Re.plus Str.is_digit); Re.lit ".";
            Re.Group (Re.plus Str.is_digit); Re.lit ".";
            Re.Group (Re.plus Str.is_digit);
            Re.opt (Re.Seq (Re.Chr (λ c, Ascii.eqb c "-" || Ascii.eqb c "+"))
                           (Re.StarC Re.dot));
            Re.Eol ].

(** The looser pattern: two captured digit runs and the same optional tail. *)
Definition semver2_re : Re.regex :=
  Re.seqs [ Re.Bol; Re.Group (Re.plus Str.is_digit); Re.lit ".";
            Re.Group (Re.plus Str.is_digit);
            Re.opt (Re.Seq (Re.Chr (λ c, Ascii.eqb c "-" || Ascii.eqb c "+"))
                           (Re.StarC Re.dot));
            Re.Eol ].

Definition unparseable : version := (-1, -1, -1).

Definition parse_semver (s : string) : version :=
  let s := if Str.startswith "v" s then Str.tail s else s in
  match Re.re_match semver3_re s with
  | None =>
      match Re.re_match semver2_re s with
      | Some m2 => (Str.int (Re.group m2 1), Str.int (Re.group m2 2), 0)
      | None => unparseable
      end
  | Some m => (Str.int (Re.group m 1), Str.int (Re.group m 2), Str.int (Re.group m 3))
  end.

(** Python's ordering of tuples of integers: lexicographic. *)
Definition version_ltb (a b : version) : bool :=
  let '(a1, a2, a3) := a in
  let '(b1, b2, b3) := b in
  (a1 <? b1) || ((a1 =? b1) && ((a2 <? b2) || ((a2 =? b2) && (a3 <? b3)))).

Definition version_gtb (a b : version) : bool := version_ltb b a.

Definition version_leb (a b : version) : bool := negb (version_ltb b a).

(** [int(True) = 1], [int(False) = 0] *)
Definition int_of_bool (b : bool) : Z := if b then 1 else 0.

Definition compare_versions (a b : string) : Z :=
  let pa := parse_semver a in
  let pb := parse_semver b in
  int_of_bool (version_gtb pa pb) - int_of_bool (version_ltb pa pb).

(** ** Exceptions and the updater monad *)

(** The exception classes that reach the handlers of [run_update].  The
    handlers only distinguish [OSError] (with its subclasses) from the rest. *)
Inductive exn : Type :=
| OSError (msg : string)
| FileNotFoundError (msg : string)     (** subclass of [OSError] *)
| URLError (msg : string)              (** [urllib.error]; subclass of [OSError] *)
| ValueError (msg : string)
| UnicodeEncodeError (msg : string)    (** subclass of [ValueError] *)
| BadZipFile (msg : string)
| AttributeError (msg : string).

Definition is_OSError (e : exn) : bool :=
  match e with
  | OSError _ | FileNotFoundError _ | URLError _ => true
  | _ => false
  end.

Definition is_ValueError (e : exn) : bool :=
  match e with
  | ValueError _ | UnicodeEncodeError _ => true
  | _ => false
  end.

Inductive outcome (A : Type) : Type :=
| Ok (a : A)
| Raise (e : exn).
Arguments Ok {A} a.
Arguments Raise {A} e.

(** ** JSON values, as [json.load] builds them *)

Inductive json : Type :=
| JNull
| JBool (b : bool)
| JInt (n : Z)
| JFloat (m e : Z)                     (** a finite float [m * 2^e] *)
| JStr (s : string)
| JArr (items : list json)
| JObj (fields : list (string * json)). (** a [dict], in insertion order *)

(** Truth value of a Python object obtained from JSON. *)
Definition json_truthy (j : json) : bool :=
  match j with
  | JNull => false
  | JBool b => b
  | JInt n => negb (n =? 0)
  | JFloat m _ => negb (m =? 0)
  | JStr s => Str.truthy s
  | JArr l => match l with [] => false | _ => true end
  | JObj l => match l with [] => false | _ => true end
  end.

(** [d.get(k)] on the fields of a dict. *)
Fixpoint dict_get (k : string) (d : list (string * json)) : option json :=
  match d with
  | [] => None
  | (k', v) :: d' => if String.eqb k' k then Some v else dict_get k d'
  end.

(** [d[k] = v]: an existing key keeps its position, a new key goes last. *)
Fixpoint dict_set (k : string) (v : json) (d : list (string * json))
    : list (string * json) :=
  match d with
  | [] => [(k, v)]
  | (k', v') :: d' =>
      if String.eqb k' k then (k, v) :: d' else (k', v') :: dict_set k v d'
  end.

(** ** Releases as the hosting API lists them

    A release object of the API is a non-empty JSON object; the record keeps
    the four fields the updater reads.  [tag_name] is [None] when the field
    is missing or null. *)

Record asset : Type := {
  name : string;
  browser_download_url : string;
}.

Record release : Type := {
  tag_name : option string;
  draft : bool;
  prerelease : bool;
  assets : list asset;
}.

(** [x or d] for an optional string [x]: [None] and the empty string are false. *)
Definition str_or (x : option string) (d : string) : string :=
  match x with
  | Some s => if Str.truthy s then s else d
  | None => d
  end.

(** ** The file system and the observable trace *)

(** What a file holds: plain text, or a JSON document ([Json j] stands for a
    text that [json.load] reads as [j]; this is what [json.dump j] writes). *)
Inductive content : Type :=
| Text (s : string)
| Json (j : json).

(** A directory is kept as one node carrying its entries; the file system
    is a map keyed by the paths the updater names.  The key is the path
    string itself: two spellings of one location ([/opt/app] and
    [/opt/app/]) are two keys, and a key below a directory that is renamed
    stays where it is.  The map therefore tells what the operating system
    does for paths in canonical form ([Path.canonical]) and for
    directories that are moved as a whole; the statements about renamed
    trees below say so in their hypotheses. *)
Inductive node : Type :=
| File (c : content)
| Dir (entries : list (string * node)).

Inductive event : Type :=
| EvLog (msg : string)                 (** a line printed by [log] *)
| EvLogError (e : exn)                 (** the line [ERROR: <repr of e>] *)
| EvHttpGet (url : string)             (** request to the releases endpoint *)
| EvFetch (url dest : string)          (** download request for an asset *)
| EvMkdir (path : string)
| EvWrite (path : string)              (** a file created or overwritten *)
| EvExtract (archive dest : string)
| EvCopytree (dest : string)
| EvRename (src dst : string)          (** [os.rename] succeeded *)
| EvReplace (src dst : string)         (** [os.replace] succeeded *)
| EvMove (src dst : string)            (** [shutil.move] succeeded *)
| EvRmtree (path : string)             (** [shutil.rmtree] removed a tree *)
| EvSpawn (cmd : string).              (** the relaunch command was started *)

(** The call sites at which the operating system may refuse an operation
    for a reason that the map of the file system does not show: access
    rights, a missing parent directory, a full or read-only device, a
    rename across devices or of a directory in use. *)
Inductive site : Type :=
| AtRmtreeStale | AtRenameLive | AtRenameStage
| AtMoveLive | AtMoveStage
| AtMkdtemp | AtMakedirs | AtListdir | AtCopytree
| AtWriteTmp | AtReplace
| AtRmtreeBackup | AtRmtreeTmp
| AtRollbackRmtree | AtRollbackRename
| AtSpawn.

(** Everything the run reads from outside. *)
Record env : Type := {
  platform_system : string;                       (** [platform.system()] *)
  platform_machine : string;                      (** [platform.machine()] *)
  str_format : string → string → string → string → outcome string;
                                                  (** [pattern.format(app=, os=, arch=)] *)
  api : string → outcome (list release);          (** [http_get_json] on a URL *)
  net : string → outcome string;                  (** body served at a URL *)
  sha256 : string → string;                       (** [hashlib]: hex digest of a body *)
  unzip : string → outcome (list (string * node)); (** [zipfile]: entries of an archive *)
  json_loads : string → option json;              (** [json.load] on a plain text *)
  json_dumps : json → string;                     (** [json.dump] rendering *)
  json_dump_error : json → option string;
      (** [json.dump] into a UTF-8 file: [Some s] when the value holds a
          string that UTF-8 cannot encode (a lone surrogate, which
          [json.load] can return), [s] being the text written before
          [UnicodeEncodeError] is raised *)
  py_repr : json → string;                        (** [str()] of a float, list or dict *)
  fault : site → bool;                            (** the OS refuses at this site *)
  clock_swap : Z;                                 (** [int(time.time())] in [safe_swap] *)
  clock_fallback : Z;                             (** the same in the fallback *)
  mkdtemp : string;                               (** the fresh temporary directory *)
  getcwd : string;                                (** [os.getcwd()] *)
}.

Definition filesystem : Type := gmap string node.

(** A computation takes the file system and yields its outcome, the file
    system it leaves, and the events it caused, oldest first. *)
Definition M (A : Type) : Type :=
  gmap string node → outcome A * gmap string node * list event.

Definition ret {A} (a : A) : M A := λ f, (Ok a, f, []).

Definition bind {A B} (m : M A) (k : A → M B) : M B := λ f,
  match m f with
  | (Ok a, f', t) =>
      match k a f' with
      | (r, f'', t') => (r, f'', t ++ t')
      end
  | (Raise e, f', t) => (Raise e, f', t)
  end.

Declare Scope upd_scope.
Notation "x ← y ; z" := (bind y (λ x, z))
  (at level 20, y at level 100, z at level 200, only parsing) : upd_scope.
Notation "x ;; z" := (bind x (λ _, z))
  (at level 100, z at level 200, only parsing, right associativity) : upd_scope.
Local Open Scope upd_scope.

Definition raise {A} (e : exn) : M A := λ f, (Raise e, f, []).

(** [try: m  except <class> as e: h e], where [catches] tells the class. *)
Definition try_except {A} (m : M A) (catches : exn → bool) (h : exn → M A) : M A :=
  λ f,
  match m f with
  | (Ok a, f', t) => (Ok a, f', t)
  | (Raise e, f', t) =>
      if catches e then
        match h e f' with
        | (r, f'', t') => (r, f'', t ++ t')
        end
      else (Raise e, f', t)
  end.

(** [try: m  finally: c] *)
Definition try_finally {A} (m : M A) (c : M unit) : M A := λ f,
  match m f with
  | (r, f', t) =>
      match c f' with
      | (Ok _, f'', t') => (r, f'', t ++ t')
      | (Raise e, f'', t') => (Raise e, f'', t ++ t')
      end
  end.

Definition get_fs : M (gmap string node) := λ f, (Ok f, f, []).
Definition put_fs (f' : gmap string node) : M unit := λ _, (Ok (), f', []).
Definition emit (ev : event) : M unit := λ f, (Ok (), f, [ev]).
Definition when (b : bool) (m : M unit) : M unit := if b then m else ret ().

(** The result of a computation that ran after the events [t0]. *)
Definition prefixed {A} (t0 : list event)
    (x : outcome A * gmap string node * list event)
    : outcome A * gmap string node * list event :=
  (x.1.1, x.1.2, t0 ++ x.2).

(** [log(msg)] prints one line. *)
Definition log (msg : string) : M unit := emit (EvLog msg).

(** ** Paths ([os.path] on POSIX) *)

Module Path.

Definition is_slash (c : ascii) : bool := Ascii.eqb c "/".

Fixpoint has_slash (s : string) : bool :=
  match s with
  | EmptyString => false
  | String c s' => is_slash c || has_slash s'
  end.

(** [os.path.basename]: what follows the last slash. *)
Fixpoint basename (p : string) : string :=
  match p with
  | EmptyString => EmptyString
  | String c p' =>
      if has_slash p' then basename p'
      else if is_slash c then p' else p
  end.

(** The head up to and including the last slash. *)
Fixpoint head (p : string) : string :=
  match p with
  | EmptyString => EmptyString
  | String c p' =>
      if has_slash p' then String c (head p')
      else if is_slash c then String c EmptyString else EmptyString
  end.

Fixpoint all_slashes (s : string) : bool :=
  match s with
  | EmptyString => true
  | String c s' => is_slash c && all_slashes s'
  end.

Fixpoint rstrip_slash (s : string) : string :=
  match s with
  | EmptyString => EmptyString
  | String c s' =>
      match rstrip_slash s' with
      | EmptyString => if is_slash c then EmptyString else String c EmptyString
      | r => String c r
      end
  end.

(** [os.path.dirname] *)
Definition dirname (p : string) : string :=
  let h := head p in
  if Str.truthy h && negb (all_slashes h) then rstrip_slash h else h.

Fixpoint endswith_slash (s : string) : bool :=
  match s with
  | EmptyString => false
  | String c EmptyString => is_slash c
  | String _ s' => endswith_slash s'
  end.

(** [os.path.join(a, b)] *)
Definition join (a b : string) : string :=
  if Str.startswith "/" b then b
  else if negb (Str.truthy a) || endswith_slash a then a +:+ b
  else a +:+ "/" +:+ b.

(** [os.path.isabs] *)
Definition isabs (p : string) : bool := Str.startswith "/" p.

(** [p.split("/")] *)
Fixpoint split (p : string) : list string :=
  match p with
  | EmptyString => [EmptyString]
  | String c p' =>
      if is_slash c then EmptyString :: split p'
      else
        match split p' with
        | x :: l => String c x :: l
        | [] => [String c EmptyString]
        end
  end.

(** One round of the loop of [os.path.normpath] over the components;
    [comps] is [new_comps] with its last component first. *)
Definition norm_step (initial_slashes : nat) (comps : list string) (comp : string)
    : list string :=
  if String.eqb comp "" || String.eqb comp "." then comps
  else if negb (String.eqb comp "..")
          || (Nat.eqb initial_slashes 0 && match comps with [] => true | _ => false end)
          || match comps with x :: _ => String.eqb x ".." | [] => false end
  then comp :: comps
  else List.tail comps.

(** [os.path.normpath]: empty and [.] components go, [..] takes the
    component before it, one or two leading slashes stay, three or more
    become one. *)
Definition normpath (p : string) : string :=
  if String.eqb p "" then "."
  else
    let initial_slashes :=
      if isabs p then
        if String.prefix "//" p && negb (String.prefix "///" p) then 2%nat else 1%nat
      else 0%nat in
    let comps := rev (fold_left (norm_step initial_slashes) (split p) []) in
    let path :=
      match initial_slashes with
      | 0%nat => ""
      | 1%nat => "/"
      | _ => "//"
      end +:+ Str.join "/" comps in
    if Str.truthy path then path else ".".

(** [os.path.abspath], [cwd] being the working directory. *)
Definition abspath (cwd p : string) : string :=
  normpath (if isabs p then p else join cwd p).

(** No NUL character: the operating-system calls raise [ValueError] on a
    path that holds one. *)
Fixpoint no_nul (p : string) : bool :=
  match p with
  | EmptyString => true
  | String c p' => negb (Ascii.eqb c Ascii.zero) && no_nul p'
  end.

(** An absolute path in normal form, with one leading slash: the one
    string under which the operating system knows the file. *)
Definition canonical (p : string) : bool :=
  isabs p && negb (String.prefix "//" p) && no_nul p && String.eqb (normpath p) p.

(** A canonical path with a last component, that is, not the root. *)
Definition plain (p : string) : bool :=
  canonical p && Str.truthy (basename p).

End Path.

(** ** More string helpers *)

Module Fmt.

(** The newline character, as a string. *)
Definition nl : string := String (ascii_of_nat 10) EmptyString.

Definition digit_char (d : N) : ascii := ascii_of_N (48 + d).

Fixpoint digits_fuel (fuel : nat) (n : N) (acc : string) : string :=
  match fuel with
  | O => acc
  | S fuel' =>
      let acc' := String (digit_char (n mod 10)) acc in
      if (n <? 10)%N then acc' else digits_fuel fuel' (n / 10)%N acc'
  end.

Definition of_N (n : N) : string := digits_fuel (S (N.size_nat n)) n "".

(** [str(z)] for an integer. *)
Definition of_Z (z : Z) : string :=
  if z <? 0 then "-" +:+ of_N (Z.to_N (- z)) else of_N (Z.to_N z).

(** [str(b)] for a boolean. *)
Definition of_bool (b : bool) : string := if b then "True" else "False".

(** [x in s] for strings. *)
Fixpoint contains (x s : string) : bool :=
  String.prefix x s
  || match s with
     | EmptyString => false
     | String _ s' => contains x s'
     end.

Definition exn_msg (e : exn) : string :=
  match e with
  | OSError m | FileNotFoundError m | URLError m
  | ValueError m | UnicodeEncodeError m | BadZipFile m | AttributeError m => m
  end.

End Fmt.

(** ** Pure parts of the source *)

Section Platform.
Variable E : env.

Definition norm_os : string :=
  let s := Str.lower (platform_system E) in
  if Fmt.contains "windows" s then "windows"
  else if Fmt.contains "darwin" s || Fmt.contains "mac" s then "macos"
  else "linux".

Definition norm_arch : string :=
  let m := Str.lower (platform_machine E) in
  if existsb (String.eqb m) ["amd64"; "x86_64"; "x64"] then "x64"
  else if existsb (String.eqb m) ["aarch64"; "arm64"] then "arm64"
  else if existsb (String.eqb m) ["armv7l"; "armv7"; "arm32"; "arm"] then "armv7"
  else if existsb (String.eqb m) ["i386"; "i686"; "x86"] then "x86"
  else m.
End Platform.

(** The pattern of [verify_sha256_from_file]: one group of 64 characters of
    the class [A-Fa-f0-9]. *)
Definition sha256_re : Re.regex := Re.Group (Re.rep 64 (Re.Chr Str.is_hex)).

(** The URL queried by [get_latest_release]. *)
Definition releases_url (repo : string) : string :=
  "https://api.github.com/repos/" +:+ repo +:+ "/releases?per_page=30".

(** The sort key of [get_latest_release]. *)
Definition release_key (r : release) : version :=
  parse_semver (str_or (tag_name r) "").

(** [l.sort(key=key, reverse=True)]: a stable sort into descending order,
    elements with equal keys keep their original order. *)
Fixpoint insert_desc {A} (key : A → version) (x : A) (l : list A) : list A :=
  match l with
  | [] => [x]
  | y :: l' =>
      if version_leb (key y) (key x) then x :: l
      else y :: insert_desc key x l'
  end.

Fixpoint sort_desc {A} (key : A → version) (l : list A) : list A :=
  match l with
  | [] => []
  | x :: l' => insert_desc key x (sort_desc key l')
  end.

(** The list comprehension of [get_latest_release]. *)
Definition candidates (include_prereleases : bool) (releases : list release)
    : list release :=
  List.filter (λ r, negb (draft r) && (include_prereleases || negb (prerelease r)))
    releases.

(** [get_latest_release] once the release list is fetched. *)
Definition latest_of (include_prereleases : bool) (releases : list release)
    : option release :=
  match candidates include_prereleases releases with
  | [] => None
  | cs => head (sort_desc release_key cs)
  end.

Fixpoint find_asset_in (l : list asset) (asset_name : string) : option asset :=
  match l with
  | [] => None
  | a :: l' => if String.eqb (name a) asset_name then Some a else find_asset_in l' asset_name
  end.

Definition find_asset (r : release) (asset_name : string) : option asset :=
  find_asset_in (assets r) asset_name.

(** ** Operating-system and library primitives *)

Section Primitives.
Variable E : env.

Definition lift {A} (r : outcome A) : M A :=
  match r with
  | Ok a => ret a
  | Raise e => raise e
  end.

(** [os.path.exists] *)
Definition path_exists (p : string) : M bool :=
  f ← get_fs;
  ret (match f !! p with Some _ => true | None => false end).

(** A path is inside the tree rooted at [root]; this is the comparison
    of the strings, which tells where the path lies when both are in
    canonical form and [root] is not the root directory. *)
Definition is_under (root p : string) : bool :=
  String.eqb p root || String.prefix (root +:+ "/") p.

(** [shutil.rmtree(p, ignore_errors=True)]: removes the directory tree at
    [p]; what is not a directory (a regular file, nothing at all) makes
    the call fail inside, and the error is ignored, so it stays as it is.
    A refusal of the operating system is ignored as well and is taken to
    leave the tree.  Never raises. *)
Definition rmtree_ignore (at_ : site) (p : string) : M unit :=
  f ← get_fs;
  match f !! p with
  | Some (Dir _) =>
      if fault E at_ then ret ()
      else
        put_fs (filter (λ kv, is_under p kv.1 = false) f);;
        emit (EvRmtree p)
  | _ => ret ()
  end.

(** What [rename(2)] may replace. *)
Definition can_replace (src : node) (dst : option node) : bool :=
  match dst with
  | None => true
  | Some (File _) => match src with File _ => true | Dir _ => false end
  | Some (Dir es) =>
      match src, es with
      | Dir _, [] => true
      | _, _ => false
      end
  end.

(** [os.rename(src, dst)] *)
Definition os_rename (at_ : site) (src dst : string) : M unit :=
  f ← get_fs;
  if fault E at_ then raise (OSError ("rename refused: " +:+ src))
  else
    match f !! src with
    | None => raise (FileNotFoundError src)
    | Some n =>
        if can_replace n (f !! dst) then
          put_fs (<[dst := n]> (delete src f));;
          emit (EvRename src dst)
        else raise (OSError ("cannot replace: " +:+ dst))
    end.

(** [os.replace(src, dst)] *)
Definition os_replace (at_ : site) (src dst : string) : M unit :=
  f ← get_fs;
  if fault E at_ then raise (OSError ("replace refused: " +:+ src))
  else
    match f !! src with
    | None => raise (FileNotFoundError src)
    | Some n =>
        if can_replace n (f !! dst) then
          put_fs (<[dst := n]> (delete src f));;
          emit (EvReplace src dst)
        else raise (OSError ("cannot replace: " +:+ dst))
    end.

(** [shutil.move(src, dst)]; the result is the real destination: a move
    onto an existing directory goes inside it.  A refused rename and a
    refused copy both surface as [OSError]. *)
Definition shutil_move (at_ : site) (src dst : string) : M string :=
  f ← get_fs;
  if fault E at_ then raise (OSError ("move refused: " +:+ src))
  else
    match f !! src with
    | None => raise (FileNotFoundError src)
    | Some n =>
        match f !! dst with
        | Some (Dir es) =>
            if String.eqb src dst then emit (EvMove src dst);; ret dst
            else
              let real_dst := Path.join dst (Path.basename src) in
              if existsb (String.eqb (Path.basename src)) (map fst es) then
                raise (OSError ("Destination path '" +:+ real_dst +:+ "' already exists"))
              else
                put_fs (<[dst := Dir (es ++ [(Path.basename src, n)])]> (delete src f));;
                emit (EvMove src real_dst);;
                ret real_dst
        | Some (File c) =>
            match n with
            | File _ =>
                put_fs (<[dst := n]> (delete src f));;
                emit (EvMove src dst);;
                ret dst
            | Dir _ => raise (OSError ("not a directory: " +:+ dst))
            end
        | None =>
            put_fs (<[dst := n]> (delete src f));;
            emit (EvMove src dst);;
            ret dst
        end
    end.

(** [os.makedirs(p, exist_ok=True)] *)
Definition makedirs (at_ : site) (p : string) : M unit :=
  f ← get_fs;
  match f !! p with
  | Some (Dir _) => ret ()
  | Some (File _) => raise (OSError ("file exists: " +:+ p))
  | None =>
      if fault E at_ then raise (OSError ("mkdir refused: " +:+ p))
      else put_fs (<[p := Dir []]> f);; emit (EvMkdir p)
  end.

(** [tempfile.mkdtemp(prefix="upd-")]: a fresh directory, or [OSError]
    when none can be created. *)
Definition make_tmp_dir : M string :=
  f ← get_fs;
  if fault E AtMkdtemp then raise (OSError "No usable temporary directory")
  else
    put_fs (<[mkdtemp E := Dir []]> f);;
    emit (EvMkdir (mkdtemp E));;
    ret (mkdtemp E).

(** The text of a file. *)
Definition content_text (c : content) : string :=
  match c with
  | Text s => s
  | Json j => json_dumps E j +:+ Fmt.nl
  end.

Definition read_file (p : string) : M string :=
  f ← get_fs;
  match f !! p with
  | Some (File c) => ret (content_text c)
  | Some (Dir _) => raise (OSError ("is a directory: " +:+ p))
  | None => raise (FileNotFoundError p)
  end.

(** [open(p, "w")] followed by writing [c]. *)
Definition write_file (at_ : option site) (p : string) (c : content) : M unit :=
  f ← get_fs;
  if match at_ with Some a => fault E a | None => false end
  then raise (OSError ("cannot open: " +:+ p))
  else
    match f !! p with
    | Some (Dir _) => raise (OSError ("is a directory: " +:+ p))
    | _ => put_fs (<[p := File c]> f);; emit (EvWrite p)
    end.

(** Entries of [new] laid over [old]: same-named entries are replaced. *)
Definition overlay (old new : list (string * node)) : list (string * node) :=
  List.filter (λ e, negb (existsb (String.eqb e.1) (map fst new))) old ++ new.

(** [os.listdir(p)], with the nodes of the entries. *)
Definition listdir (at_ : site) (p : string) : M (list (string * node)) :=
  f ← get_fs;
  if fault E at_ then raise (OSError ("cannot list: " +:+ p))
  else
    match f !! p with
    | Some (Dir es) => ret es
    | Some (File _) => raise (OSError ("not a directory: " +:+ p))
    | None => raise (FileNotFoundError p)
    end.

(** [shutil.copytree(src, dst, dirs_exist_ok=True)] where [src] is given
    by its node. *)
Definition copytree (at_ : site) (src : node) (dst : string) : M unit :=
  f ← get_fs;
  if fault E at_ then raise (OSError ("copy refused: " +:+ dst))
  else
    match src, f !! dst with
    | File _, _ => raise (OSError "not a directory")
    | Dir es, None => put_fs (<[dst := Dir es]> f);; emit (EvCopytree dst)
    | Dir es, Some (Dir old) =>
        put_fs (<[dst := Dir (overlay old es)]> f);; emit (EvCopytree dst)
    | Dir _, Some (File _) => raise (OSError ("file exists: " +:+ dst))
    end.
End Primitives.

(** ** The source functions *)

Record config : Type := {
  app_name : string;
  repo : string;
  app_dir : string;
  version_file : string;
  asset_pattern : string;
  include_prereleases : bool;
  allow_downgrade : bool;
  restart_cmd : option string;
  dry_run : bool;
}.

Section Updater.
Variable E : env.

(** What [json.load] makes of the node at the path, [default] standing
    for every failure to open or to parse. *)
Definition load_json (default : json) (n : option node) : json :=
  match n with
  | Some (File (Json j)) => j
  | Some (File (Text s)) =>
      match json_loads E s with
      | Some j => j
      | None => default
      end
  | _ => default
  end.

(** [read_json(path, default)] *)
Definition read_json (path : string) (default : json) : M json :=
  f ← get_fs;
  ret (load_json default (f !! path)).

(** [write_json_atomic(path, data)]: when [json.dump] meets a string it
    cannot encode, the temporary file is left with what was written so
    far and the error leaves the function before [os.replace]. *)
Definition write_json_atomic (path : string) (data : json) : M unit :=
  let tmp := path +:+ ".tmp" in
  match json_dump_error E data with
  | Some written =>
      write_file E (Some AtWriteTmp) tmp (Text written);;
      raise (UnicodeEncodeError "surrogates not allowed")
  | None =>
      write_file E (Some AtWriteTmp) tmp (Json data);;
      os_replace E AtReplace tmp path
  end.

Definition http_get_json (url : string) : M (list release) :=
  emit (EvHttpGet url);;
  lift (api E url).

Definition http_download (url dest_path : string) : M unit :=
  emit (EvFetch url dest_path);;
  body ← lift (net E url);
  write_file E None dest_path (Text body).

Definition unzip_to (zip_path target_dir : string) : M unit :=
  body ← read_file E zip_path;
  entries ← lift (unzip E body);
  f ← get_fs;
  match f !! target_dir with
  | Some (Dir old) =>
      put_fs (<[target_dir := Dir (overlay old entries)]> f);;
      emit (EvExtract zip_path target_dir)
  | _ => raise (OSError ("cannot extract to: " +:+ target_dir))
  end.

Definition sha256_file (path : string) : M string :=
  body ← read_file E path;
  ret (sha256 E body).

Definition verify_sha256_from_file (sha_path asset_path : string) : M bool :=
  txt ← read_file E sha_path;
  match Re.re_search sha256_re (Str.strip txt) with
  | None => raise (ValueError ("Invalid sha256 file format: " +:+ sha_path))
  | Some m =>
      let expected := Str.lower (Re.group m 1) in
      actual ← sha256_file asset_path;
      if negb (String.eqb actual expected) then
        raise (ValueError ("SHA-256 mismatch." +:+ Fmt.nl +:+ "  expected=" +:+ expected
                           +:+ Fmt.nl +:+ "  actual  =" +:+ actual))
      else ret true
  end.

Definition get_latest_release (repo : string) (include_prereleases : bool)
    : M (option release) :=
  let url := releases_url repo in
  releases ← http_get_json url;
  ret (latest_of include_prereleases releases).

(** The backup path built in [safe_swap] (from [abspath]) and in the
    fallback of [run_update] (from [app_dir] directly). *)
Definition backup_path (parent app_dir : string) (now : Z) : string :=
  Path.join parent (Path.basename app_dir +:+ ".backup-" +:+ Fmt.of_Z now).

Definition safe_swap (staging_dir app_dir : string) : M string :=
  let parent := Path.dirname (Path.abspath (getcwd E) app_dir) in
  let backup_dir := backup_path parent app_dir (clock_swap E) in
  log ("Creating backup: " +:+ backup_dir);;
  ex ← path_exists backup_dir;
  when ex (rmtree_ignore E AtRmtreeStale backup_dir);;
  ex ← path_exists app_dir;
  when ex (os_rename E AtRenameLive app_dir backup_dir);;
  os_rename E AtRenameStage staging_dir app_dir;;
  ret backup_dir.

Definition rollback_from_backup (backup_dir app_dir : string) : M unit :=
  ex ← path_exists app_dir;
  when ex (rmtree_ignore E AtRollbackRmtree app_dir);;
  ex ← path_exists backup_dir;
  when ex (os_rename E AtRollbackRename backup_dir app_dir).

(** [str(v)] for a value read from the state file, as the f-strings
    format it. *)
Definition py_str (v : json) : string :=
  match v with
  | JStr s => s
  | JNull => "None"
  | JBool b => Fmt.of_bool b
  | JInt n => Fmt.of_Z n
  | _ => py_repr E v
  end.

(** [vdata.get(k, default)]: only a dict has the method. *)
Definition py_get (vdata : json) (k : string) (default : json) : M json :=
  match vdata with
  | JObj d => ret (match dict_get k d with Some v => v | None => default end)
  | _ => raise (AttributeError "get")
  end.

(** [compare_versions(tag, current_version)]: [parse_semver] calls
    [startswith], which only a string has. *)
Definition compare_with (tag : string) (current_version : json) : M Z :=
  match current_version with
  | JStr s => ret (compare_versions tag s)
  | _ => raise (AttributeError "startswith")
  end.

(** [dict(vdata)] followed by [new_vdata["version"] = v]. *)
Definition with_version (vdata : json) (v : string) : json :=
  match vdata with
  | JObj d => JObj (dict_set "version" (JStr v) d)
  | _ => JObj [("version", JStr v)]
  end.

(** The relaunch: [os.spawnl] on Windows, [os.fork] and [os.execl]
    elsewhere; the parent process goes on. *)
Definition relaunch (cmd : string) : M unit :=
  if fault E AtSpawn then raise (OSError ("cannot start: " +:+ cmd))
  else emit (EvSpawn cmd).

(** Lines 289-304: the swap and its copy-based fallback.  The result is
    the value of [backup_dir] afterwards. *)
Definition swap_with_fallback (final_stage app_dir : string) : M (option string) :=
  try_except
    (log "Swapping in new version ...";;
     b ← safe_swap final_stage app_dir;
     ret (Some b))
    is_OSError
    (λ e,
       log ("Rename swap failed: " +:+ Fmt.exn_msg e +:+ "; trying copy+remove fallback.");;
       ex ← path_exists final_stage;
       if ex then
         ex' ← path_exists app_dir;
         backup ← (if ex' then
                     let backup_dir :=
                       backup_path (Path.dirname app_dir) app_dir (clock_fallback E) in
                     log ("Creating backup: " +:+ backup_dir);;
                     shutil_move E AtMoveLive app_dir backup_dir;;
                     ret (Some backup_dir)
                   else ret None);
         shutil_move E AtMoveStage final_stage app_dir;;
         ret backup
       else raise e).

(** Lines 258-326: the body of the [try] statement. *)
Definition install (c : config) (tag : string) (vdata : json)
    (asset_name asset_url : string) (sha_url : option string)
    (tmp_dir : string) : M bool :=
  let zip_path := Path.join tmp_dir asset_name in
  let sha_path := Path.join tmp_dir (asset_name +:+ ".sha256") in
  log ("Downloading asset to " +:+ zip_path +:+ " ...");;
  http_download asset_url zip_path;;
  match sha_url with
  | Some url =>
      log ("Downloading checksum to " +:+ sha_path +:+ " ...");;
      http_download url sha_path;;
      log "Verifying SHA-256 ...";;
      verify_sha256_from_file sha_path zip_path;;
      ret ()
  | None => log "No .sha256 file provided for this asset (verification skipped)."
  end;;
  let staging_dir := Path.join tmp_dir "staging" in
  makedirs E AtMakedirs staging_dir;;
  log ("Extracting to staging: " +:+ staging_dir);;
  unzip_to zip_path staging_dir;;
  items ← listdir E AtListdir staging_dir;
  let extracted_root :=
    match items with
    | [(_, Dir sub)] => Dir sub
    | _ => Dir items
    end in
  let final_stage := Path.join tmp_dir "final" in
  copytree E AtCopytree extracted_root final_stage;;
  backup_dir ← swap_with_fallback final_stage (app_dir c);
  let new_vdata := with_version vdata (Str.lstrip_char "v" tag) in
  write_json_atomic (version_file c) new_vdata;;
  log ("Updated " +:+ version_file c +:+ " -> " +:+ Str.lstrip_char "v" tag);;
  match backup_dir with
  | Some b => ex ← path_exists b; when ex (rmtree_ignore E AtRmtreeBackup b)
  | None => ret ()
  end;;
  match restart_cmd c with
  | Some cmd =>
      when (Str.truthy cmd) (log ("Restarting: " +:+ cmd);; relaunch cmd)
  | None => ret ()
  end;;
  ret true.

(** Lines 238-335: asset resolution, the dry-run exit, and the guarded
    installation. *)
Definition resolve_and_install (c : config) (rel : release) (tag : string)
    (vdata : json) (asset_name : string) : M bool :=
  match find_asset rel asset_name with
  | None =>
      let names := Str.join ", " (map name (assets rel)) in
      raise (FileNotFoundError
               ("Asset '" +:+ asset_name +:+ "' not found in release assets: " +:+ names))
  | Some asset =>
      let asset_url := browser_download_url asset in
      let sha_url :=
        match find_asset rel (asset_name +:+ ".sha256") with
        | Some a => if Str.truthy (browser_download_url a)
                    then Some (browser_download_url a) else None
        | None => None
        end in
      if dry_run c then
        log ("[dry-run] Would download: " +:+ asset_name);;
        when (bool_decide (is_Some sha_url))
          (log ("[dry-run] Would verify with: " +:+ asset_name +:+ ".sha256"));;
        ret false
      else
        tmp_dir ← make_tmp_dir E;
        try_finally
          (try_except
             (install c tag vdata asset_name asset_url sha_url tmp_dir)
             (λ _, true)
             (λ e, emit (EvLogError e);; ret false))
          (rmtree_ignore E AtRmtreeTmp tmp_dir)
  end.

Definition run_update (c : config) : M bool :=
  let os_id := norm_os E in
  let arch_id := norm_arch E in
  asset_name ← lift (str_format E (asset_pattern c) (app_name c) os_id arch_id);
  vdata ← read_json (version_file c) (JObj []);
  let vdata := if json_truthy vdata then vdata else JObj [] in
  current_version ← py_get vdata "version" (JStr "0.0.0");
  log ("Current version: " +:+ py_str current_version);;
  log ("Repo: " +:+ repo c +:+ ", asset pattern -> " +:+ asset_name);;
  release ← get_latest_release (repo c) (include_prereleases c);
  match release with
  | None => log "No suitable releases found.";; ret false
  | Some rel =>
      let tag := str_or (tag_name rel) "0.0.0" in
      log ("Latest release tag: " +:+ tag +:+ " (prerelease="
           +:+ Fmt.of_bool (prerelease rel) +:+ ")");;
      cmp ← compare_with tag current_version;
      if (cmp <? 0) && negb (allow_downgrade c) then
        log "Remote version is older; skipping (use --allow-downgrade to force).";;
        ret false
      else if cmp =? 0 then
        log "Already up to date.";;
        ret false
      else resolve_and_install c rel tag vdata asset_name
  end.

(** [main] maps the result to the exit status; an exception that leaves
    [run_update] ends the process with status 1. *)
Definition exit_status (r : outcome bool) : Z :=
  match r with
  | Ok true => 0
  | Ok false => 1
  | Raise _ => 1
  end.
End Updater.

(** ** The digest token, in the words of the specification

    "The first 64-hex-digit token" of a descriptor: the leftmost run of 64
    consecutive characters that are all hexadecimal digits.  This is the
    reading of the specification; [first_token_search] relates it to the
    pattern search of the source. *)

(** The first [n] characters of [s] exist and all satisfy [p]. *)
Fixpoint all_first (p : ascii → bool) (n : nat) (s : string) : bool :=
  match n with
  | O => true
  | S n' =>
      match s with
      | String c s' => p c && all_first p n' s'
      | EmptyString => false
      end
  end.

Fixpoint first_token (p : ascii → bool) (n : nat) (s : string) : option string :=
  if all_first p n s then Some (substring 0 n s)
  else
    match s with
    | String _ s' => first_token p n s'
    | EmptyString => None
    end.

Definition first_hex_token (s : string) : option string :=
  first_token Str.is_hex 64 s.

(** ** The evaluation stage, in the words of the specification *)

(** The value of [vdata] in [run_update]: the state file as read, or an
    empty dict when it is missing, unreadable or false. *)
Definition local_state (E : env) (c : config) (f : gmap string node) : json :=
  let v := load_json E (JObj []) (f !! version_file c) in
  if json_truthy v then v else JObj [].

(** The value of [current_version] when the state is the dict [d]. *)
Definition version_field (d : list (string * json)) : json :=
  match dict_get "version" d with
  | Some v => v
  | None => JStr "0.0.0"
  end.

(** The tag that [run_update] compares and installs. *)
Definition release_tag (rel : release) : string := str_or (tag_name rel) "0.0.0".

(** The skip conditions of the evaluation stage: no candidate release, or a
    candidate equal to the local version, or an older candidate while
    downgrades are not allowed. *)
Definition evaluation_skips (c : config) (cur : string) (latest : option release)
    : bool :=
  match latest with
  | None => true
  | Some rel =>
      let cmp := compare_versions (release_tag rel) cur in
      (cmp =? 0) || ((cmp <? 0) && negb (allow_downgrade c))
  end.

(** What the run prints and requests before it evaluates a release. *)
Definition preamble (c : config) (asset_name cur : string) : list event :=
  [ EvLog ("Current version: " +:+ cur);
    EvLog ("Repo: " +:+ repo c +:+ ", asset pattern -> " +:+ asset_name);
    EvHttpGet (releases_url (repo c)) ].

Definition announce (rel : release) : event :=
  EvLog ("Latest release tag: " +:+ release_tag rel +:+ " (prerelease="
         +:+ Fmt.of_bool (prerelease rel) +:+ ")").

Definition is_fetch (ev : event) : bool :=
  match ev with
  | EvFetch _ _ => true
  | _ => false
  end.

(** The state file gives no local version and the run goes on: the file
    is missing, it cannot be read as JSON, the record it holds has no
    [version] field, or it holds a value that Python counts as false
    ([null], [false], [0], an empty string, list or record), which line 216
    replaces by the empty record. *)
Inductive no_local_version (E : env) (f : gmap string node) (vfile : string) : Prop :=
| state_missing :
    f !! vfile = None → no_local_version E f vfile
| state_is_directory es :
    f !! vfile = Some (Dir es) → no_local_version E f vfile
| state_unparseable s :
    f !! vfile = Some (File (Text s)) → json_loads E s = None →
    no_local_version E f vfile
| state_without_version d :
    load_json E (JObj []) (f !! vfile) = JObj d → dict_get "version" d = None →
    no_local_version E f vfile
| state_false_value :
    json_truthy (load_json E (JObj []) (f !! vfile)) = false →
    no_local_version E f vfile.

(** The version file lies outside the two backup directories that the swap
    of this run may create. *)
Definition state_outside_backups (E : env) (c : config) : Prop :=
  is_under (backup_path (Path.dirname (Path.abspath (getcwd E) (app_dir c)))
                        (app_dir c) (clock_swap E))
           (version_file c) = false
  ∧ is_under (backup_path (Path.dirname (app_dir c)) (app_dir c) (clock_fallback E))
             (version_file c) = false.

(** ** Observations on traces *)

(** The state file is replaced nowhere in the trace. *)
Definition quiet (t : list event) : Prop :=
  ∀ src dst, ¬ In (EvReplace src dst) t.

(** Nothing was requested from the network for download. *)
Definition no_fetch (t : list event) : Prop :=
  ∀ url dest, ¬ In (EvFetch url dest) t.

(** The staged tree was put at the live path: a rename or a move of
    [final_stage] whose real destination is [app_dir] itself. *)
Definition installed (final_stage app_dir : string) (t : list event) : Prop :=
  In (EvRename final_stage app_dir) t ∨ In (EvMove final_stage app_dir) t.

(** Every replacement of a file in the trace is the replacement of the
    state file by its temporary sibling, and comes after the staged tree
    was put at the live path. *)
Definition write_after_swap (final_stage app_dir vfile : string)
    (t : list event) : Prop :=
  ∀ pre post src dst,
    t = pre ++ EvReplace src dst :: post →
    src = vfile +:+ ".tmp" ∧ dst = vfile ∧ installed final_stage app_dir pre.

(** The only file replaced in the trace is the state file, by its
    temporary sibling. *)
Definition only_state_replace (vfile : string) (t : list event) : Prop :=
  ∀ src dst, In (EvReplace src dst) t → src = vfile +:+ ".tmp" ∧ dst = vfile.

(** A trace predicate that holds of the empty trace and of concatenations. *)
Class AppClosed (P : list event → Prop) : Prop := {
  closed_nil : P [];
  closed_app : ∀ t1 t2, P t1 → P t2 → P (t1 ++ t2);
}.

(** Every trace of the computation satisfies [P]. *)
Definition emits {A} (P : list event → Prop) (m : M A) : Prop :=
  ∀ f, P (m f).2.

(** The event changes what the file system holds at path [p] (for a move,
    [dst] is the real destination, which may lie inside the directory that
    received the node). *)
Definition touches (ev : event) (p : string) : bool :=
  match ev with
  | EvMkdir q | EvWrite q | EvCopytree q => String.eqb p q
  | EvExtract _ q => String.eqb p q
  | EvRename src dst | EvReplace src dst => String.eqb p src || String.eqb p dst
  | EvMove src dst => String.eqb p src || String.prefix p dst
  | EvRmtree root => is_under root p
  | EvLog _ | EvLogError _ | EvHttpGet _ | EvFetch _ _ | EvSpawn _ => false
  end.

(** No event of the trace changes the path. *)
Definition untouched (p : string) (t : list event) : Prop :=
  ∀ ev, In ev t → touches ev p = false.

(** The trace accounts for every change of the file system: a path that no
    event touches holds afterwards what it held before. *)
Definition accounted {A} (m : M A) : Prop :=
  ∀ f p, untouched p (m f).2 → (m f).1.2 !! p = f !! p.

(** ** Sample data for the examples *)

Module Sample.

(** Two digests (of the empty input and of "abc"). *)
Definition digest : string :=
  "e3b0c44298fc1c149afbf4c8996fb92427ae41e4649b934ca495991b7852b855".
Definition other_digest : string :=
  "ba7816bf8f01cfea414140de5dae2223b00361a396177a9cb410ff61f20015ad".

Definition zip_asset : asset :=
  {| name := "demo-linux-x64.zip"; browser_download_url := "https://dl/demo.zip" |}.
Definition sha_asset : asset :=
  {| name := "demo-linux-x64.zip.sha256";
     browser_download_url := "https://dl/demo.zip.sha256" |}.

Definition rel_120 : release :=
  {| tag_name := Some "v1.2.0"; draft := false; prerelease := false;
     assets := [zip_asset; sha_asset] |}.
Definition rel_130_beta : release :=
  {| tag_name := Some "v1.3.0-beta.1"; draft := false; prerelease := true;
     assets := [zip_asset] |}.
Definition rel_200_draft : release :=
  {| tag_name := Some "v2.0.0"; draft := true; prerelease := false;
     assets := [zip_asset] |}.
Definition rel_100_bare : release :=
  {| tag_name := Some "1.0.0"; draft := false; prerelease := false;
     assets := [ {| name := "notes.txt"; browser_download_url := "https://dl/notes" |} ] |}.

Definition new_tree : list (string * node) :=
  [("main.py", File (Text "print(2)"))].

(** An environment in which everything works: the API lists [releases],
    the archive unpacks to one top-level folder, the digest companion
    names the right digest. *)
Definition env_with (releases : list release) (sha_text : string)
    (refuse : site → bool) : env :=
  {| platform_system := "Linux";
     platform_machine := "x86_64";
     str_format := λ _ app os arch, Ok (app +:+ "-" +:+ os +:+ "-" +:+ arch +:+ ".zip");
     api := λ _, Ok releases;
     net := λ url, if String.eqb url "https://dl/demo.zip" then Ok "PK-archive"
                   else Ok sha_text;
     sha256 := λ _, digest;
     unzip := λ _, Ok [("demo", Dir new_tree)];
     json_loads := λ _, None;
     json_dumps := λ _, "{}";
     py_repr := λ _, "?";
     fault := refuse;
     clock_swap := 1700000000;
     clock_fallback := 1700000001;
     mkdtemp := "/tmp/upd-k3";
     json_dump_error := λ _, None;
     getcwd := "/opt/demo" |}.

Definition E : env :=
  env_with [rel_130_beta; rel_120; rel_200_draft]
           (digest +:+ "  demo-linux-x64.zip") (λ _, false).

(** The same, but the first rename of the swap is refused. *)
Definition E_rename_refused : env :=
  env_with [rel_120] (digest +:+ "  demo-linux-x64.zip")
           (λ s, match s with AtRenameLive => true | _ => false end).

(** The only release is the installed one and has no platform asset. *)
Definition E_up_to_date : env :=
  env_with [rel_100_bare] "" (λ _, false).

Definition cfg : config :=
  {| app_name := "demo"; repo := "owner/demo";
     app_dir := "/opt/demo/app"; version_file := "/opt/demo/version.json";
     asset_pattern := "{app}-{os}-{arch}.zip";
     include_prereleases := false; allow_downgrade := false;
     restart_cmd := None; dry_run := false |}.

Definition cfg_dry : config :=
  {| app_name := "demo"; repo := "owner/demo";
     app_dir := "/opt/demo/app"; version_file := "/opt/demo/version.json";
     asset_pattern := "{app}-{os}-{arch}.zip";
     include_prereleases := false; allow_downgrade := false;
     restart_cmd := None; dry_run := true |}.

Definition old_tree : list (string * node) :=
  [("main.py", File (Text "print(1)"))].

Definition state_100 : json :=
  JObj [("channel", JStr "stable"); ("version", JStr "1.0.0")].

(** Version 1.0.0 installed. *)
Definition fs_installed : gmap string node :=
  <["/opt/demo/app" := Dir old_tree]>
    (<["/opt/demo/version.json" := File (Json state_100)]> ∅).

(** An application directory without any state file. *)
Definition fs_no_state : gmap string node :=
  <["/opt/demo/app" := Dir old_tree]> ∅.

(** A digest companion whose first token is another digest, followed by
    the right one. *)
Definition two_digests : string :=
  other_digest +:+ "  old.zip" +:+ Fmt.nl +:+ digest +:+ "  demo.zip".

Definition fs_digests : gmap string node :=
  <["/t/demo.zip" := File (Text "PK-archive")]>
    (<["/t/demo.zip.sha256" := File (Text two_digests)]> ∅).

Definition fs_good_digest : gmap string node :=
  <["/t/demo.zip" := File (Text "PK-archive")]>
    (<["/t/demo.zip.sha256" :=
         File (Text ("SHA256 (demo.zip) = " +:+ Str.lower digest +:+ Fmt.nl))]> ∅).

End Sample.

(** ** Shapes of version tags *)

(** Every character of [s] is in the class [p]. *)
Fixpoint all_chars (p : ascii → bool) (s : string) : bool :=
  match s with
  | EmptyString => true
  | String c s' => p c && all_chars p s'
  end.

(** [s] does not begin with a character of the class [p]. *)
Definition head_fails (p : ascii → bool) (s : string) : bool :=
  match s with
  | EmptyString => true
  | String c _ => negb (p c)
  end.

(** A non-empty run of ASCII digits: what [\d+] captures. *)
Definition digits (s : string) : bool := Str.truthy s && all_chars Str.is_digit s.

Definition is_sign (c : ascii) : bool := Ascii.eqb c "-" || Ascii.eqb c "+".

(** A tail that the optional group of the two patterns accepts: nothing, or
    a sign followed by characters other than newlines. *)
Definition qualifier (s : string) : bool :=
  match s with
  | EmptyString => true
  | String c q => is_sign c && all_chars Re.dot q
  end.

(** ** Further sample data and observations *)

(** A platform that reports the identifiers the updater itself uses. *)
Definition canonical_platform : env :=
  {| platform_system := "linux"; platform_machine := "x64";
     str_format := str_format Sample.E; api := api Sample.E;
     net := net Sample.E; sha256 := sha256 Sample.E;
     unzip := unzip Sample.E; json_loads := json_loads Sample.E;
     json_dumps := json_dumps Sample.E; py_repr := py_repr Sample.E;
     fault := fault Sample.E; clock_swap := clock_swap Sample.E;
     clock_fallback := clock_fallback Sample.E; mkdtemp := mkdtemp Sample.E;
     json_dump_error := json_dump_error Sample.E; getcwd := getcwd Sample.E |}.

(** The sample environment with the releases endpoint out of reach. *)
Definition unreachable_api : env :=
  {| platform_system := platform_system Sample.E;
     platform_machine := platform_machine Sample.E;
     str_format := str_format Sample.E;
     api := λ _, Raise (URLError "timed out");
     net := net Sample.E; sha256 := sha256 Sample.E;
     unzip := unzip Sample.E; json_loads := json_loads Sample.E;
     json_dumps := json_dumps Sample.E; py_repr := py_repr Sample.E;
     fault := fault Sample.E; clock_swap := clock_swap Sample.E;
     clock_fallback := clock_fallback Sample.E; mkdtemp := mkdtemp Sample.E;
     json_dump_error := json_dump_error Sample.E; getcwd := getcwd Sample.E |}.

(** The sample environment, but no temporary directory can be created. *)
Definition no_tmp_dir : env :=
  Sample.env_with [Sample.rel_120] (Sample.digest +:+ "  demo-linux-x64.zip")
    (λ s, match s with AtMkdtemp => true | _ => false end).

(** The sample environment, but the state record holds a string that
    [json.dump] cannot encode: it fails after the opening brace. *)
Definition unencodable_state : env :=
  {| platform_system := platform_system Sample.E;
     platform_machine := platform_machine Sample.E;
     str_format := str_format Sample.E; api := λ _, Ok [Sample.rel_120];
     net := net Sample.E; sha256 := sha256 Sample.E;
     unzip := unzip Sample.E; json_loads := json_loads Sample.E;
     json_dumps := json_dumps Sample.E; py_repr := py_repr Sample.E;
     fault := fault Sample.E; clock_swap := clock_swap Sample.E;
     clock_fallback := clock_fallback Sample.E; mkdtemp := mkdtemp Sample.E;
     json_dump_error := λ _, Some "{"; getcwd := getcwd Sample.E |}.

(** The sample installation with a state file that holds a JSON list. *)
Definition fs_list_state : gmap string node :=
  <["/opt/demo/version.json" := File (Json (JArr [JStr "1.0.0"]))]>
    Sample.fs_no_state.

(** The backup path that [safe_swap] computes for an application directory. *)
Definition swap_backup (E : env) (app_dir : string) : string :=
  backup_path (Path.dirname (Path.abspath (getcwd E) app_dir)) app_dir (clock_swap E).

(** Version 1.0.0 installed and the new tree staged. *)
Definition fs_staged : gmap string node :=
  <["/tmp/upd-k3/final" := Dir Sample.new_tree]> Sample.fs_installed.

(** The sample environment, but the rename of the staged tree is refused. *)
Definition stage_rename_refused : env :=
  Sample.env_with [Sample.rel_120] (Sample.digest +:+ "  demo-linux-x64.zip")
    (λ s, match s with AtRenameStage => true | _ => false end).

(** Every event of the trace is in the class [ok]. *)
Definition all_events (ok : event → bool) (t : list event) : Prop :=
  ∀ ev, In ev t → ok ev = true.

(** Events that only report or ask: the printed lines and the request to
    the releases endpoint. *)
Definition is_report (ev : event) : bool :=
  match ev with
  | EvLog _ | EvLogError _ | EvHttpGet _ => true
  | _ => false
  end.

(** The URL of the digest companion of an asset, as [run_update] takes it
    from the release: none when the release lists no asset named
    [<asset>.sha256], or when that asset has an empty URL. *)
Definition companion_url (rel : release) (asset_name : string) : option string :=
  match find_asset rel (asset_name +:+ ".sha256") with
  | Some a => if Str.truthy (browser_download_url a)
              then Some (browser_download_url a) else None
  | None => None
  end.

Definition is_spawn (ev : event) : bool :=
  match ev with
  | EvSpawn _ => true
  | _ => false
  end.

(** A relaunch in the trace of a result is justified: the result is
    [true] and the command started is the configured, non-empty one. *)
Definition relaunch_justified (c : config)
    (x : outcome bool * gmap string node * list event) : Prop :=
  ∀ cmd, In (EvSpawn cmd) x.2 →
         x.1.1 = Ok true ∧ restart_cmd c = Some cmd ∧ Str.truthy cmd = true.

(** The sample configuration with a restart command. *)
Definition cfg_restart : config :=
  {| app_name := "demo"; repo := "owner/demo";
     app_dir := "/opt/demo/app"; version_file := "/opt/demo/version.json";
     asset_pattern := "{app}-{os}-{arch}.zip";
     include_prereleases := false; allow_downgrade := false;
     restart_cmd := Some "python app/main.py"; dry_run := false |}.

(** The backup path that the fallback of [run_update] computes. *)
Definition fallback_backup (E : env) (app_dir : string) : string :=
  backup_path (Path.dirname app_dir) app_dir (clock_fallback E).

Definition one_of (l : list string) (p : string) : bool :=
  existsb (String.eqb p) l.

(** What a run that looks for the asset [asset_name] may do to the outside
    world: the paths it may create, write, move or remove, the request it
    may send, the command it may start. *)
Definition in_footprint (E : env) (c : config) (asset_name : string) (ev : event)
    : bool :=
  let tmp := mkdtemp E in
  let zip := Path.join tmp asset_name in
  let sha := Path.join tmp (asset_name +:+ ".sha256") in
  let staging := Path.join tmp "staging" in
  let fin := Path.join tmp "final" in
  let vf := version_file c in
  match ev with
  | EvLog _ | EvLogError _ => true
  | EvHttpGet url => String.eqb url (releases_url (repo c))
  | EvFetch _ dest => one_of [zip; sha] dest
  | EvMkdir p => one_of [tmp; staging] p
  | EvWrite p => one_of [zip; sha; vf +:+ ".tmp"] p
  | EvExtract z p => String.eqb z zip && String.eqb p staging
  | EvCopytree p => String.eqb p fin
  | EvRename src dst =>
      (String.eqb src (app_dir c) && String.eqb dst (swap_backup E (app_dir c)))
      || (String.eqb src fin && String.eqb dst (app_dir c))
  | EvReplace src dst => String.eqb src (vf +:+ ".tmp") && String.eqb dst vf
  | EvMove src _ => one_of [app_dir c; fin] src
  | EvRmtree p =>
      one_of [swap_backup E (app_dir c); fallback_backup E (app_dir c); tmp] p
  | EvSpawn cmd =>
      match restart_cmd c with
      | Some x => String.eqb x cmd
      | None => false
      end
  end.

(** The paths of a run are given in absolute normalised form and keep
    apart: the application directory is not the root; the state file and
    its temporary sibling lie outside the application directory, and so
    does the temporary directory; the final staging path is not the
    application directory and not inside or at a backup path; the
    application directory is not the state file or its temporary sibling,
    and not inside the temporary directory. *)
Definition layout_ok (E : env) (c : config) : bool :=
  let fin := Path.join (mkdtemp E) "final" in
  let app := app_dir c in
  Path.plain app
  && Path.canonical (mkdtemp E)
  && Path.canonical (version_file c)
  && negb (is_under app (version_file c))
  && negb (is_under app (version_file c +:+ ".tmp"))
  && negb (is_under app (mkdtemp E))
  && negb (String.eqb fin app)
  && negb (is_under (swap_backup E app) fin)
  && negb (String.eqb fin (fallback_backup E app))
  && negb (String.eqb app (version_file c))
  && negb (String.eqb app (version_file c +:+ ".tmp"))
  && negb (is_under (mkdtemp E) app).

(** What lines 279-283 of [run_update] take as the root of the new tree:
    the single top-level folder of the archive when there is exactly one
    entry and it is a folder, else the whole content. *)
Definition extracted_root (items : list (string * node)) : node :=
  match items with
  | [(_, Dir sub)] => Dir sub
  | _ => Dir items
  end.

(** ** The graphical front end ([updater_gui.py])

    Of the window only [_cmd] computes something: the argument list of the
    [updater.py] process that the two buttons start. *)

(** The attributes of [UpdaterUI] that [_cmd] reads. *)
Record UpdaterUI : Type := {
  ui_repo : string;
  ui_app_name : string;
  ui_restart_cmd : option string;
  ui_app_dir : option string;
  ui_version_file : option string;
  ui_asset_pattern : string;
  ui_include_prereleases : bool;
}.

(** [_python_exe()]: [sys.executable or "python"]. *)
Definition _python_exe (sys_executable : option string) : string :=
  str_or sys_executable "python".

(** [if x: cmd += [flag, x]] *)
Definition option_args (flag : string) (x : option string) : list string :=
  match x with
  | Some s => if Str.truthy s then [flag; s] else []
  | None => []
  end.

(** [self._cmd(dry_run)]: [None] (after an error box) when [updater.py] is
    not a file beside the module, else the command.  [module_dir] is
    [os.path.dirname(__file__)], [isfile] is [os.path.isfile]. *)
Definition _cmd (sys_executable : option string) (module_dir : string)
    (isfile : string → bool) (self : UpdaterUI) (dry_run : bool)
    : option (list string) :=
  let updater_py := Path.join module_dir "updater.py" in
  if negb (isfile updater_py) then None
  else
    Some ([ _python_exe sys_executable; updater_py;
            "--repo"; ui_repo self;
            "--app-name"; ui_app_name self;
            "--asset-pattern"; ui_asset_pattern self;
            "--timeout"; "120" ]
          ++ (if ui_include_prereleases self then ["--include-prereleases"] else [])
          ++ option_args "--restart-cmd" (ui_restart_cmd self)
          ++ option_args "--app-dir" (ui_app_dir self)
          ++ option_args "--version-file" (ui_version_file self)
          ++ (if dry_run then ["--dry-run"] else [])).

(** The buttons: "Check for updates" asks for the dry-run command,
    "Install update" for the plain one. *)
Definition check_command (sys_executable : option string) (module_dir : string)
    (isfile : string → bool) (self : UpdaterUI) : option (list string) :=
  _cmd sys_executable module_dir isfile self true.

Definition install_command (sys_executable : option string) (module_dir : string)
    (isfile : string → bool) (self : UpdaterUI) : option (list string) :=
  _cmd sys_executable module_dir isfile self false.

(** * Properties *)

(** ** The version order *)

Section VersionOrder.
Implicit Types a b c : version.

Lemma version_ltb_irrefl a : version_ltb a a = false.
Proof. destruct a as [[a1 a2] a3]; unfold version_ltb; lia. Qed.

Lemma version_ltb_asym a b : version_ltb a b = true → version_ltb b a = false.
Proof.
  destruct a as [[a1 a2] a3], b as [[b1 b2] b3]; unfold version_ltb; lia.
Qed.

Lemma version_ltb_total a b :
  version_ltb a b = false → version_ltb b a = false → a = b.
Proof.
  destruct a as [[a1 a2] a3], b as [[b1 b2] b3]; unfold version_ltb.
  intros H1 H2.
  assert (a1 = b1 ∧ a2 = b2 ∧ a3 = b3) as (-> & -> & ->) by lia.
  reflexivity.
Qed.


Lemma version_leb_trans a b c :
  version_leb a b = true → version_leb b c = true → version_leb a c = true.
Proof.
  destruct a as [[a1 a2] a3], b as [[b1 b2] b3], c as [[c1 c2] c3].
  unfold version_leb, version_ltb; lia.
Qed.

End VersionOrder.

Example parse_v123 : parse_semver "v1.2.3" = (1, 2, 3).
Proof. reflexivity. Qed.
Example parse_12 : parse_semver "1.2" = (1, 2, 0).
Proof. reflexivity. Qed.
Example parse_beta : parse_semver "1.2.3-beta.1" = (1, 2, 3).
Proof. reflexivity. Qed.
Example parse_garbage : parse_semver "garbage" = unparseable.
Proof. reflexivity. Qed.
Example parse_build : parse_semver "10.20.301+build" = (10, 20, 301).
Proof. reflexivity. Qed.
Example parse_four_parts : parse_semver "1.2.3.4" = unparseable.
Proof. reflexivity. Qed.
Example parse_two_parts_suffix : parse_semver "1.2-rc1" = (1, 2, 0).
Proof. reflexivity. Qed.
Example parse_double_v : parse_semver "vv1.2.3" = unparseable.
Proof. reflexivity. Qed.
Example compare_newer : compare_versions "1.2.0" "1.0.0" = 1.
Proof. reflexivity. Qed.
Example compare_older : compare_versions "1.9.0" "2.0.0" = -1.
Proof. reflexivity. Qed.
Example compare_prerelease_equal : compare_versions "1.2.3-beta.1" "1.2.3" = 0.
Proof. reflexivity. Qed.

Lemma compare_versions_self a : compare_versions a a = 0.
Proof. unfold compare_versions, version_gtb. by rewrite version_ltb_irrefl. Qed.

(** C7.  For all strings [a] and [b], [compare_versions a b] is the
    opposite of [compare_versions b a], and comparing a string with itself
    gives 0 (equal). *)
Theorem compare_versions_antisymmetric (a b : string) :
  compare_versions a b = - compare_versions b a ∧ compare_versions a a = 0.
Proof.
  split.
  - unfold compare_versions, version_gtb.
    destruct (version_ltb (parse_semver a) (parse_semver b)) eqn:Hab,
             (version_ltb (parse_semver b) (parse_semver a)) eqn:Hba;
      simpl; try reflexivity.
  - apply compare_versions_self.
Qed.

(** ** The prefix accepted by [parse_semver] *)

Lemma semver3_needs_digit c s :
  Str.is_digit c = false → Re.re_match semver3_re (String c s) = None.
Proof. intros H. unfold Re.re_match, semver3_re. simpl. by rewrite H. Qed.

Lemma semver2_needs_digit c s :
  Str.is_digit c = false → Re.re_match semver2_re (String c s) = None.
Proof. intros H. unfold Re.re_match, semver2_re. simpl. by rewrite H. Qed.

(** C8 as stated fails: an upper-case prefix is not removed, so the
    prefixed tag is unparseable while the bare one parses. *)
Lemma prefix_V_not_stripped :
  Str.is_digit "V" = false
  ∧ parse_semver "V1.2.3" = unparseable
  ∧ parse_semver "1.2.3" = (1, 2, 3)
  ∧ parse_semver "V1.2.3" ≠ parse_semver "1.2.3".
Proof. repeat split; try reflexivity. discriminate. Qed.

(** C8, amended.  Only the prefix character [v] is accepted: for every
    string [s] that does not itself begin with [v] (in particular every
    numeric version form), [v] followed by [s] parses to the same version as
    [s]; a tag that begins with any other non-digit character is unparseable
    and gets the lowest value. *)
Theorem parse_semver_prefix (c : ascii) (s : string) :
  (Str.startswith "v" s = false →
     parse_semver (String "v" s) = parse_semver s)
  ∧ (c ≠ "v"%char → Str.is_digit c = false →
     parse_semver (String c s) = unparseable).
Proof.
  split.
  - intros Hs. unfold parse_semver at 1. simpl Str.startswith. simpl Str.tail.
    cbv iota. unfold parse_semver. by rewrite Hs.
  - intros Hc Hd. unfold parse_semver.
    assert (Str.startswith "v" (String c s) = false) as ->.
    { simpl. by apply Ascii.eqb_neq. }
    by rewrite semver3_needs_digit, semver2_needs_digit.
Qed.

Lemma parse_semver_prefix_witness :
  parse_semver "v1.2.3" = parse_semver "1.2.3"
  ∧ parse_semver "x1.2.3" = unparseable.
Proof.
  split.
  - apply (proj1 (parse_semver_prefix "x" "1.2.3")). reflexivity.
  - apply (proj2 (parse_semver_prefix "x" "1.2.3")); [discriminate | reflexivity].
Defined.

(** ** Release selection *)

Section SortDesc.
Context {A : Type} (key : A → version).

Lemma insert_desc_not_nil x l : insert_desc key x l ≠ [].
Proof. destruct l as [|y l]; simpl; [done |]. by destruct (version_leb _ _). Qed.

Lemma sort_desc_nil_inv l : sort_desc key l = [] → l = [].
Proof.
  destruct l as [|x l]; [done |]. simpl. intros H.
  by apply insert_desc_not_nil in H.
Qed.

Lemma In_insert_desc x y l : In y (insert_desc key x l) ↔ y = x ∨ In y l.
Proof.
  induction l as [|z l IH]; simpl.
  - intuition.
  - destruct (version_leb (key z) (key x)); simpl; [intuition |].
    rewrite IH. intuition.
Qed.

Lemma In_sort_desc y l : In y (sort_desc key l) ↔ In y l.
Proof.
  induction l as [|x l IH]; simpl; [done |].
  rewrite In_insert_desc, IH. intuition.
Qed.

End SortDesc.






(** ** Digest verification *)

Section Search.
Context {A : Type}.

Lemma rmatch_rep_class (p : ascii → bool) n i s caps (k : @Re.cont A) :
  Re.rmatch (Re.rep n (Re.Chr p)) i s caps k =
  if all_first p n s then k (i + n)%nat (Str.drop n s) caps else None.
Proof.
  revert i s. induction n as [|n IH]; intros i s; simpl.
  - by rewrite Nat.add_0_r.
  - destruct s as [|c s]; [done |]. simpl.
    destruct (p c); [| done]. simpl.
    by rewrite IH, Nat.add_succ_r.
Qed.
End Search.

Lemma search_group_rep p n i s :
  Re.search_from (Re.Group (Re.rep n (Re.Chr p))) i s =
  (λ t, [t]) <$> first_token p n s.
Proof.
  revert i. induction s as [|c s IH]; intros i.
  - simpl Re.search_from. simpl Re.rmatch. rewrite rmatch_rep_class.
    simpl first_token. destruct (all_first p n ""); simpl; [| done].
    by replace (i + n - i)%nat with n by lia.
  - simpl Re.search_from. simpl Re.rmatch. rewrite rmatch_rep_class.
    simpl first_token. destruct (all_first p n (String c s)); simpl.
    + by replace (i + n - i)%nat with n by lia.
    + apply IH.
Qed.

(** The pattern search of the source finds the token of the specification. *)
Lemma first_token_search s :
  Re.re_search sha256_re s = (λ t, [t]) <$> first_hex_token s.
Proof. apply search_group_rep. Qed.

Lemma hex_not_space c : Str.is_hex c = true → Str.is_space c = false.
Proof.
  destruct c as [[] [] [] [] [] [] [] []]; vm_compute; intros H;
    first [reflexivity | discriminate H].
Qed.

Lemma append_nil_l (s : string) : "" +:+ s = s.
Proof. reflexivity. Qed.

Lemma append_cons c (r s : string) : String c r +:+ s = String c (r +:+ s).
Proof. reflexivity. Qed.

Lemma first_token_zero p s : first_token p 0 s = Some "".
Proof. by destruct s. Qed.

Lemma first_token_found p n s :
  all_first p n s = true → first_token p n s = Some (substring 0 n s).
Proof. intros H. destruct s; simpl first_token; by rewrite H. Qed.

Lemma first_token_step p n c s :
  first_token p n (String c s) =
  if all_first p n (String c s) then Some (substring 0 n (String c s))
  else first_token p n s.
Proof. reflexivity. Qed.

Section Strip.
Variable p : ascii → bool.
Hypothesis p_not_space : ∀ c, p c = true → Str.is_space c = false.

(** [w] consists of white space only. *)
Let blank (w : string) : Prop :=
  all_first Str.is_space (String.length w) w = true.

Lemma first_token_lstrip n s : first_token p n (Str.lstrip s) = first_token p n s.
Proof.
  destruct n as [|n]; [by rewrite !first_token_zero |].
  induction s as [|c s IH]; [done |]. simpl Str.lstrip.
  destruct (Str.is_space c) eqn:Hc; [| done].
  rewrite IH, first_token_step. simpl all_first.
  destruct (p c) eqn:Hp; [| done].
  apply p_not_space in Hp. congruence.
Qed.

Lemma rstrip_decomp s : ∃ w, s = Str.rstrip s +:+ w ∧ blank w.
Proof.
  induction s as [|c s (w & Hs & Hw)]; [exists ""; split; reflexivity |].
  simpl. destruct (Str.rstrip s) as [|d r] eqn:Hr.
  - change (s = w) in Hs. subst s. destruct (Str.is_space c) eqn:Hc.
    + exists (String c w). split; [done |]. unfold blank in *. simpl. by rewrite Hc.
    + by exists w.
  - exists w. split; [| done].
    change (String c s = String c (String d r +:+ w)). by rewrite <- Hs.
Qed.

Lemma all_first_app_blank r w m :
  blank w → all_first p m (r +:+ w) = all_first p m r.
Proof.
  intros Hw. revert r. induction m as [|m IH]; intros r; [done |].
  destruct r as [|c r]; rewrite ?append_nil_l, ?append_cons; simpl.
  - destruct w as [|c w]; [done |]. unfold blank in Hw. simpl in Hw.
    destruct (p c) eqn:Hp; [| done]. apply p_not_space in Hp.
    rewrite Hp in Hw. done.
  - by rewrite IH.
Qed.

Lemma substring_app_window r w m :
  all_first p m r = true → substring 0 m (r +:+ w) = substring 0 m r.
Proof.
  revert r. induction m as [|m IH]; intros r H.
  - destruct r; rewrite ?append_nil_l, ?append_cons; [by destruct w | done].
  - destruct r as [|c r]; [done |]. rewrite append_cons. simpl in *.
    apply andb_prop in H as [_ H]. by rewrite IH.
Qed.

Lemma first_token_blank n w : blank w → first_token p (S n) w = None.
Proof.
  induction w as [|c w IH]; [done |]. intros Hw.
  unfold blank in Hw. simpl in Hw. apply andb_prop in Hw as [Hc Hw].
  rewrite first_token_step. simpl all_first.
  destruct (p c) eqn:Hp; [apply p_not_space in Hp; congruence |].
  by apply IH.
Qed.

Lemma first_token_app_blank n r w :
  blank w → first_token p n (r +:+ w) = first_token p n r.
Proof.
  intros Hw. destruct n as [|n]; [by rewrite !first_token_zero |].
  induction r as [|c r IH].
  - rewrite append_nil_l. by rewrite first_token_blank.
  - rewrite append_cons, !first_token_step, <- append_cons.
    rewrite all_first_app_blank by done.
    destruct (all_first p (S n) (String c r)) eqn:Hall.
    + by rewrite substring_app_window.
    + apply IH.
Qed.

Lemma first_token_strip n s : first_token p n (Str.strip s) = first_token p n s.
Proof.
  unfold Str.strip. rewrite first_token_lstrip.
  destruct (rstrip_decomp s) as (w & Hs & Hw).
  rewrite Hs at 2. by rewrite first_token_app_blank.
Qed.
End Strip.

(** A token is found where it stands when no window of [n] characters of
    the class starts before it. *)
Lemma window_at_start p n tok post :
  String.length tok = n → all_first p n tok = true →
  all_first p n (tok +:+ post) = true ∧ substring 0 n (tok +:+ post) = tok.
Proof.
  revert tok. induction n as [|m IHm]; intros tok Hlen Htok.
  - destruct tok; [| done]. rewrite append_nil_l. split; [done |]. by destruct post.
  - destruct tok as [|d tok]; [done |]. rewrite append_cons. simpl in *.
    apply andb_prop in Htok as [Hd Htok]. injection Hlen as Hlen.
    destruct (IHm tok Hlen Htok) as [H1 H2]. by rewrite Hd, H1, H2.
Qed.

Lemma first_token_at p n pre tok post :
  String.length tok = n → all_first p n tok = true →
  (∀ a b, pre = a +:+ b → b ≠ "" → all_first p n (b +:+ tok +:+ post) = false) →
  first_token p n (pre +:+ tok +:+ post) = Some tok.
Proof.
  intros Hlen Htok. induction pre as [|c pre IH]; intros Hpre.
  - rewrite append_nil_l.
    destruct (window_at_start p n tok post Hlen Htok) as [Hall Hsub].
    by rewrite first_token_found, Hsub.
  - rewrite append_cons, first_token_step, <- append_cons.
    rewrite (Hpre "" (String c pre) eq_refl) by done.
    apply IH. intros a b -> Hb. apply (Hpre (String c a) b); done.
Qed.

Lemma read_file_File E p f c :
  f !! p = Some (File c) → read_file E p f = (Ok (content_text E c), f, []).
Proof. intros H. unfold read_file, bind, get_fs. by rewrite H. Qed.

Lemma sha256_file_File E p f c :
  f !! p = Some (File c) →
  sha256_file E p f = (Ok (sha256 E (content_text E c)), f, []).
Proof. intros H. unfold sha256_file, bind. by rewrite (read_file_File _ _ _ _ H). Qed.

(** C6 as stated fails in its first part: a descriptor that contains the
    digest of the file after another 64-hex-digit token is rejected. *)
Lemma digest_after_other_token_rejected :
  sha256 Sample.E "PK-archive" = Sample.digest
  ∧ Fmt.contains Sample.digest Sample.two_digests = true
  ∧ (verify_sha256_from_file Sample.E "/t/demo.zip.sha256" "/t/demo.zip"
       Sample.fs_digests).1.1
    = Raise (ValueError ("SHA-256 mismatch." +:+ Fmt.nl
                         +:+ "  expected=" +:+ Sample.other_digest +:+ Fmt.nl
                         +:+ "  actual  =" +:+ Sample.digest)).
Proof. repeat split; vm_compute; reflexivity. Qed.

(** C6, amended.  For a file whose computed digest is [D]: verification
    succeeds when the first 64-hex-digit token of the descriptor equals [D]
    up to letter case, whatever text surrounds it; it fails with an error
    carrying the expected and the actual digest when that first token
    differs from [D]; and it fails with a format error when the descriptor
    has no 64-hex-digit token. *)
Theorem verify_sha256_from_file_outcomes (E : env) (sha_path asset_path : string)
    (f : gmap string node) (cs ca : content) (D : string) :
  f !! sha_path = Some (File cs) →
  f !! asset_path = Some (File ca) →
  sha256 E (content_text E ca) = D →
  (∀ tok, first_hex_token (content_text E cs) = Some tok → Str.lower tok = D →
     verify_sha256_from_file E sha_path asset_path f = (Ok true, f, []))
  ∧ (∀ tok, first_hex_token (content_text E cs) = Some tok → Str.lower tok ≠ D →
     verify_sha256_from_file E sha_path asset_path f
     = (Raise (ValueError ("SHA-256 mismatch." +:+ Fmt.nl
                           +:+ "  expected=" +:+ Str.lower tok +:+ Fmt.nl
                           +:+ "  actual  =" +:+ D)), f, []))
  ∧ (first_hex_token (content_text E cs) = None →
     verify_sha256_from_file E sha_path asset_path f
     = (Raise (ValueError ("Invalid sha256 file format: " +:+ sha_path)), f, [])).
Proof.
  intros Hs Ha HD.
  assert (∀ o, first_hex_token (content_text E cs) = o →
            Re.re_search sha256_re (Str.strip (content_text E cs)) = (λ t, [t]) <$> o)
    as Hsearch.
  { intros o <-. rewrite first_token_search. unfold first_hex_token.
    by rewrite (first_token_strip _ hex_not_space). }
  unfold verify_sha256_from_file, bind.
  rewrite (read_file_File _ _ _ _ Hs).
  repeat split.
  - intros tok Htok Heq. rewrite (Hsearch _ Htok). simpl.
    rewrite (sha256_file_File _ _ _ _ Ha), HD. simpl.
    change (Re.group [tok] 1) with tok.
    rewrite Heq, String.eqb_refl. reflexivity.
  - intros tok Htok Hne. rewrite (Hsearch _ Htok). simpl.
    rewrite (sha256_file_File _ _ _ _ Ha), HD. simpl.
    change (Re.group [tok] 1) with tok.
    assert (String.eqb D (Str.lower tok) = false) as ->.
    { apply String.eqb_neq. congruence. }
    reflexivity.
  - intros Hnone. by rewrite (Hsearch _ Hnone).
Qed.

Lemma verify_sha256_from_file_outcomes_witness :
  verify_sha256_from_file Sample.E "/t/demo.zip.sha256" "/t/demo.zip"
    Sample.fs_good_digest
  = (Ok true, Sample.fs_good_digest, []).
Proof.
  refine (proj1 (verify_sha256_from_file_outcomes Sample.E
                   "/t/demo.zip.sha256" "/t/demo.zip" Sample.fs_good_digest
                   (Text ("SHA256 (demo.zip) = " +:+ Str.lower Sample.digest +:+ Fmt.nl))
                   (Text "PK-archive") Sample.digest _ _ _) Sample.digest _ _);
    vm_compute; reflexivity.
Defined.

(** ** Reasoning about computations *)

Section Monad.
Context {A B : Type}.
Implicit Types (m : M A) (k : A → M B) (f : gmap string node).

Lemma bind_Ok m k f a f1 t1 :
  m f = (Ok a, f1, t1) → bind m k f = prefixed t1 (k a f1).
Proof.
  intros H. unfold bind, prefixed. rewrite H.
  by destruct (k a f1) as [[r f2] t2].
Qed.

Lemma bind_Raise m k f e f1 t1 :
  m f = (Raise e, f1, t1) → bind m k f = (Raise e, f1, t1).
Proof. intros H. unfold bind. by rewrite H. Qed.

Lemma bind_inv m k f r f' t :
  bind m k f = (r, f', t) →
  (∃ a f1 t1 t2, m f = (Ok a, f1, t1) ∧ k a f1 = (r, f', t2) ∧ t = t1 ++ t2)
  ∨ (∃ e, m f = (Raise e, f', t) ∧ r = Raise e).
Proof.
  unfold bind. destruct (m f) as [[[a | e] f1] t1].
  - destruct (k a f1) as [[r2 f2] t2] eqn:Hk. intros [= <- <- <-].
    left. by exists a, f1, t1, t2.
  - intros [= <- <- <-]. right. by exists e.
Qed.

Lemma bind_inv_Ok m k f b f' t :
  bind m k f = (Ok b, f', t) →
  ∃ a f1 t1 t2, m f = (Ok a, f1, t1) ∧ k a f1 = (Ok b, f', t2) ∧ t = t1 ++ t2.
Proof.
  intros H. apply bind_inv in H as [H | (e & _ & [=])]. exact H.
Qed.

Lemma bind_trace m k f :
  (bind m k f).2 =
  match (m f).1.1 with
  | Ok a => (m f).2 ++ (k a (m f).1.2).2
  | Raise _ => (m f).2
  end.
Proof.
  unfold bind. destruct (m f) as [[[a | e] f1] t1]; simpl; [| done].
  by destruct (k a f1) as [[r2 f2] t2].
Qed.
End Monad.

Lemma prefixed_nil {A} (x : outcome A * gmap string node * list event) :
  prefixed [] x = x.
Proof. by destruct x as [[r f] t]. Qed.

Lemma prefixed_trace {A} t0 (x : outcome A * gmap string node * list event) :
  (prefixed t0 x).2 = t0 ++ x.2.
Proof. reflexivity. Qed.

Lemma prefixed_prefixed {A} t1 t2 (x : outcome A * gmap string node * list event) :
  prefixed t1 (prefixed t2 x) = prefixed (t1 ++ t2) x.
Proof. destruct x as [[r f] t]. unfold prefixed. simpl. by rewrite app_assoc. Qed.

(** *** Trace predicates *)

Lemma quiet_nil : quiet [].
Proof. intros s d []. Qed.

Lemma quiet_app t1 t2 : quiet t1 → quiet t2 → quiet (t1 ++ t2).
Proof. intros H1 H2 s d Hin. apply in_app_or in Hin as [?|?]; [by eapply H1 | by eapply H2]. Qed.

Lemma quiet_one ev : (∀ s d, ev ≠ EvReplace s d) → quiet [ev].
Proof. intros H s d [Heq | []]. by eapply H. Qed.

Lemma write_after_swap_quiet fin app vf t : quiet t → write_after_swap fin app vf t.
Proof.
  intros Hq pre post s d ->. exfalso. apply (Hq s d).
  apply in_or_app. right. by left.
Qed.

Lemma installed_app_l fin app t1 t2 : installed fin app t1 → installed fin app (t1 ++ t2).
Proof. intros [H | H]; [left | right]; apply in_or_app; by left. Qed.

Lemma installed_app_r fin app t1 t2 : installed fin app t2 → installed fin app (t1 ++ t2).
Proof. intros [H | H]; [left | right]; apply in_or_app; by right. Qed.

(** A split of [t1 ++ t2] at a replacement event falls in [t1] or in [t2]. *)
Lemma split_at_replace t1 t2 pre post s d :
  t1 ++ t2 = pre ++ EvReplace s d :: post →
  (∃ mid, t1 = pre ++ EvReplace s d :: mid ∧ post = mid ++ t2)
  ∨ (∃ mid, pre = t1 ++ mid ∧ t2 = mid ++ EvReplace s d :: post).
Proof.
  revert pre. induction t1 as [|x t1 IH]; intros pre H; simpl in H.
  - right. by exists pre.
  - destruct pre as [|y pre]; simpl in H.
    + injection H as -> <-. left. by exists t1.
    + injection H as <- H. apply IH in H as [(mid & -> & ->) | (mid & -> & ->)].
      * left. by exists mid.
      * right. by exists mid.
Qed.

Lemma write_after_swap_app_quiet_l fin app vf t1 t2 :
  quiet t1 → write_after_swap fin app vf t2 → write_after_swap fin app vf (t1 ++ t2).
Proof.
  intros Hq Hg pre post s d H.
  apply split_at_replace in H as [(mid & -> & _) | (mid & -> & ->)].
  - exfalso. apply (Hq s d). apply in_or_app. right. by left.
  - destruct (Hg mid post s d eq_refl) as (-> & -> & Hi).
    repeat split. by apply installed_app_r.
Qed.

Lemma write_after_swap_app_quiet_r fin app vf t1 t2 :
  write_after_swap fin app vf t1 → quiet t2 → write_after_swap fin app vf (t1 ++ t2).
Proof.
  intros Hg Hq pre post s d H.
  apply split_at_replace in H as [(mid & -> & _) | (mid & -> & ->)].
  - by apply (Hg pre mid s d).
  - exfalso. apply (Hq s d). apply in_or_app. right. by left.
Qed.

(** After the staged tree is in place, replacements of the state file are
    in order. *)
Lemma write_after_swap_installed fin app vf t1 t2 :
  quiet t1 → installed fin app t1 →
  (∀ s d, In (EvReplace s d) t2 → s = vf +:+ ".tmp" ∧ d = vf) →
  write_after_swap fin app vf (t1 ++ t2).
Proof.
  intros Hq Hi Hvf pre post s d H.
  apply split_at_replace in H as [(mid & -> & _) | (mid & -> & ->)].
  - exfalso. apply (Hq s d). apply in_or_app. right. by left.
  - destruct (Hvf s d) as [-> ->]; [apply in_or_app; right; by left |].
    repeat split. by apply installed_app_l.
Qed.

#[global] Instance quiet_closed : AppClosed quiet.
Proof. split; [apply quiet_nil | apply quiet_app]. Qed.

#[global] Instance only_state_replace_closed vf : AppClosed (only_state_replace vf).
Proof.
  split.
  - intros s d [].
  - intros t1 t2 H1 H2 s d Hin. apply in_app_or in Hin as [?|?]; eauto.
Qed.

Lemma quiet_only_state_replace vf t : quiet t → only_state_replace vf t.
Proof. intros H s d Hin. by apply H in Hin. Qed.

Section Emits.
Context (P : list event → Prop) `{!AppClosed P}.

Lemma emits_ret {A} (a : A) : emits P (ret a).
Proof. intros f. apply closed_nil. Qed.

Lemma emits_raise {A} e : emits P (@raise A e).
Proof. intros f. apply closed_nil. Qed.

Lemma emits_get_fs : emits P get_fs.
Proof. intros f. apply closed_nil. Qed.

Lemma emits_put_fs f' : emits P (put_fs f').
Proof. intros f. apply closed_nil. Qed.

Lemma emits_emit ev : P [ev] → emits P (emit ev).
Proof. intros H f. exact H. Qed.

Lemma emits_bind {A B} (m : M A) (k : A → M B) :
  emits P m → (∀ a, emits P (k a)) → emits P (bind m k).
Proof.
  intros Hm Hk f. rewrite bind_trace. specialize (Hm f).
  destruct (m f) as [[[a | e] f1] t1]; simpl in *; [| done].
  apply closed_app; [done | apply Hk].
Qed.

Lemma emits_lift {A} (r : outcome A) : emits P (lift r).
Proof. destruct r; [apply emits_ret | apply emits_raise]. Qed.

Lemma emits_when b m : emits P m → emits P (when b m).
Proof. destruct b; [done | intros _; apply emits_ret]. Qed.

Lemma emits_try_except {A} (m : M A) catches h :
  emits P m → (∀ e, emits P (h e)) → emits P (try_except m catches h).
Proof.
  intros Hm Hh f. unfold try_except. specialize (Hm f).
  destruct (m f) as [[[a | e] f1] t1]; simpl in *; [done |].
  destruct (catches e); [| done]. specialize (Hh e f1).
  destruct (h e f1) as [[r f2] t2]. simpl in *. by apply closed_app.
Qed.

Lemma emits_try_finally {A} (m : M A) c :
  emits P m → emits P c → emits P (try_finally m c).
Proof.
  intros Hm Hc f. unfold try_finally. specialize (Hm f).
  destruct (m f) as [[r f1] t1]. specialize (Hc f1).
  destruct (c f1) as [[[[] | e] f2] t2]; simpl in *; by apply closed_app.
Qed.
End Emits.

(** One step of a proof that a computation only emits traces in [P]. *)
Ltac emits_step :=
  lazymatch goal with
  | |- emits _ (bind _ _) => apply emits_bind; [apply _ | | intros ?]
  | |- emits _ (ret _) => apply emits_ret; apply _
  | |- emits _ (raise _) => apply emits_raise; apply _
  | |- emits _ get_fs => apply emits_get_fs; apply _
  | |- emits _ (put_fs _) => apply emits_put_fs; apply _
  | |- emits _ (lift _) => apply emits_lift; apply _
  | |- emits _ (when _ _) => apply emits_when; [apply _ |]
  | |- emits _ (log _) => apply emits_emit
  | |- emits _ (emit _) => apply emits_emit
  | |- emits _ (try_except _ _ _) => apply emits_try_except; [apply _ | | intros ?]
  | |- emits _ (try_finally _ _) => apply emits_try_finally; [apply _ | |]
  | |- emits _ (match ?x with _ => _ end) => destruct x
  | |- quiet [_] => apply quiet_one; intros; discriminate
  | |- only_state_replace _ [_] =>
      apply quiet_only_state_replace, quiet_one; intros; discriminate
  end.

Ltac emits_auto := repeat (cbv zeta; emits_step).

Create HintDb quiet.

Section Quiet.
Variable E : env.

Lemma quiet_path_exists p : emits quiet (path_exists p).
Proof. unfold path_exists. emits_auto. Qed.

Lemma quiet_rmtree_ignore a p : emits quiet (rmtree_ignore E a p).
Proof. unfold rmtree_ignore. emits_auto. Qed.

Lemma quiet_os_rename a src dst : emits quiet (os_rename E a src dst).
Proof. unfold os_rename. emits_auto. Qed.

Lemma quiet_shutil_move a src dst : emits quiet (shutil_move E a src dst).
Proof. unfold shutil_move. emits_auto. Qed.

Lemma quiet_makedirs a p : emits quiet (makedirs E a p).
Proof. unfold makedirs. emits_auto. Qed.

Lemma quiet_make_tmp_dir : emits quiet (make_tmp_dir E).
Proof. unfold make_tmp_dir. emits_auto. Qed.

Lemma quiet_read_file p : emits quiet (read_file E p).
Proof. unfold read_file. emits_auto. Qed.

Lemma quiet_write_file a p c : emits quiet (write_file E a p c).
Proof. unfold write_file. emits_auto. Qed.

Lemma quiet_listdir a p : emits quiet (listdir E a p).
Proof. unfold listdir. emits_auto. Qed.

Lemma quiet_copytree a n p : emits quiet (copytree E a n p).
Proof. unfold copytree. emits_auto. Qed.
End Quiet.

#[global] Hint Resolve quiet_path_exists quiet_rmtree_ignore quiet_os_rename
  quiet_shutil_move quiet_makedirs quiet_make_tmp_dir quiet_read_file
  quiet_write_file quiet_listdir quiet_copytree : quiet.

(** ** Paths: a backup path is never the application path *)

Section Paths.
Import Path.

Lemma has_slash_app a b : has_slash (a +:+ b) = has_slash a || has_slash b.
Proof.
  induction a as [|c a IH]; [done |].
  rewrite append_cons. simpl. by rewrite IH, orb_assoc.
Qed.

Lemma basename_no_slash s : has_slash s = false → basename s = s.
Proof.
  destruct s as [|c s]; [done |]. simpl. intros H.
  apply orb_false_elim in H as [Hc Hs]. by rewrite Hs, Hc.
Qed.

Lemma has_slash_basename s : has_slash (basename s) = false.
Proof.
  induction s as [|c s IH]; [done |]. simpl.
  destruct (has_slash s) eqn:Hs; [done |].
  destruct (is_slash c) eqn:Hc; [done |]. simpl. by rewrite Hc, Hs.
Qed.

Lemma basename_after_slash a x :
  has_slash x = false → basename (a +:+ String "/" x) = x.
Proof.
  intros Hx. induction a as [|c a IH].
  - rewrite append_nil_l. simpl. by rewrite Hx.
  - rewrite append_cons. simpl. rewrite has_slash_app. simpl.
    rewrite orb_true_r. exact IH.
Qed.

Lemma endswith_slash_inv a : endswith_slash a = true → ∃ a', a = a' +:+ "/".
Proof.
  induction a as [|c a IH]; [done |]. simpl.
  destruct a as [|d a].
  - intros Hc. exists "". rewrite append_nil_l.
    unfold is_slash in Hc. apply Ascii.eqb_eq in Hc. by subst c.
  - intros H. destruct (IH H) as [a' Ha']. exists (String c a').
    rewrite append_cons. by rewrite <- Ha'.
Qed.

Lemma append_assoc (a b c : string) : (a +:+ b) +:+ c = a +:+ (b +:+ c).
Proof.
  induction a as [|x a IH]; [done |]. rewrite !append_cons. by rewrite IH.
Qed.

Lemma basename_join d x :
  x ≠ "" → has_slash x = false → basename (join d x) = x.
Proof.
  intros Hne Hx. unfold join.
  destruct (Str.startswith "/" x) eqn:Hsw.
  { destruct x as [|c x]; [done |]. simpl in Hsw, Hx.
    unfold is_slash in Hx. by rewrite Hsw in Hx. }
  destruct (negb (Str.truthy d) || endswith_slash d) eqn:Hcase.
  - apply orb_prop in Hcase as [Hd | He].
    + destruct d; [| done]. rewrite append_nil_l. by apply basename_no_slash.
    + apply endswith_slash_inv in He as [a' ->].
      rewrite append_assoc. change ("/" +:+ x) with (String "/" x).
      by apply basename_after_slash.
  - change ("/" +:+ x) with (String "/" x). by apply basename_after_slash.
Qed.

Lemma is_slash_digit_char d : (d < 10)%N → is_slash (Fmt.digit_char d) = false.
Proof.
  intros H.
  assert (d = 0 ∨ d = 1 ∨ d = 2 ∨ d = 3 ∨ d = 4 ∨ d = 5 ∨ d = 6 ∨ d = 7
          ∨ d = 8 ∨ d = 9)%N as Hd by lia.
  repeat (destruct Hd as [-> | Hd]; [reflexivity |]). by subst d.
Qed.

Lemma has_slash_digits fuel n acc :
  has_slash acc = false → has_slash (Fmt.digits_fuel fuel n acc) = false.
Proof.
  revert n acc. induction fuel as [|fuel IH]; intros n acc Hacc; [done |].
  simpl.
  assert (has_slash (String (Fmt.digit_char (n mod 10)) acc) = false) as Hacc'.
  { simpl. rewrite Hacc, is_slash_digit_char; [done |].
    apply N.mod_lt. lia. }
  destruct (n <? 10)%N; [exact Hacc' | by apply IH].
Qed.

Lemma has_slash_of_Z z : has_slash (Fmt.of_Z z) = false.
Proof.
  unfold Fmt.of_Z, Fmt.of_N. destruct (z <? 0).
  - rewrite has_slash_app, has_slash_digits by done. reflexivity.
  - by apply has_slash_digits.
Qed.

Lemma length_append (a b : string) :
  String.length (a +:+ b) = (String.length a + String.length b)%nat.
Proof. induction a as [|c a IH]; [done |]. rewrite append_cons. simpl. by rewrite IH. Qed.

(** The backup path differs from the application path: its last
    component is longer. *)
Lemma backup_path_fresh parent app_dir now :
  backup_path parent app_dir now ≠ app_dir.
Proof.
  unfold backup_path. intros Heq.
  assert (basename (join parent (basename app_dir +:+ ".backup-" +:+ Fmt.of_Z now))
          = basename app_dir) as Hb by by rewrite Heq.
  rewrite basename_join in Hb.
  - apply (f_equal String.length) in Hb. rewrite length_append in Hb.
    rewrite length_append in Hb. simpl in Hb. lia.
  - intros H. apply (f_equal String.length) in H.
    rewrite !length_append in H. simpl in H. lia.
  - rewrite !has_slash_app, has_slash_basename, has_slash_of_Z. reflexivity.
Qed.
End Paths.

(** ** The swap *)

(** Inversion of a successful sequence, one step at a time. *)
Tactic Notation "inv_bind" hyp(H) "as" ident(a) ident(f1) ident(H1) :=
  apply bind_inv_Ok in H as (a & f1 & ? & ? & H1 & H & ->);
  cbv beta in H.

Lemma try_except_inv_Ok {A} (m : M A) catches h f b f' t :
  try_except m catches h f = (Ok b, f', t) →
  m f = (Ok b, f', t)
  ∨ ∃ e f1 t1 t2, m f = (Raise e, f1, t1) ∧ catches e = true
                  ∧ h e f1 = (Ok b, f', t2) ∧ t = t1 ++ t2.
Proof.
  unfold try_except. destruct (m f) as [[[a | e] f1] t1].
  - intros [= <- <- <-]. by left.
  - destruct (catches e) eqn:Hc; [| done].
    destruct (h e f1) as [[r f2] t2] eqn:Hh. intros [= -> <- <-].
    right. by exists e, f1, t1, t2.
Qed.

Section SwapFacts.
Variable E : env.

Lemma path_exists_inv p f ex f' t :
  path_exists p f = (Ok ex, f', t) →
  f' = f ∧ t = [] ∧ ex = match f !! p with Some _ => true | None => false end.
Proof. unfold path_exists, bind, get_fs, ret. simpl. by intros [= <- <- <-]. Qed.

Lemma log_inv msg f r f' t :
  log msg f = (r, f', t) → r = Ok () ∧ f' = f ∧ t = [EvLog msg].
Proof. unfold log, emit. by intros [= <- <- <-]. Qed.

Lemma ret_inv {A} (a : A) f r f' t :
  ret a f = (r, f', t) → r = Ok a ∧ f' = f ∧ t = [].
Proof. unfold ret. by intros [= <- <- <-]. Qed.

Lemma make_tmp_dir_run f :
  make_tmp_dir E f
  = if fault E AtMkdtemp
    then (Raise (OSError "No usable temporary directory"), f, [])
    else (Ok (mkdtemp E), <[mkdtemp E := Dir []]> f, [EvMkdir (mkdtemp E)]).
Proof.
  unfold make_tmp_dir, bind, get_fs, put_fs, emit, ret, raise. simpl.
  by destruct (fault E AtMkdtemp).
Qed.

Lemma make_tmp_dir_inv f tmp f' t :
  make_tmp_dir E f = (Ok tmp, f', t) →
  fault E AtMkdtemp = false ∧ tmp = mkdtemp E
  ∧ f' = <[mkdtemp E := Dir []]> f ∧ t = [EvMkdir (mkdtemp E)].
Proof.
  rewrite make_tmp_dir_run. destruct (fault E AtMkdtemp); [done |].
  by intros [= <- <- <-].
Qed.

Lemma os_rename_inv a src dst f u f' t :
  os_rename E a src dst f = (Ok u, f', t) →
  t = [EvRename src dst]
  ∧ ∃ n, f !! src = Some n ∧ f' = <[dst := n]> (delete src f).
Proof.
  unfold os_rename, bind, get_fs, put_fs, emit, raise. simpl.
  destruct (fault E a); [done |].
  destruct (f !! src) as [n |]; [| done].
  destruct (can_replace n (f !! dst)); [| done].
  simpl. intros [= <- <- <-]. split; [done |]. by exists n.
Qed.

Lemma os_replace_inv a src dst f u f' t :
  os_replace E a src dst f = (Ok u, f', t) →
  t = [EvReplace src dst]
  ∧ ∃ n, f !! src = Some n ∧ f' = <[dst := n]> (delete src f).
Proof.
  unfold os_replace, bind, get_fs, put_fs, emit, raise. simpl.
  destruct (fault E a); [done |].
  destruct (f !! src) as [n |]; [| done].
  destruct (can_replace n (f !! dst)); [| done].
  simpl. intros [= <- <- <-]. split; [done |]. by exists n.
Qed.

(** A successful move empties the source path. *)
Lemma shutil_move_source_gone a src dst f d' f' t :
  src ≠ dst → shutil_move E a src dst f = (Ok d', f', t) → f' !! src = None.
Proof.
  intros Hne. unfold shutil_move, bind, get_fs, put_fs, emit, raise, ret. simpl.
  destruct (fault E a); [done |].
  destruct (f !! src) as [n |]; [| done].
  destruct (f !! dst) as [[c | es] |].
  - destruct n; [| done]. simpl. intros [= <- <- <-].
    by rewrite lookup_insert_ne, lookup_delete_eq.
  - destruct (String.eqb src dst) eqn:Heq.
    { apply String.eqb_eq in Heq. done. }
    destruct (existsb _ _); [done |]. simpl. intros [= <- <- <-].
    by rewrite lookup_insert_ne, lookup_delete_eq.
  - simpl. intros [= <- <- <-].
    by rewrite lookup_insert_ne, lookup_delete_eq.
Qed.

(** A successful move onto a vacant path puts the source node there. *)
Lemma shutil_move_vacant a src dst f d' f' t :
  f !! dst = None → shutil_move E a src dst f = (Ok d', f', t) →
  d' = dst ∧ t = [EvMove src dst]
  ∧ ∃ n, f !! src = Some n ∧ f' = <[dst := n]> (delete src f).
Proof.
  intros Hdst. unfold shutil_move, bind, get_fs, put_fs, emit, raise, ret. simpl.
  destruct (fault E a); [done |].
  destruct (f !! src) as [n |]; [| done].
  rewrite Hdst. simpl. intros [= <- <- <-].
  repeat split. by exists n.
Qed.

Lemma safe_swap_inv fin app f b f' t :
  safe_swap E fin app f = (Ok b, f', t) →
  b = backup_path (Path.dirname (Path.abspath (getcwd E) app)) app (clock_swap E)
  ∧ quiet t ∧ In (EvRename fin app) t
  ∧ ∃ f0 n, f0 !! fin = Some n ∧ f' = <[app := n]> (delete fin f0).
Proof.
  intros H.
  assert (quiet t) as Hq.
  { assert (emits quiet (safe_swap E fin app)) as Hem.
    { unfold safe_swap. emits_auto; auto with quiet. }
    specialize (Hem f). by rewrite H in Hem. }
  unfold safe_swap in H. cbv zeta in H.
  inv_bind H as u1 f1 Hlog. inv_bind H as ex1 f2 Hex1. inv_bind H as u2 f3 Hstale.
  inv_bind H as ex2 f4 Hex2. inv_bind H as u3 f5 Hlive.
  inv_bind H as u4 f6 Hstage.
  apply ret_inv in H as ([= <-] & -> & ->).
  apply os_rename_inv in Hstage as (-> & n & Hn & ->).
  split; [done |]. split; [done |]. split.
  - rewrite !in_app_iff. simpl. tauto.
  - by exists f5, n.
Qed.
End SwapFacts.

Section SwapWithFallback.
Variable E : env.

Lemma quiet_safe_swap fin app : emits quiet (safe_swap E fin app).
Proof. unfold safe_swap. emits_auto; auto with quiet. Qed.

Lemma quiet_swap_with_fallback fin app : emits quiet (swap_with_fallback E fin app).
Proof.
  unfold swap_with_fallback. emits_auto; auto using quiet_safe_swap with quiet.
Qed.

(** When the swap block returns, the staged tree is at the live path:
    the trace shows the rename or the move of the staged tree onto
    [app_dir] itself, and [app_dir] holds the node that was staged. *)
Lemma swap_with_fallback_inv fin app f b f' t :
  swap_with_fallback E fin app f = (Ok b, f', t) →
  installed fin app t
  ∧ (∃ f0 n, f0 !! fin = Some n ∧ f' = <[app := n]> (delete fin f0))
  ∧ (b = None
     ∨ b = Some (backup_path (Path.dirname (Path.abspath (getcwd E) app)) app (clock_swap E))
     ∨ b = Some (backup_path (Path.dirname app) app (clock_fallback E))).
Proof.
  unfold swap_with_fallback. intros H.
  apply try_except_inv_Ok in H as [H | (e & f1 & t1 & t2 & _ & _ & H & ->)].
  - inv_bind H as u fa Hlog. inv_bind H as b0 fb Hsafe.
    apply ret_inv in H as ([= ->] & -> & ->).
    apply safe_swap_inv in Hsafe as (-> & _ & Hin & Hfs).
    split; [| split; [done | tauto]].
    left. rewrite !in_app_iff. tauto.
  - inv_bind H as u fa Hlog. apply log_inv in Hlog as (_ & -> & ->).
    inv_bind H as ex fb Hex. apply path_exists_inv in Hex as (-> & -> & ->).
    destruct (f1 !! fin) as [nfin |] eqn:Hfin; [| done].
    inv_bind H as ex' fc Hex'. apply path_exists_inv in Hex' as (-> & -> & ->).
    inv_bind H as backup fd Hbackup. inv_bind H as d fe Hmove.
    apply ret_inv in H as ([= ->] & -> & ->).
    destruct (f1 !! app) as [napp |] eqn:Happ.
    + inv_bind Hbackup as u' fg Hlog. apply log_inv in Hlog as (_ & -> & ->).
      inv_bind Hbackup as d' fh Hlive.
      apply ret_inv in Hbackup as ([= ->] & -> & ->).
      apply shutil_move_source_gone in Hlive;
        [| intros Heq; symmetry in Heq; by apply backup_path_fresh in Heq].
      apply shutil_move_vacant in Hmove as (_ & -> & n & Hn & ->); [| done].
      split; [| split; [by exists fh, n | auto]].
      right. rewrite !in_app_iff. simpl. tauto.
    + apply ret_inv in Hbackup as ([= ->] & -> & ->).
      apply shutil_move_vacant in Hmove as (_ & -> & n & Hn & ->); [| done].
      split; [| split; [by exists f1, n | auto]].
      right. rewrite !in_app_iff. simpl. tauto.
Qed.
End SwapWithFallback.

(** ** The state file is written only after the swap *)

Lemma emits_weaken {A} (P Q : list event → Prop) (m : M A) :
  (∀ t, P t → Q t) → emits P m → emits Q m.
Proof. intros HPQ Hm f. apply HPQ, Hm. Qed.

Section Guarded.
Variables (E : env) (fin app vf : string).

Let guarded : list event → Prop := write_after_swap fin app vf.

Lemma emits_guarded_quiet {A} (m : M A) : emits quiet m → emits guarded m.
Proof. apply emits_weaken, write_after_swap_quiet. Qed.

Lemma emits_guarded_bind {A B} (m : M A) (k : A → M B) :
  emits quiet m → (∀ a, emits guarded (k a)) → emits guarded (bind m k).
Proof.
  intros Hm Hk f. rewrite bind_trace. specialize (Hm f).
  destruct (m f) as [[[a | e] f1] t1]; simpl in *.
  - apply write_after_swap_app_quiet_l; [done | apply Hk].
  - by apply write_after_swap_quiet.
Qed.

(** The step that puts the staged tree in place, followed by steps that
    replace nothing but the state file. *)
Lemma emits_guarded_after_swap {A B} (m : M A) (k : A → M B) :
  emits quiet m →
  (∀ f a f' t, m f = (Ok a, f', t) → installed fin app t) →
  (∀ a, emits (only_state_replace vf) (k a)) →
  emits guarded (bind m k).
Proof.
  intros Hq Hi Hk f. rewrite bind_trace. specialize (Hq f). specialize (Hi f).
  destruct (m f) as [[[a | e] f1] t1]; simpl in *.
  - apply write_after_swap_installed; [done | by eapply Hi | apply Hk].
  - by apply write_after_swap_quiet.
Qed.

Lemma emits_guarded_try_except {A} (m : M A) catches h :
  emits guarded m → (∀ e, emits quiet (h e)) →
  emits guarded (try_except m catches h).
Proof.
  intros Hm Hh f. unfold try_except. specialize (Hm f).
  destruct (m f) as [[[a | e] f1] t1]; simpl in *; [done |].
  destruct (catches e); [| done]. specialize (Hh e f1).
  destruct (h e f1) as [[r f2] t2]. simpl in *.
  by apply write_after_swap_app_quiet_r.
Qed.

Lemma emits_guarded_try_finally {A} (m : M A) c :
  emits guarded m → emits quiet c → emits guarded (try_finally m c).
Proof.
  intros Hm Hc f. unfold try_finally. specialize (Hm f).
  destruct (m f) as [[r f1] t1]. specialize (Hc f1).
  destruct (c f1) as [[[[] | e] f2] t2]; simpl in *;
    by apply write_after_swap_app_quiet_r.
Qed.
End Guarded.

Section QuietSource.
Variable E : env.

Lemma quiet_http_download url dest : emits quiet (http_download E url dest).
Proof. unfold http_download. emits_auto; auto with quiet. Qed.

Lemma quiet_unzip_to z d : emits quiet (unzip_to E z d).
Proof. unfold unzip_to. emits_auto; auto with quiet. Qed.

Lemma quiet_sha256_file p : emits quiet (sha256_file E p).
Proof. unfold sha256_file. emits_auto; auto with quiet. Qed.

Lemma quiet_verify s a : emits quiet (verify_sha256_from_file E s a).
Proof.
  unfold verify_sha256_from_file. emits_auto; auto using quiet_sha256_file with quiet.
Qed.

Lemma quiet_relaunch cmd : emits quiet (relaunch E cmd).
Proof. unfold relaunch. emits_auto. Qed.

Lemma quiet_read_json p d : emits quiet (read_json E p d).
Proof. unfold read_json. emits_auto. Qed.

Lemma quiet_get_latest_release r i : emits quiet (get_latest_release E r i).
Proof. unfold get_latest_release, http_get_json. emits_auto. Qed.

Lemma quiet_py_get v k d : emits quiet (py_get v k d).
Proof. unfold py_get. emits_auto. Qed.

Lemma quiet_compare_with t v : emits quiet (compare_with t v).
Proof. unfold compare_with. emits_auto. Qed.

Lemma only_state_replace_write_json_atomic vf data :
  emits (only_state_replace vf) (write_json_atomic E vf data).
Proof.
  unfold write_json_atomic. cbv zeta.
  destruct (json_dump_error E data) as [written |].
  { apply (emits_weaken quiet); [apply quiet_only_state_replace |].
    emits_auto; auto with quiet. }
  apply emits_bind; [apply _ | |].
  - apply (emits_weaken quiet); [apply quiet_only_state_replace | auto with quiet].
  - intros _. unfold os_replace. emits_auto.
    intros s d [[= <- <-] | []]. done.
Qed.
End QuietSource.

#[global] Hint Resolve quiet_http_download quiet_unzip_to quiet_sha256_file
  quiet_verify quiet_relaunch quiet_read_json quiet_get_latest_release
  quiet_py_get quiet_compare_with quiet_safe_swap quiet_swap_with_fallback : quiet.

(** A leaf of a proof about [only_state_replace]: the step is quiet. *)
Ltac quiet_leaf :=
  first [ solve [auto with quiet]
        | solve [eapply emits_weaken;
                 [apply quiet_only_state_replace | auto with quiet]] ].

Section StateWrite.
Variables (E : env) (c : config).

Let fin (tmp_dir : string) : string := Path.join tmp_dir "final".

Lemma guarded_install tag vdata asset_name asset_url sha_url tmp_dir :
  emits (write_after_swap (fin tmp_dir) (app_dir c) (version_file c))
    (install E c tag vdata asset_name asset_url sha_url tmp_dir).
Proof.
  unfold install. cbv zeta.
  apply emits_guarded_bind; [emits_auto |]. intros _.
  apply emits_guarded_bind; [auto with quiet |]. intros _.
  apply emits_guarded_bind; [emits_auto; auto with quiet |]. intros _.
  apply emits_guarded_bind; [auto with quiet |]. intros _.
  apply emits_guarded_bind; [emits_auto |]. intros _.
  apply emits_guarded_bind; [auto with quiet |]. intros _.
  apply emits_guarded_bind; [auto with quiet |]. intros items.
  apply emits_guarded_bind; [auto with quiet |]. intros _.
  apply emits_guarded_after_swap; [auto with quiet | |].
  - intros f b f' t H. by apply swap_with_fallback_inv in H as [H _].
  - intros backup_dir.
    apply emits_bind; [apply _ | apply only_state_replace_write_json_atomic |].
    intros _. emits_auto; quiet_leaf.
Qed.

Lemma guarded_resolve_and_install rel tag vdata asset_name :
  emits (write_after_swap (fin (mkdtemp E)) (app_dir c) (version_file c))
    (resolve_and_install E c rel tag vdata asset_name).
Proof.
  unfold resolve_and_install.
  destruct (find_asset rel asset_name) as [asset |];
    [| apply emits_guarded_quiet; emits_auto].
  cbv zeta. destruct (dry_run c); [apply emits_guarded_quiet; emits_auto |].
  intros f. rewrite bind_trace, make_tmp_dir_run.
  destruct (fault E AtMkdtemp); [apply write_after_swap_quiet, quiet_nil |].
  cbn [fst snd].
  apply write_after_swap_app_quiet_l; [apply quiet_one; intros; discriminate |].
  apply emits_guarded_try_finally; [| auto with quiet].
  apply emits_guarded_try_except; [apply guarded_install |].
  intros e. emits_auto.
Qed.

Lemma guarded_run_update :
  emits (write_after_swap (fin (mkdtemp E)) (app_dir c) (version_file c))
    (run_update E c).
Proof.
  unfold run_update. cbv zeta.
  apply emits_guarded_bind; [emits_auto |]. intros asset_name.
  apply emits_guarded_bind; [auto with quiet |]. intros vdata.
  apply emits_guarded_bind; [auto with quiet |]. intros current_version.
  apply emits_guarded_bind; [emits_auto |]. intros _.
  apply emits_guarded_bind; [emits_auto |]. intros _.
  apply emits_guarded_bind; [auto with quiet |]. intros [rel |];
    [| apply emits_guarded_quiet; emits_auto].
  apply emits_guarded_bind; [emits_auto |]. intros _.
  apply emits_guarded_bind; [auto with quiet |]. intros cmp.
  destruct ((cmp <? 0) && negb (allow_downgrade c));
    [apply emits_guarded_quiet; emits_auto |].
  destruct (cmp =? 0); [apply emits_guarded_quiet; emits_auto |].
  apply guarded_resolve_and_install.
Qed.
End StateWrite.

(** C1.  In every run of [run_update], whatever the outcome, a replacement
    of a file in the trace is the replacement of the state file by its
    temporary sibling, and the events before it contain the placement of the
    staged tree at the live application path (the rename of the primary
    swap, or the move of the fallback, onto [app_dir] itself).  A run that
    skips, stops at the dry-run exit, or fails before that placement
    therefore leaves the state file alone. *)
Theorem state_written_only_after_swap (E : env) (c : config)
    (f : gmap string node) (pre post : list event) (src dst : string) :
  (run_update E c f).2 = pre ++ EvReplace src dst :: post →
  src = version_file c +:+ ".tmp" ∧ dst = version_file c
  ∧ installed (Path.join (mkdtemp E) "final") (app_dir c) pre.
Proof. apply (guarded_run_update E c f). Qed.

Lemma state_written_only_after_swap_witness :
  ∃ pre post,
    (run_update Sample.E Sample.cfg Sample.fs_installed).2
    = pre ++ EvReplace "/opt/demo/version.json.tmp" "/opt/demo/version.json" :: post
    ∧ installed "/tmp/upd-k3/final" "/opt/demo/app" pre.
Proof.
  exists (firstn 21 (run_update Sample.E Sample.cfg Sample.fs_installed).2),
         (skipn 22 (run_update Sample.E Sample.cfg Sample.fs_installed).2).
  assert ((run_update Sample.E Sample.cfg Sample.fs_installed).2
          = firstn 21 (run_update Sample.E Sample.cfg Sample.fs_installed).2
            ++ EvReplace "/opt/demo/version.json.tmp" "/opt/demo/version.json"
            :: skipn 22 (run_update Sample.E Sample.cfg Sample.fs_installed).2) as H
    by (vm_compute; reflexivity).
  split; [exact H |].
  exact (proj2 (proj2 (state_written_only_after_swap Sample.E Sample.cfg
                         Sample.fs_installed _ _ _ _ H))).
Defined.


Example latest_release_sample :
  latest_of false [Sample.rel_130_beta; Sample.rel_120; Sample.rel_200_draft]
  = Some Sample.rel_120
  ∧ latest_of true [Sample.rel_130_beta; Sample.rel_120; Sample.rel_200_draft]
    = Some Sample.rel_130_beta.
Proof. split; reflexivity. Qed.

(** ** The evaluation stage of [run_update] *)

Section Evaluating.
Variables (E : env) (c : config) (f : gmap string node).
Variables (asset_name cur : string) (d : list (string * json)).
Variable releases : list release.

Hypothesis format_ok :
  str_format E (asset_pattern c) (app_name c) (norm_os E) (norm_arch E)
  = Ok asset_name.
Hypothesis state_ok : local_state E c f = JObj d.
Hypothesis version_ok : version_field d = JStr cur.
Hypothesis api_ok : api E (releases_url (repo c)) = Ok releases.

(** What [run_update] does up to the end of the evaluation stage. *)
Lemma run_update_eval :
  run_update E c f =
  match latest_of (include_prereleases c) releases with
  | None =>
      (Ok false, f, preamble c asset_name cur ++ [EvLog "No suitable releases found."])
  | Some rel =>
      let cmp := compare_versions (release_tag rel) cur in
      let t0 := preamble c asset_name cur ++ [announce rel] in
      if (cmp <? 0) && negb (allow_downgrade c) then
        (Ok false, f,
         t0 ++ [EvLog "Remote version is older; skipping (use --allow-downgrade to force)."])
      else if cmp =? 0 then (Ok false, f, t0 ++ [EvLog "Already up to date."])
      else prefixed t0 (resolve_and_install E c rel (release_tag rel) (JObj d) asset_name f)
  end.
Proof.
  unfold run_update. cbv zeta.
  rewrite (bind_Ok _ _ f asset_name f []) by (by rewrite format_ok).
  rewrite (bind_Ok _ _ f (load_json E (JObj []) (f !! version_file c)) f [])
    by reflexivity.
  fold (local_state E c f). rewrite state_ok.
  rewrite (bind_Ok _ _ f (JStr cur) f [])
    by (simpl; unfold ret; by rewrite <- version_ok).
  rewrite (bind_Ok _ _ f () f [EvLog ("Current version: " +:+ cur)]) by reflexivity.
  rewrite (bind_Ok _ _ f () f
             [EvLog ("Repo: " +:+ repo c +:+ ", asset pattern -> " +:+ asset_name)])
    by reflexivity.
  rewrite (bind_Ok _ _ f (latest_of (include_prereleases c) releases) f
             [EvHttpGet (releases_url (repo c))]).
  2: { unfold get_latest_release, http_get_json, bind, emit, lift, ret.
       by rewrite api_ok. }
  rewrite !prefixed_prefixed. simpl app.
  destruct (latest_of (include_prereleases c) releases) as [rel |].
  - rewrite (bind_Ok _ _ f () f [announce rel]) by reflexivity.
    rewrite (bind_Ok _ _ f (compare_versions (release_tag rel) cur) f [])
      by reflexivity.
    rewrite !prefixed_prefixed. simpl app. cbv zeta.
    destruct ((compare_versions (release_tag rel) cur <? 0) && negb (allow_downgrade c));
      [reflexivity |].
    destruct (compare_versions (release_tag rel) cur =? 0); reflexivity.
  - reflexivity.
Qed.
End Evaluating.

(** ** Asset resolution and the dry-run exit *)

Lemma no_fetch_check t : existsb is_fetch t = false → no_fetch t.
Proof.
  intros H url dest Hin.
  assert (existsb is_fetch t = true) as Ht; [| congruence].
  apply existsb_exists. by exists (EvFetch url dest).
Qed.

Lemma bind_trace_In_l {A B} (m : M A) (k : A → M B) f ev :
  In ev (m f).2 → In ev (bind m k f).2.
Proof.
  rewrite bind_trace. destruct ((m f).1.1); [| done].
  intros H. apply in_or_app. by left.
Qed.

Lemma bind_trace_In_r {A B} (m : M A) (k : A → M B) f a f1 t1 ev :
  m f = (Ok a, f1, t1) → In ev (k a f1).2 → In ev (bind m k f).2.
Proof.
  intros Hm. rewrite bind_trace, Hm. simpl. intros H. apply in_or_app. by right.
Qed.

Lemma try_except_trace_In {A} (m : M A) catches h f ev :
  In ev (m f).2 → In ev (try_except m catches h f).2.
Proof.
  unfold try_except. destruct (m f) as [[[a | e] f1] t1]; simpl; [done |].
  destruct (catches e); [| done]. destruct (h e f1) as [[r f2] t2]. simpl.
  intros H. apply in_or_app. by left.
Qed.

Lemma try_finally_trace_In {A} (m : M A) cl f ev :
  In ev (m f).2 → In ev (try_finally m cl f).2.
Proof.
  unfold try_finally. destruct (m f) as [[r f1] t1]. simpl.
  destruct (cl f1) as [[[[] | e] f2] t2]; simpl; intros H; apply in_or_app; by left.
Qed.

Section Resolve.
Variables (E : env) (c : config) (rel : release) (tag : string) (vdata : json).
Variables (asset_name : string) (f : gmap string node).

Lemma resolve_missing_asset :
  find_asset rel asset_name = None →
  resolve_and_install E c rel tag vdata asset_name f
  = (Raise (FileNotFoundError
              ("Asset '" +:+ asset_name +:+ "' not found in release assets: "
               +:+ Str.join ", " (map name (assets rel)))), f, []).
Proof. intros H. unfold resolve_and_install. by rewrite H. Qed.

Lemma resolve_dry_run a :
  find_asset rel asset_name = Some a → dry_run c = true →
  ∃ t, resolve_and_install E c rel tag vdata asset_name f = (Ok false, f, t)
       ∧ no_fetch t.
Proof.
  intros Ha Hdry. unfold resolve_and_install. rewrite Ha, Hdry. cbv zeta.
  destruct (find_asset rel (asset_name +:+ ".sha256")) as [s |];
    [destruct (Str.truthy (browser_download_url s)) |];
    (eexists; split; [reflexivity | by apply no_fetch_check]).
Qed.

Lemma resolve_no_tmp_dir a :
  find_asset rel asset_name = Some a → dry_run c = false →
  fault E AtMkdtemp = true →
  resolve_and_install E c rel tag vdata asset_name f
  = (Raise (OSError "No usable temporary directory"), f, []).
Proof.
  intros Ha Hdry Hno. unfold resolve_and_install. rewrite Ha, Hdry. cbv zeta.
  unfold bind at 1. by rewrite make_tmp_dir_run, Hno.
Qed.

Lemma resolve_fetches a :
  find_asset rel asset_name = Some a → dry_run c = false →
  fault E AtMkdtemp = false →
  In (EvFetch (browser_download_url a) (Path.join (mkdtemp E) asset_name))
     (resolve_and_install E c rel tag vdata asset_name f).2.
Proof.
  intros Ha Hdry Htmp. unfold resolve_and_install. rewrite Ha, Hdry. cbv zeta.
  eapply bind_trace_In_r; [by rewrite make_tmp_dir_run, Htmp |].
  apply try_finally_trace_In, try_except_trace_In.
  unfold install. cbv zeta.
  eapply bind_trace_In_r; [reflexivity |].
  apply bind_trace_In_l. unfold http_download.
  apply bind_trace_In_l. by left.
Qed.
End Resolve.

(** C4 as stated fails: with the dry-run flag set, a newer release whose
    asset is present makes the run return a not-installed outcome without
    any download, although none of the three skip conditions holds. *)
Lemma dry_run_returns_without_download :
  latest_of (include_prereleases Sample.cfg_dry)
    [Sample.rel_130_beta; Sample.rel_120; Sample.rel_200_draft]
  = Some Sample.rel_120
  ∧ compare_versions (release_tag Sample.rel_120) "1.0.0" = 1
  ∧ evaluation_skips Sample.cfg_dry "1.0.0" (Some Sample.rel_120) = false
  ∧ (run_update Sample.E Sample.cfg_dry Sample.fs_installed).1.1 = Ok false
  ∧ existsb is_fetch (run_update Sample.E Sample.cfg_dry Sample.fs_installed).2
    = false.
Proof. repeat split; vm_compute; reflexivity. Qed.

(** C4, amended.  With the state file read as a record whose version is the
    string [cur] and the release list fetched: [run_update] returns a
    not-installed outcome at the evaluation stage, before asset resolution,
    with the file system untouched and nothing downloaded, when no candidate
    release is found, or the candidate compares equal to the local version
    (whatever allow-downgrade says), or it compares older and
    allow-downgrade is not set; in every other case it goes on to asset
    resolution, and from there it requests the download of the asset unless
    the asset is missing (a not-found error is raised), or the dry-run flag
    is set (a not-installed outcome, nothing downloaded), or the temporary
    directory cannot be created (the [OSError] of [tempfile.mkdtemp], raised
    on line 253 outside the [try], leaves [run_update] with the file system
    untouched and nothing downloaded). *)
Theorem run_update_skip_or_proceed (E : env) (c : config) (f : gmap string node)
    (asset_name cur : string) (d : list (string * json)) (releases : list release) :
  str_format E (asset_pattern c) (app_name c) (norm_os E) (norm_arch E)
    = Ok asset_name →
  local_state E c f = JObj d →
  version_field d = JStr cur →
  api E (releases_url (repo c)) = Ok releases →
  let latest := latest_of (include_prereleases c) releases in
  (evaluation_skips c cur latest = true →
     ∃ t, run_update E c f = (Ok false, f, t) ∧ no_fetch t)
  ∧ (evaluation_skips c cur latest = false →
     ∃ rel t0,
       latest = Some rel ∧ no_fetch t0
       ∧ run_update E c f
         = prefixed t0
             (resolve_and_install E c rel (release_tag rel) (JObj d) asset_name f)
       ∧ (find_asset rel asset_name = None →
          ∃ msg, resolve_and_install E c rel (release_tag rel) (JObj d) asset_name f
                 = (Raise (FileNotFoundError msg), f, []))
       ∧ (∀ a, find_asset rel asset_name = Some a → dry_run c = true →
          ∃ t, resolve_and_install E c rel (release_tag rel) (JObj d) asset_name f
               = (Ok false, f, t) ∧ no_fetch t)
       ∧ (∀ a, find_asset rel asset_name = Some a → dry_run c = false →
          fault E AtMkdtemp = true →
          ∃ msg, run_update E c f = (Raise (OSError msg), f, t0) ∧ no_fetch t0)
       ∧ (∀ a, find_asset rel asset_name = Some a → dry_run c = false →
          fault E AtMkdtemp = false →
          In (EvFetch (browser_download_url a) (Path.join (mkdtemp E) asset_name))
             (run_update E c f).2)).
Proof.
  intros Hfmt Hstate Hver Hapi latest.
  pose proof (run_update_eval E c f asset_name cur d releases Hfmt Hstate Hver Hapi)
    as Heval.
  fold latest in Heval. unfold evaluation_skips.
  destruct latest as [rel |]; cbv zeta in *.
  - split; intros Hs.
    + destruct ((compare_versions (release_tag rel) cur <? 0)
                && negb (allow_downgrade c)).
      * eexists; split; [exact Heval | by apply no_fetch_check].
      * rewrite orb_false_r in Hs. rewrite Hs in Heval.
        eexists; split; [exact Heval | by apply no_fetch_check].
    + apply orb_false_elim in Hs as [Hz Hlt]. rewrite Hlt, Hz in Heval.
      exists rel, (preamble c asset_name cur ++ [announce rel]).
      split; [reflexivity |]. split; [by apply no_fetch_check |].
      split; [exact Heval |]. split; [| split; [| split]].
      * intros Hnone. eexists. by apply resolve_missing_asset.
      * intros a Ha Hdry. by eapply resolve_dry_run.
      * intros a Ha Hdry Hno. eexists. split; [| by apply no_fetch_check].
        rewrite Heval, (resolve_no_tmp_dir E c rel _ _ asset_name f a Ha Hdry Hno).
        unfold prefixed. simpl. reflexivity.
      * intros a Ha Hdry Htmp. rewrite Heval, prefixed_trace.
        apply in_or_app. right. by eapply resolve_fetches.
  - split; [| discriminate]. intros _.
    eexists; split; [exact Heval | by apply no_fetch_check].
Qed.

Lemma run_update_skip_or_proceed_witness :
  In (EvFetch "https://dl/demo.zip" "/tmp/upd-k3/demo-linux-x64.zip")
     (run_update Sample.E Sample.cfg Sample.fs_installed).2.
Proof.
  destruct (proj2 (run_update_skip_or_proceed Sample.E Sample.cfg Sample.fs_installed
                     "demo-linux-x64.zip" "1.0.0"
                     [("channel", JStr "stable"); ("version", JStr "1.0.0")]
                     [Sample.rel_130_beta; Sample.rel_120; Sample.rel_200_draft]
                     eq_refl eq_refl eq_refl eq_refl) eq_refl)
    as (rel & t0 & Hlatest & _ & _ & _ & _ & _ & Hfetch).
  injection Hlatest as <-.
  exact (Hfetch Sample.zip_asset eq_refl eq_refl eq_refl).
Defined.

(** C5 as stated fails: when the chosen release is the installed version,
    the run stops at the evaluation stage and returns a not-installed
    outcome without any error, although the platform asset is absent from
    the release. *)
Lemma missing_asset_unnoticed_when_up_to_date :
  latest_of (include_prereleases Sample.cfg) [Sample.rel_100_bare]
  = Some Sample.rel_100_bare
  ∧ find_asset Sample.rel_100_bare "demo-linux-x64.zip" = None
  ∧ (run_update Sample.E_up_to_date Sample.cfg Sample.fs_installed).1.1 = Ok false
  ∧ last (run_update Sample.E_up_to_date Sample.cfg Sample.fs_installed).2
    = Some (EvLog "Already up to date.").
Proof. repeat split; vm_compute; reflexivity. Qed.

(** C5, amended.  With the state file read as a record whose version is the
    string [cur], the release list fetched and [rel] the chosen release:
    when [rel] passes the evaluation stage (it is newer than the local
    version, or older with allow-downgrade set) and the expected platform
    asset name is absent from its asset list, [run_update] raises a
    not-found error whose message names the attempted asset and lists the
    names of the release's assets; the error is not caught inside
    [run_update], so the process ends with a non-zero status (nothing
    installed); nothing was downloaded and the file system is untouched.
    When [rel] does not pass the evaluation stage, the run returns a
    not-installed outcome without any error, nothing downloaded and the
    file system untouched, whether or not the asset is present. *)
Theorem missing_asset_raises_not_found (E : env) (c : config) (f : gmap string node)
    (asset_name cur : string) (d : list (string * json)) (releases : list release)
    (rel : release) :
  str_format E (asset_pattern c) (app_name c) (norm_os E) (norm_arch E)
    = Ok asset_name →
  local_state E c f = JObj d →
  version_field d = JStr cur →
  api E (releases_url (repo c)) = Ok releases →
  latest_of (include_prereleases c) releases = Some rel →
  (evaluation_skips c cur (Some rel) = false →
   find_asset rel asset_name = None →
   ∃ t,
     run_update E c f
     = (Raise (FileNotFoundError
                 ("Asset '" +:+ asset_name +:+ "' not found in release assets: "
                  +:+ Str.join ", " (map name (assets rel)))), f, t)
     ∧ no_fetch t
     ∧ exit_status (run_update E c f).1.1 = 1)
  ∧ (evaluation_skips c cur (Some rel) = true →
     ∀ found, find_asset rel asset_name = found →
     ∃ t,
       run_update E c f = (Ok false, f, t)
       ∧ no_fetch t
       ∧ ∀ e, ¬ In (EvLogError e) t).
Proof.
  intros Hfmt Hstate Hver Hapi Hlatest.
  pose proof (run_update_eval E c f asset_name cur d releases Hfmt Hstate Hver Hapi)
    as Heval.
  rewrite Hlatest in Heval. cbv zeta in Heval.
  unfold evaluation_skips. cbv zeta. split.
  - intros Hskip Hnone.
    apply orb_false_elim in Hskip as [Hz Hlt]. rewrite Hlt, Hz in Heval.
    rewrite resolve_missing_asset in Heval by done.
    exists (preamble c asset_name cur ++ [announce rel]).
    split; [| split].
    + rewrite Heval. unfold prefixed. simpl. reflexivity.
    + by apply no_fetch_check.
    + by rewrite Heval.
  - intros Hskip found _.
    destruct ((compare_versions (release_tag rel) cur <? 0)
              && negb (allow_downgrade c)).
    + eexists. split; [exact Heval |]. split; [by apply no_fetch_check |].
      intros e. simpl. intuition discriminate.
    + rewrite orb_false_r in Hskip. rewrite Hskip in Heval.
      eexists. split; [exact Heval |]. split; [by apply no_fetch_check |].
      intros e. simpl. intuition discriminate.
Qed.

Lemma missing_asset_raises_not_found_witness :
  (run_update (Sample.env_with [Sample.rel_100_bare] "" (λ _, false))
     Sample.cfg Sample.fs_no_state).1.1
  = Raise (FileNotFoundError
             "Asset 'demo-linux-x64.zip' not found in release assets: notes.txt").
Proof.
  destruct (missing_asset_raises_not_found
              (Sample.env_with [Sample.rel_100_bare] "" (λ _, false))
              Sample.cfg Sample.fs_no_state "demo-linux-x64.zip" "0.0.0" []
              [Sample.rel_100_bare] Sample.rel_100_bare
              eq_refl eq_refl eq_refl eq_refl eq_refl)
    as [Hraise _].
  destruct (Hraise eq_refl eq_refl) as (t & Hrun & _ & _).
  rewrite Hrun. reflexivity.
Defined.

(** ** A state file without a version *)

Lemma no_local_version_state E c f :
  no_local_version E f (version_file c) →
  ∃ d, local_state E c f = JObj d ∧ version_field d = JStr "0.0.0".
Proof.
  unfold local_state. cbv zeta.
  intros [H | es H | s H Hparse | d H Hget | H].
  - exists []. by rewrite H.
  - exists []. by rewrite H.
  - exists []. rewrite H. simpl. by rewrite Hparse.
  - rewrite H. destruct d as [|kv d].
    + by exists [].
    + exists (kv :: d). split; [done |]. unfold version_field. by rewrite Hget.
  - exists []. by rewrite H.
Qed.

Lemma run_update_non_record E c f asset_name :
  str_format E (asset_pattern c) (app_name c) (norm_os E) (norm_arch E)
    = Ok asset_name →
  json_truthy (load_json E (JObj []) (f !! version_file c)) = true →
  (∀ d, load_json E (JObj []) (f !! version_file c) ≠ JObj d) →
  run_update E c f = (Raise (AttributeError "get"), f, []).
Proof.
  intros Hfmt Htrue Hnd. unfold run_update. cbv zeta.
  rewrite (bind_Ok _ _ f asset_name f []) by (by rewrite Hfmt).
  rewrite (bind_Ok _ _ f (load_json E (JObj []) (f !! version_file c)) f [])
    by reflexivity.
  rewrite Htrue. unfold prefixed. simpl.
  destruct (load_json E (JObj []) (f !! version_file c)); try reflexivity.
  by destruct (Hnd fields).
Qed.

Lemma compare_versions_newer a b :
  version_ltb (parse_semver b) (parse_semver a) = true → compare_versions a b = 1.
Proof.
  intros H. unfold compare_versions, version_gtb. cbv zeta.
  by rewrite H, (version_ltb_asym _ _ H).
Qed.

(** C10 as stated fails: a state file that holds a JSON list has no
    version field, yet the run does not take "0.0.0" as the current
    version; it fails with an [AttributeError] at the lookup of the
    version, before it prints or requests anything. *)
Lemma list_state_is_not_version_zero :
  load_json Sample.E (JObj []) (fs_list_state !! version_file Sample.cfg)
  = JArr [JStr "1.0.0"]
  ∧ run_update Sample.E Sample.cfg fs_list_state
    = (Raise (AttributeError "get"), fs_list_state, [])
  ∧ head (run_update Sample.E Sample.cfg fs_list_state).2 = None.
Proof. repeat split; vm_compute; reflexivity. Qed.

(** C10, amended.  When the state file is missing, cannot be read as JSON,
    holds a record without a [version] field, or holds a value that counts
    as false ([null], [false], [0], an empty string, list or record),
    [run_update] takes "0.0.0" as the current version: it prints it, a
    chosen release whose tag parses strictly greater than 0.0.0 passes the
    evaluation stage and goes on to asset resolution, and a release tagged
    exactly "0.0.0" is skipped as already up to date.  When the state file
    holds any other value that is not a record (a non-empty string or
    list, a non-zero number, [true]), [run_update] fails with an
    [AttributeError] at the lookup of the version, before anything is
    printed or requested and with the file system untouched. *)
Theorem missing_state_is_version_zero (E : env) (c : config) (f : gmap string node)
    (asset_name : string) (releases : list release) (rel : release) :
  str_format E (asset_pattern c) (app_name c) (norm_os E) (norm_arch E)
    = Ok asset_name →
  api E (releases_url (repo c)) = Ok releases →
  latest_of (include_prereleases c) releases = Some rel →
  (no_local_version E f (version_file c) →
   ∃ d,
     local_state E c f = JObj d
     ∧ version_field d = JStr "0.0.0"
     ∧ head (run_update E c f).2 = Some (EvLog "Current version: 0.0.0")
     ∧ (version_ltb (0, 0, 0) (parse_semver (release_tag rel)) = true →
        run_update E c f
        = prefixed (preamble c asset_name "0.0.0" ++ [announce rel])
            (resolve_and_install E c rel (release_tag rel) (JObj d) asset_name f))
     ∧ (tag_name rel = Some "0.0.0" →
        run_update E c f
        = (Ok false, f,
           preamble c asset_name "0.0.0"
           ++ [announce rel; EvLog "Already up to date."])))
  ∧ (json_truthy (load_json E (JObj []) (f !! version_file c)) = true →
     (∀ d, load_json E (JObj []) (f !! version_file c) ≠ JObj d) →
     run_update E c f = (Raise (AttributeError "get"), f, [])).
Proof.
  intros Hfmt Hapi Hlatest.
  split; [| by apply (run_update_non_record E c f asset_name)].
  intros Hstate.
  destruct (no_local_version_state E c f Hstate) as (d & Hd & Hver).
  exists d. split; [done |]. split; [done |].
  pose proof (run_update_eval E c f asset_name "0.0.0" d releases Hfmt Hd Hver Hapi)
    as Heval.
  rewrite Hlatest in Heval. cbv zeta in Heval.
  split; [| split].
  - rewrite Heval.
    destruct ((compare_versions (release_tag rel) "0.0.0" <? 0)
              && negb (allow_downgrade c)); [reflexivity |].
    destruct (compare_versions (release_tag rel) "0.0.0" =? 0); reflexivity.
  - intros Hgt. rewrite Heval.
    rewrite (compare_versions_newer (release_tag rel) "0.0.0") by exact Hgt.
    reflexivity.
  - intros Htag. rewrite Heval.
    assert (release_tag rel = "0.0.0") as -> by (unfold release_tag; by rewrite Htag).
    rewrite compare_versions_self.
    simpl. reflexivity.
Qed.

Lemma missing_state_is_version_zero_witness :
  head (run_update Sample.E Sample.cfg Sample.fs_no_state).2
  = Some (EvLog "Current version: 0.0.0")
  ∧ In (EvFetch "https://dl/demo.zip" "/tmp/upd-k3/demo-linux-x64.zip")
       (run_update Sample.E Sample.cfg Sample.fs_no_state).2.
Proof.
  destruct (missing_state_is_version_zero Sample.E Sample.cfg Sample.fs_no_state
              "demo-linux-x64.zip"
              [Sample.rel_130_beta; Sample.rel_120; Sample.rel_200_draft]
              Sample.rel_120 eq_refl eq_refl eq_refl)
    as [Hzero _].
  destruct (Hzero (state_missing Sample.E Sample.fs_no_state
                     "/opt/demo/version.json" eq_refl))
    as (d & _ & _ & Hhead & Hnewer & _).
  split; [exact Hhead |].
  rewrite (Hnewer eq_refl), prefixed_trace.
  apply in_or_app. right.
  exact (resolve_fetches Sample.E Sample.cfg Sample.rel_120
           (release_tag Sample.rel_120) (JObj d) "demo-linux-x64.zip"
           Sample.fs_no_state Sample.zip_asset eq_refl eq_refl eq_refl).
Defined.

(** ** Rollback *)

Lemma lookup_rmtree root (f : gmap string node) p :
  filter (λ kv, is_under root kv.1 = false) f !! p
  = if is_under root p then None else f !! p.
Proof.
  rewrite map_lookup_filter. destruct (f !! p) as [n |]; simpl.
  - destruct (is_under root p) eqn:Hu.
    + rewrite option_guard_False; [done |]. simpl. congruence.
    + by rewrite option_guard_True.
  - by destruct (is_under root p).
Qed.

Lemma is_under_refl root : is_under root root = true.
Proof. unfold is_under. by rewrite String.eqb_refl. Qed.

Lemma rmtree_ignore_run E a p f :
  rmtree_ignore E a p f =
  match f !! p with
  | Some (Dir _) =>
      if fault E a then (Ok (), f, [])
      else (Ok (), filter (λ kv, is_under p kv.1 = false) f, [EvRmtree p])
  | _ => (Ok (), f, [])
  end.
Proof.
  unfold rmtree_ignore, bind, get_fs, put_fs, emit, ret. simpl.
  destruct (f !! p) as [[c | es] |]; try done. by destruct (fault E a).
Qed.

Lemma rmtree_ignore_refused E a p f :
  fault E a = true → rmtree_ignore E a p f = (Ok (), f, []).
Proof. intros H. rewrite rmtree_ignore_run, H. by destruct (f !! p) as [[c | es] |]. Qed.

Lemma rmtree_ignore_removed E a p f es :
  fault E a = false → f !! p = Some (Dir es) →
  rmtree_ignore E a p f
  = (Ok (), filter (λ kv, is_under p kv.1 = false) f, [EvRmtree p]).
Proof. intros H Hp. by rewrite rmtree_ignore_run, Hp, H. Qed.

(** What is not a directory stays. *)
Lemma rmtree_ignore_kept E a p f :
  (∀ es, f !! p ≠ Some (Dir es)) → rmtree_ignore E a p f = (Ok (), f, []).
Proof.
  intros H. rewrite rmtree_ignore_run.
  destruct (f !! p) as [[c | es] |] eqn:Hp; try done. by destruct (H es).
Qed.

Lemma path_exists_run p f :
  path_exists p f = (Ok (match f !! p with Some _ => true | None => false end), f, []).
Proof. reflexivity. Qed.

(** C2 as stated fails: without a backup directory, the rollback still
    deletes the live application directory. *)
Lemma rollback_without_backup_deletes_app :
  Sample.fs_installed !! "/opt/demo/app.backup-1700000000" = None
  ∧ Sample.fs_installed !! "/opt/demo/app" = Some (Dir Sample.old_tree)
  ∧ (rollback_from_backup Sample.E "/opt/demo/app.backup-1700000000" "/opt/demo/app"
       Sample.fs_installed).1.2 !! "/opt/demo/app" = None.
Proof. repeat split; vm_compute; reflexivity. Qed.

(** With no backup, a rollback that removes nothing changes nothing. *)
Lemma rollback_idle E backup_dir app_dir (f : gmap string node) :
  f !! backup_dir = None →
  fault E AtRollbackRmtree = true ∨ (∀ es, f !! app_dir ≠ Some (Dir es)) →
  rollback_from_backup E backup_dir app_dir f = (Ok (), f, []).
Proof.
  intros Hb Hidle. unfold rollback_from_backup.
  rewrite (bind_Ok _ _ f _ f [] (path_exists_run app_dir f)).
  assert (when (match f !! app_dir with Some _ => true | None => false end)
            (rmtree_ignore E AtRollbackRmtree app_dir) f = (Ok (), f, [])) as Hrm.
  { destruct (f !! app_dir) as [n |] eqn:Happ; [| done]. unfold when.
    destruct Hidle as [Hf | Hk]; [by apply rmtree_ignore_refused |].
    apply rmtree_ignore_kept. intros es. rewrite Happ. intros [= ->].
    by destruct (Hk es). }
  rewrite (bind_Ok _ _ f () f [] Hrm).
  rewrite (bind_Ok _ _ f _ f [] (path_exists_run backup_dir f)), Hb.
  reflexivity.
Qed.

(** C2, amended.  For [app_dir] and [backup_dir] given as absolute
    normalised paths ([app_dir] not the root): when [backup_dir] does not
    exist, the rollback returns normally and renames nothing; [backup_dir]
    stays absent and every path outside the tree of [app_dir] is unchanged.
    It is a no-op only when [app_dir] is absent or is not a directory (a
    regular file is left in place, the error of [shutil.rmtree] being
    ignored); a directory at [app_dir] is deleted with everything in it
    (unless the operating system refuses the removal, which is ignored).
    The call is idempotent: a second call changes nothing more. *)
Theorem rollback_without_backup (E : env) (backup_dir app_dir : string)
    (f : gmap string node) :
  Path.plain app_dir = true →
  Path.canonical backup_dir = true →
  f !! backup_dir = None →
  ∃ f' t,
    rollback_from_backup E backup_dir app_dir f = (Ok (), f', t)
    ∧ f' !! backup_dir = None
    ∧ (∀ src dst, ¬ In (EvRename src dst) t)
    ∧ (∀ p, Path.canonical p = true → is_under app_dir p = false →
            f' !! p = f !! p)
    ∧ (∀ es, f !! app_dir = Some (Dir es) → fault E AtRollbackRmtree = false →
             ∀ p, is_under app_dir p = true → f' !! p = None)
    ∧ ((∀ es, f !! app_dir ≠ Some (Dir es)) → f' = f ∧ t = [])
    ∧ rollback_from_backup E backup_dir app_dir f' = (Ok (), f', []).
Proof.
  intros _ _ Hb.
  destruct (f !! app_dir) as [[c | es] |] eqn:Happ.
  - (* a regular file: left in place *)
    assert (∀ es, f !! app_dir ≠ Some (Dir es)) as Hk by (by rewrite Happ).
    exists f, []. rewrite (rollback_idle E _ _ f Hb (or_intror Hk)).
    repeat split; try done; intros; try done; try congruence; by intros [].
  - destruct (fault E AtRollbackRmtree) eqn:Hfault.
    + (* the removal is refused and ignored *)
      exists f, []. rewrite (rollback_idle E _ _ f Hb (or_introl Hfault)).
      repeat split; try done; intros; try done; try congruence; by intros [].
    + set (f' := filter (λ kv, is_under app_dir kv.1 = false) f).
      assert (f' !! backup_dir = None) as Hb'.
      { unfold f'. rewrite lookup_rmtree, Hb. by destruct (is_under _ _). }
      assert (f' !! app_dir = None) as Happ'.
      { unfold f'. by rewrite lookup_rmtree, is_under_refl. }
      exists f', [EvRmtree app_dir]. split.
      { unfold rollback_from_backup.
        rewrite (bind_Ok _ _ f _ f [] (path_exists_run app_dir f)), Happ.
        unfold when at 1.
        rewrite (bind_Ok _ _ f () _ _ (rmtree_ignore_removed E _ _ f es Hfault Happ)).
        fold f'.
        rewrite (bind_Ok _ _ f' _ f' [] (path_exists_run backup_dir f')), Hb'.
        reflexivity. }
      split; [done |]. split.
      { intros src dst [[=] | []]. }
      split.
      { intros p _ Hp. unfold f'. by rewrite lookup_rmtree, Hp. }
      split.
      { intros es' _ _ p Hp. unfold f'. by rewrite lookup_rmtree, Hp. }
      split.
      { intros Hk. by destruct (Hk es). }
      apply rollback_idle; [done |]. right. intros es'. by rewrite Happ'.
  - assert (∀ es, f !! app_dir ≠ Some (Dir es)) as Hk by (by rewrite Happ).
    exists f, []. rewrite (rollback_idle E _ _ f Hb (or_intror Hk)).
    repeat split; try done; intros; try done; try congruence; by intros [].
Qed.

Lemma rollback_without_backup_witness :
  ∃ f', (rollback_from_backup Sample.E "/opt/demo/app.backup-1700000000"
           "/opt/demo/app" Sample.fs_installed).1.2 = f'
        ∧ f' !! "/opt/demo/app" = None
        ∧ f' !! "/opt/demo/version.json" = Sample.fs_installed !! "/opt/demo/version.json".
Proof.
  destruct (rollback_without_backup Sample.E "/opt/demo/app.backup-1700000000"
              "/opt/demo/app" Sample.fs_installed eq_refl eq_refl eq_refl)
    as (f' & t & Hrun & _ & _ & Hframe & Hgone & _ & _).
  exists f'. rewrite Hrun. split; [reflexivity |].
  split; [exact (Hgone Sample.old_tree eq_refl eq_refl "/opt/demo/app" eq_refl)
         | exact (Hframe "/opt/demo/version.json" eq_refl eq_refl)].
Defined.

(** ** The state file after a successful update *)

Lemma dict_get_set_eq k v d : dict_get k (dict_set k v d) = Some v.
Proof.
  induction d as [|[k' v'] d IH]; simpl.
  - by rewrite String.eqb_refl.
  - destruct (String.eqb k' k) eqn:Hk; simpl.
    + by rewrite String.eqb_refl.
    + by rewrite Hk.
Qed.

Lemma dict_get_set_ne k k0 v d : k0 ≠ k → dict_get k0 (dict_set k v d) = dict_get k0 d.
Proof.
  intros Hne. induction d as [|[k' v'] d IH]; simpl.
  - assert (String.eqb k k0 = false) as -> by (apply String.eqb_neq; congruence).
    done.
  - destruct (String.eqb k' k) eqn:Hk; simpl.
    + apply String.eqb_eq in Hk as ->.
      assert (String.eqb k k0 = false) as -> by (apply String.eqb_neq; congruence).
      done.
    + by rewrite IH.
Qed.

(** The fields keep their order; a [version] field keeps its position. *)
Lemma dict_set_keys k v d :
  dict_get k d ≠ None → map fst (dict_set k v d) = map fst d.
Proof.
  induction d as [|[k' v'] d IH]; simpl; [done |].
  destruct (String.eqb k' k) eqn:Hk; simpl.
  - apply String.eqb_eq in Hk. by subst.
  - intros H. by rewrite IH.
Qed.

Section Persisting.
Variable E : env.

Lemma lift_inv {A} (r : outcome A) f a f' t :
  lift r f = (Ok a, f', t) → r = Ok a ∧ f' = f ∧ t = [].
Proof. destruct r; unfold lift, ret, raise; by intros [= <- <- <-]. Qed.

Lemma read_json_inv p dflt f j f' t :
  read_json E p dflt f = (Ok j, f', t) →
  j = load_json E dflt (f !! p) ∧ f' = f ∧ t = [].
Proof. unfold read_json, bind, get_fs, ret. simpl. by intros [= <- <- <-]. Qed.

Lemma get_latest_release_inv r i f res f' t :
  get_latest_release E r i f = (Ok res, f', t) →
  ∃ releases, api E (releases_url r) = Ok releases
              ∧ res = latest_of i releases ∧ f' = f.
Proof.
  unfold get_latest_release, http_get_json, bind, emit, lift, ret, raise. simpl.
  destruct (api E (releases_url r)) as [releases | e]; simpl; [| done].
  intros [= <- <- <-]. by exists releases.
Qed.

Lemma write_file_inv a p c f u f' t :
  write_file E a p c f = (Ok u, f', t) → f' = <[p := File c]> f.
Proof.
  unfold write_file, bind, get_fs, put_fs, emit, raise. simpl.
  destruct (match a with Some a0 => fault E a0 | None => false end); [done |].
  destruct (f !! p) as [[? | ?] |]; simpl; try done; by intros [= <- <- <-].
Qed.

Lemma write_json_atomic_inv p data f u f' t :
  write_json_atomic E p data f = (Ok u, f', t) →
  f' !! p = Some (File (Json data)).
Proof.
  unfold write_json_atomic. cbv zeta. intros H.
  destruct (json_dump_error E data) as [written |].
  { inv_bind H as u1 f1 Hw. done. }
  inv_bind H as u1 f1 Hw. apply write_file_inv in Hw as ->.
  apply os_replace_inv in H as (_ & n & Hn & ->).
  rewrite lookup_insert_eq in Hn. injection Hn as <-.
  by rewrite lookup_insert_eq.
Qed.

Lemma relaunch_inv cmd f r f' t : relaunch E cmd f = (r, f', t) → f' = f.
Proof.
  unfold relaunch, raise, emit. destruct (fault E AtSpawn); by intros [= <- <- <-].
Qed.

Lemma rmtree_ignore_frame a root f p :
  is_under root p = false →
  (rmtree_ignore E a root f).1.2 !! p = f !! p.
Proof.
  intros Hp. rewrite rmtree_ignore_run.
  destruct (f !! root) as [[c | es] |]; try done.
  destruct (fault E a); simpl; [done |].
  by rewrite lookup_rmtree, Hp.
Qed.

Lemma rmtree_ignore_inv a root f u f' t p :
  rmtree_ignore E a root f = (Ok u, f', t) →
  is_under root p = false → f' !! p = f !! p.
Proof.
  intros H Hp. rewrite <- (rmtree_ignore_frame a root f p Hp). by rewrite H.
Qed.
End Persisting.

Section SuccessfulInstall.
Variables (E : env) (c : config).

Lemma install_Ok_state tag vdata asset_name asset_url sha_url tmp_dir f f' t :
  state_outside_backups E c →
  install E c tag vdata asset_name asset_url sha_url tmp_dir f = (Ok true, f', t) →
  f' !! version_file c
  = Some (File (Json (with_version vdata (Str.lstrip_char "v" tag)))).
Proof.
  intros Hout H. unfold install in H. cbv zeta in H.
  inv_bind H as u1 f1 H1. inv_bind H as u2 f2 H2. inv_bind H as u3 f3 H3.
  inv_bind H as u4 f4 H4. inv_bind H as u5 f5 H5. inv_bind H as u6 f6 H6.
  inv_bind H as items f7 H7. inv_bind H as u8 f8 H8.
  inv_bind H as backup f9 Hswap.
  inv_bind H as u10 f10 Hwrite.
  inv_bind H as u11 f11 Hlog. apply log_inv in Hlog as (_ & -> & ->).
  inv_bind H as u12 f12 Hclean.
  inv_bind H as u13 f13 Hrestart.
  apply ret_inv in H as (_ & -> & ->).
  apply write_json_atomic_inv in Hwrite.
  apply swap_with_fallback_inv in Hswap as (_ & _ & Hbackup).
  assert (f12 !! version_file c = f10 !! version_file c) as Hframe1.
  { destruct Hbackup as [-> | [-> | ->]].
    - by apply ret_inv in Hclean as (_ & -> & _).
    - inv_bind Hclean as ex fx Hex. apply path_exists_inv in Hex as (-> & -> & ->).
      destruct (f10 !! backup_path _ _ _); unfold when in Hclean.
      + eapply rmtree_ignore_inv; [exact Hclean | apply (proj1 Hout)].
      + by apply ret_inv in Hclean as (_ & -> & _).
    - inv_bind Hclean as ex fx Hex. apply path_exists_inv in Hex as (-> & -> & ->).
      destruct (f10 !! backup_path _ _ _); unfold when in Hclean.
      + eapply rmtree_ignore_inv; [exact Hclean | apply (proj2 Hout)].
      + by apply ret_inv in Hclean as (_ & -> & _). }
  assert (f13 = f12) as ->.
  { destruct (restart_cmd c) as [cmd |].
    - destruct (Str.truthy cmd); simpl in Hrestart.
      + inv_bind Hrestart as ul fl Hl. apply log_inv in Hl as (_ & -> & ->).
        by apply relaunch_inv in Hrestart.
      + by apply ret_inv in Hrestart as (_ & -> & _).
    - by apply ret_inv in Hrestart as (_ & -> & _). }
  by rewrite Hframe1.
Qed.
End SuccessfulInstall.

Lemma try_finally_inv_Ok {A} (m : M A) cl f b f' t :
  try_finally m cl f = (Ok b, f', t) →
  ∃ f1 t1 u t2, m f = (Ok b, f1, t1) ∧ cl f1 = (Ok u, f', t2) ∧ t = t1 ++ t2.
Proof.
  unfold try_finally. destruct (m f) as [[r f1] t1].
  destruct (cl f1) as [[[u | e] f2] t2] eqn:Hcl; [| done].
  intros [= -> <- <-]. by exists f1, t1, u, t2.
Qed.

Section SuccessfulRun.
Variables (E : env) (c : config).
Hypothesis state_outside_tmp : is_under (mkdtemp E) (version_file c) = false.
Hypothesis outside_backups : state_outside_backups E c.

Lemma resolve_Ok_state rel tag vdata asset_name f f' t :
  resolve_and_install E c rel tag vdata asset_name f = (Ok true, f', t) →
  f' !! version_file c
  = Some (File (Json (with_version vdata (Str.lstrip_char "v" tag)))).
Proof.
  unfold resolve_and_install. destruct (find_asset rel asset_name) as [a |]; [| done].
  cbv zeta. destruct (dry_run c).
  - intros H. inv_bind H as u1 f1 H1. inv_bind H as u2 f2 H2.
    by apply ret_inv in H as ([=] & _).
  - intros H. inv_bind H as tmp f1 Htmp.
    assert (tmp = mkdtemp E) as ->
      by (by apply make_tmp_dir_inv in Htmp as (_ & -> & _)).
    apply try_finally_inv_Ok in H as (f2 & t2 & u & t3 & Hbody & Hclean & _).
    rewrite (rmtree_ignore_inv E _ _ _ _ _ _ _ Hclean state_outside_tmp).
    apply try_except_inv_Ok in Hbody as [Hinst | (e & f3 & t4 & t5 & _ & _ & Hh & _)].
    + by eapply install_Ok_state.
    + inv_bind Hh as u1 f4 H1. by apply ret_inv in Hh as ([=] & _).
Qed.

(** C9.  When the state file reads as a record before the run and the
    update succeeds ([run_update] returns true), the state file holds the same
    record with its [version] field set to the tag of the installed release
    (leading "v" characters removed): reading it back yields that version
    string, and every other field has the value it had before. *)
Theorem successful_update_merges_state (f f' : gmap string node) (t : list event)
    (d : list (string * json)) :
  run_update E c f = (Ok true, f', t) →
  load_json E (JObj []) (f !! version_file c) = JObj d →
  ∃ releases rel d',
    api E (releases_url (repo c)) = Ok releases
    ∧ latest_of (include_prereleases c) releases = Some rel
    ∧ read_json E (version_file c) (JObj []) f' = (Ok (JObj d'), f', [])
    ∧ dict_get "version" d' = Some (JStr (Str.lstrip_char "v" (release_tag rel)))
    ∧ (∀ k, k ≠ "version" → dict_get k d' = dict_get k d).
Proof.
  intros H Hfile. unfold run_update in H. cbv zeta in H.
  inv_bind H as an f1 Hfmt. apply lift_inv in Hfmt as (_ & -> & ->).
  inv_bind H as vdata f2 Hread. apply read_json_inv in Hread as (-> & -> & ->).
  rewrite Hfile in H.
  assert ((if json_truthy (JObj d) then JObj d else JObj []) = JObj d) as Hvd
    by (by destruct d).
  rewrite Hvd in H.
  inv_bind H as cv f3 Hget. apply ret_inv in Hget as (_ & -> & ->).
  inv_bind H as u1 f4 Hl1. apply log_inv in Hl1 as (_ & -> & ->).
  inv_bind H as u2 f5 Hl2. apply log_inv in Hl2 as (_ & -> & ->).
  inv_bind H as latest f6 Hrel.
  apply get_latest_release_inv in Hrel as (releases & Hapi & -> & ->).
  destruct (latest_of (include_prereleases c) releases) as [rel |] eqn:Hlatest.
  2: { inv_bind H as u3 f7 Hl3. by apply ret_inv in H as ([=] & _). }
  inv_bind H as u3 f7 Hl3. apply log_inv in Hl3 as (_ & -> & ->).
  inv_bind H as cmp f8 Hcmp.
  assert (f8 = f) as ->.
  { unfold compare_with in Hcmp. destruct cv; try done.
    by apply ret_inv in Hcmp as (_ & -> & _). }
  destruct ((cmp <? 0) && negb (allow_downgrade c)).
  { inv_bind H as u4 f9 Hl4. by apply ret_inv in H as ([=] & _). }
  destruct (cmp =? 0).
  { inv_bind H as u4 f9 Hl4. by apply ret_inv in H as ([=] & _). }
  apply resolve_Ok_state in H.
  exists releases, rel, (dict_set "version" (JStr (Str.lstrip_char "v" (release_tag rel))) d).
  split; [done |]. split; [done |]. split; [| split].
  - unfold read_json, bind, get_fs, ret. simpl. by rewrite H.
  - apply dict_get_set_eq.
  - intros k Hk. by apply dict_get_set_ne.
Qed.
End SuccessfulRun.

Lemma successful_update_merges_state_witness :
  ∃ d',
    (read_json Sample.E (version_file Sample.cfg) (JObj [])
       (run_update Sample.E Sample.cfg Sample.fs_installed).1.2).1.1
    = Ok (JObj d')
    ∧ dict_get "version" d' = Some (JStr "1.2.0")
    ∧ dict_get "channel" d' = Some (JStr "stable").
Proof.
  assert (state_outside_backups Sample.E Sample.cfg) as Hout
    by (split; vm_compute; reflexivity).
  destruct (successful_update_merges_state Sample.E Sample.cfg eq_refl Hout
              Sample.fs_installed
              (run_update Sample.E Sample.cfg Sample.fs_installed).1.2
              (run_update Sample.E Sample.cfg Sample.fs_installed).2
              [("channel", JStr "stable"); ("version", JStr "1.0.0")])
    as (releases & rel & d' & Hapi & Hlatest & Hread & Hver & Hkeep).
  - vm_compute. reflexivity.
  - reflexivity.
  - injection Hapi as <-. injection Hlatest as <-.
    exists d'. rewrite Hread. split; [reflexivity |]. split; [exact Hver |].
    rewrite Hkeep; [reflexivity | discriminate].
Defined.

(** ** Runs that never reach the swap *)

(** With the dry-run flag, no file is replaced at all. *)
Lemma dry_run_is_quiet E c : dry_run c = true → emits quiet (run_update E c).
Proof.
  intros Hdry. unfold run_update. emits_auto; auto with quiet.
  unfold resolve_and_install. rewrite Hdry. emits_auto.
Qed.

(** ** End-to-end scenarios *)

(** Local 1.0.0, remote 1.2.0 with a valid digest companion: the update is
    installed, the state file says 1.2.0 and keeps its other field, the live
    directory holds the content of the archive's single top-level folder,
    and neither the backup nor the staging area remains. *)
Example scenario_installed :
  let r := run_update Sample.E Sample.cfg Sample.fs_installed in
  r.1.1 = Ok true
  ∧ r.1.2 !! "/opt/demo/app" = Some (Dir Sample.new_tree)
  ∧ r.1.2 !! "/opt/demo/version.json"
    = Some (File (Json (JObj [("channel", JStr "stable"); ("version", JStr "1.2.0")])))
  ∧ r.1.2 !! "/opt/demo/app.backup-1700000000" = None
  ∧ r.1.2 !! "/tmp/upd-k3/final" = None
  ∧ r.1.2 !! "/tmp/upd-k3/demo-linux-x64.zip" = None.
Proof. repeat split; vm_compute; reflexivity. Qed.

(** The first rename of the swap is refused: the copy-based fallback
    installs the update all the same. *)
Example scenario_fallback :
  let r := run_update Sample.E_rename_refused Sample.cfg Sample.fs_installed in
  r.1.1 = Ok true
  ∧ r.1.2 !! "/opt/demo/app" = Some (Dir Sample.new_tree)
  ∧ In (EvMove "/tmp/upd-k3/final" "/opt/demo/app") r.2
  ∧ r.1.2 !! "/opt/demo/app.backup-1700000001" = None.
Proof.
  split; [vm_compute; reflexivity |].
  split; [vm_compute; reflexivity |].
  split; [| vm_compute; reflexivity].
  vm_compute. do 21 right. by left.
Qed.

(** Local 2.0.0, remote 1.2.0, downgrades not allowed: nothing is touched. *)
Example scenario_remote_older :
  let f := <["/opt/demo/version.json" := File (Json (JObj [("version", JStr "2.0.0")]))]>
             Sample.fs_no_state in
  let r := run_update Sample.E Sample.cfg f in
  r.1.1 = Ok false
  ∧ r.1.2 = f
  ∧ last r.2
    = Some (EvLog "Remote version is older; skipping (use --allow-downgrade to force).").
Proof. repeat split; vm_compute; reflexivity. Qed.

(** The digest companion names another digest: the run fails, the live
    directory and the state file are as before, the staging area is gone. *)
Example scenario_digest_mismatch :
  let E := Sample.env_with [Sample.rel_120]
             (Sample.other_digest +:+ "  demo-linux-x64.zip") (λ _, false) in
  let r := run_update E Sample.cfg Sample.fs_installed in
  r.1.1 = Ok false
  ∧ r.1.2 !! "/opt/demo/app" = Some (Dir Sample.old_tree)
  ∧ r.1.2 !! "/opt/demo/version.json" = Some (File (Json Sample.state_100))
  ∧ r.1.2 !! "/tmp/upd-k3/demo-linux-x64.zip" = None
  ∧ existsb (λ ev, match ev with EvReplace _ _ => true | _ => false end) r.2 = false.
Proof. repeat split; vm_compute; reflexivity. Qed.

(** No temporary directory can be created: the error leaves [run_update],
    nothing was downloaded and nothing is touched. *)
Example scenario_no_tmp_dir :
  let r := run_update no_tmp_dir Sample.cfg Sample.fs_installed in
  r.1.1 = Raise (OSError "No usable temporary directory")
  ∧ r.1.2 = Sample.fs_installed
  ∧ existsb is_fetch r.2 = false.
Proof. repeat split; vm_compute; reflexivity. Qed.

(** The state record cannot be encoded: the new tree is in place and the
    old one kept as a backup, but the run returns false, the state file
    still names the old version, and its temporary sibling is left
    truncated. *)
Example scenario_unencodable_state :
  let r := run_update unencodable_state Sample.cfg Sample.fs_installed in
  r.1.1 = Ok false
  ∧ r.1.2 !! "/opt/demo/app" = Some (Dir Sample.new_tree)
  ∧ r.1.2 !! "/opt/demo/app.backup-1700000000" = Some (Dir Sample.old_tree)
  ∧ r.1.2 !! "/opt/demo/version.json" = Some (File (Json Sample.state_100))
  ∧ r.1.2 !! "/opt/demo/version.json.tmp" = Some (File (Text "{"))
  ∧ existsb (λ ev, match ev with EvReplace _ _ => true | _ => false end) r.2 = false.
Proof. repeat split; vm_compute; reflexivity. Qed.

(** ** The trace accounts for the changes of the file system *)

Lemma untouched_nil p : untouched p [].
Proof. intros ev []. Qed.

Lemma untouched_app p t1 t2 : untouched p (t1 ++ t2) ↔ untouched p t1 ∧ untouched p t2.
Proof.
  unfold untouched. split.
  - intros H. split; intros ev Hin; apply H, in_or_app; auto.
  - intros [H1 H2] ev Hin. apply in_app_or in Hin as [?|?]; auto.
Qed.

Lemma untouched_one p ev : untouched p [ev] ↔ touches ev p = false.
Proof.
  unfold untouched. split.
  - intros H. apply H. by left.
  - intros H ev' [<- | []]. done.
Qed.

Section Accounted.
Context {A B : Type}.

Lemma accounted_ret (a : A) : accounted (ret a).
Proof. by intros f p _. Qed.

Lemma accounted_raise e : accounted (@raise A e).
Proof. by intros f p _. Qed.

Lemma accounted_get_fs : accounted get_fs.
Proof. by intros f p _. Qed.

Lemma accounted_emit ev : accounted (emit ev).
Proof. by intros f p _. Qed.

Lemma accounted_lift (r : outcome A) : accounted (lift r).
Proof. destruct r; [apply accounted_ret | apply accounted_raise]. Qed.

Lemma accounted_bind (m : M A) (k : A → M B) :
  accounted m → (∀ a, accounted (k a)) → accounted (bind m k).
Proof.
  intros Hm Hk f p. specialize (Hm f p). unfold bind.
  destruct (m f) as [[[a | e] f1] t1]; simpl in *; [| done].
  specialize (Hk a f1 p). destruct (k a f1) as [[r f2] t2]. simpl in *.
  rewrite untouched_app. intros [H1 H2]. by rewrite Hk, Hm.
Qed.

Lemma accounted_try_except (m : M A) catches h :
  accounted m → (∀ e, accounted (h e)) → accounted (try_except m catches h).
Proof.
  intros Hm Hh f p. specialize (Hm f p). unfold try_except.
  destruct (m f) as [[[a | e] f1] t1]; simpl in *; [done |].
  destruct (catches e); [| done]. specialize (Hh e f1 p).
  destruct (h e f1) as [[r f2] t2]. simpl in *.
  rewrite untouched_app. intros [H1 H2]. by rewrite Hh, Hm.
Qed.

Lemma accounted_try_finally (m : M A) cl :
  accounted m → accounted cl → accounted (try_finally m cl).
Proof.
  intros Hm Hc f p. specialize (Hm f p). unfold try_finally.
  destruct (m f) as [[r f1] t1]. specialize (Hc f1 p).
  destruct (cl f1) as [[[[] | e] f2] t2]; simpl in *;
    rewrite untouched_app; intros [H1 H2]; by rewrite Hc, Hm.
Qed.
End Accounted.

Lemma accounted_when b m : accounted m → accounted (when b m).
Proof. destruct b; [done | intros _; apply accounted_ret]. Qed.

Lemma prefix_refl s : String.prefix s s = true.
Proof. induction s as [|c s IH]; [done |]. simpl. by destruct (ascii_dec c c). Qed.

Lemma prefix_nil s : String.prefix "" s = true.
Proof. by destruct s. Qed.

Lemma prefix_append a x : String.prefix a (a +:+ x) = true.
Proof.
  induction a as [|c a IH]; [apply prefix_nil |]. rewrite append_cons. simpl.
  by destruct (ascii_dec c c).
Qed.

Lemma prefix_join a b : Str.startswith "/" b = false → String.prefix a (Path.join a b) = true.
Proof.
  intros Hb. unfold Path.join. rewrite Hb.
  destruct (negb (Str.truthy a) || Path.endswith_slash a); apply prefix_append.
Qed.

Lemma basename_not_absolute p : Str.startswith "/" (Path.basename p) = false.
Proof.
  pose proof (has_slash_basename p) as H.
  destruct (Path.basename p) as [|c b]; [done |]. simpl in *.
  by apply orb_false_elim in H as [H _].
Qed.

Lemma eqb_false_ne (p q : string) : String.eqb p q = false → p ≠ q.
Proof. apply String.eqb_neq. Qed.

(** The equalities hidden in an [untouched] hypothesis about one event. *)
Ltac untouched_facts H :=
  apply untouched_one in H; simpl in H;
  repeat match type of H with
         | _ || _ = false => apply orb_false_elim in H as [? H]
         end;
  repeat match goal with
         | H' : String.eqb _ _ = false |- _ => apply eqb_false_ne in H'
         end.

Section AccountedPrimitives.
Variable E : env.

Lemma accounted_path_exists p : accounted (path_exists p).
Proof. by intros f q _. Qed.

Lemma accounted_rmtree_ignore a root : accounted (rmtree_ignore E a root).
Proof.
  intros f p. rewrite rmtree_ignore_run.
  destruct (f !! root) as [[c | es] |]; try done.
  destruct (fault E a); simpl; [done |].
  intros H. apply untouched_one in H. simpl in H. by rewrite lookup_rmtree, H.
Qed.

Lemma accounted_os_rename a src dst : accounted (os_rename E a src dst).
Proof.
  intros f p. unfold os_rename, bind, get_fs, put_fs, emit, raise. simpl.
  destruct (fault E a); [done |].
  destruct (f !! src) as [n |]; [| done].
  destruct (can_replace n (f !! dst)); [| done]. simpl.
  intros H. untouched_facts H.
  by rewrite lookup_insert_ne, lookup_delete_ne.
Qed.

Lemma accounted_os_replace a src dst : accounted (os_replace E a src dst).
Proof.
  intros f p. unfold os_replace, bind, get_fs, put_fs, emit, raise. simpl.
  destruct (fault E a); [done |].
  destruct (f !! src) as [n |]; [| done].
  destruct (can_replace n (f !! dst)); [| done]. simpl.
  intros H. untouched_facts H.
  by rewrite lookup_insert_ne, lookup_delete_ne.
Qed.

Lemma accounted_shutil_move a src dst : accounted (shutil_move E a src dst).
Proof.
  intros f p. unfold shutil_move, bind, get_fs, put_fs, emit, raise, ret. simpl.
  destruct (fault E a); [done |].
  destruct (f !! src) as [n |]; [| done].
  assert (∀ n', String.eqb p src || String.prefix p dst = false →
                <[dst := n']> (delete src f) !! p = f !! p) as Hplain.
  { intros n' H. apply orb_false_elim in H as [Hs Hd]. apply eqb_false_ne in Hs.
    assert (p ≠ dst) by (intros ->; by rewrite prefix_refl in Hd).
    by rewrite lookup_insert_ne, lookup_delete_ne. }
  destruct (f !! dst) as [[cd | es] |].
  - destruct n; [| done]. simpl. intros H. apply untouched_one in H. by apply Hplain.
  - destruct (String.eqb src dst); [done |].
    destruct (existsb _ _); [done |]. simpl.
    intros H. apply untouched_one in H. simpl in H.
    apply orb_false_elim in H as [Hs Hd]. apply eqb_false_ne in Hs.
    assert (p ≠ dst).
    { intros ->. by rewrite prefix_join in Hd by apply basename_not_absolute. }
    by rewrite lookup_insert_ne, lookup_delete_ne.
  - simpl. intros H. apply untouched_one in H. by apply Hplain.
Qed.

Lemma accounted_makedirs a p : accounted (makedirs E a p).
Proof.
  intros f q. unfold makedirs, bind, get_fs, put_fs, emit, raise, ret. simpl.
  destruct (f !! p) as [[? | ?] |]; try done.
  destruct (fault E a); [done |]. simpl.
  intros H. untouched_facts H. by rewrite lookup_insert_ne.
Qed.

Lemma accounted_make_tmp_dir : accounted (make_tmp_dir E).
Proof.
  intros f q. rewrite make_tmp_dir_run. destruct (fault E AtMkdtemp); [done |].
  simpl. intros H. untouched_facts H. by rewrite lookup_insert_ne.
Qed.

Lemma accounted_read_file p : accounted (read_file E p).
Proof.
  intros f q. unfold read_file, bind, get_fs, raise, ret. simpl.
  by destruct (f !! p) as [[? | ?] |].
Qed.

Lemma accounted_write_file a p c : accounted (write_file E a p c).
Proof.
  intros f q. unfold write_file, bind, get_fs, put_fs, emit, raise. simpl.
  destruct (match a with Some a0 => fault E a0 | None => false end); [done |].
  destruct (f !! p) as [[? | ?] |]; simpl; try done;
    intros H; untouched_facts H; by rewrite lookup_insert_ne.
Qed.

Lemma accounted_listdir a p : accounted (listdir E a p).
Proof.
  intros f q. unfold listdir, bind, get_fs, raise, ret. simpl.
  destruct (fault E a); [done |]. by destruct (f !! p) as [[? | ?] |].
Qed.

Lemma accounted_copytree a n p : accounted (copytree E a n p).
Proof.
  intros f q. unfold copytree, bind, get_fs, put_fs, emit, raise. simpl.
  destruct (fault E a); [done |].
  destruct n as [? | es]; [done |].
  destruct (f !! p) as [[? | ?] |]; simpl; try done;
    intros H; untouched_facts H; by rewrite lookup_insert_ne.
Qed.

Lemma accounted_unzip_to z p : accounted (unzip_to E z p).
Proof.
  unfold unzip_to. apply accounted_bind; [apply accounted_read_file |]. intros body.
  apply accounted_bind; [apply accounted_lift |]. intros entries.
  intros f q. unfold bind, get_fs, put_fs, emit, raise. simpl.
  destruct (f !! p) as [[? | ?] |]; simpl; try done.
  intros H. untouched_facts H. by rewrite lookup_insert_ne.
Qed.

Lemma accounted_relaunch cmd : accounted (relaunch E cmd).
Proof.
  intros f q. unfold relaunch, raise, emit. by destruct (fault E AtSpawn).
Qed.
End AccountedPrimitives.

Ltac accounted_step :=
  lazymatch goal with
  | |- accounted (bind _ _) => apply accounted_bind; [| intros ?]
  | |- accounted (ret _) => apply accounted_ret
  | |- accounted (raise _) => apply accounted_raise
  | |- accounted get_fs => apply accounted_get_fs
  | |- accounted (lift _) => apply accounted_lift
  | |- accounted (when _ _) => apply accounted_when
  | |- accounted (log _) => apply accounted_emit
  | |- accounted (emit _) => apply accounted_emit
  | |- accounted (try_except _ _ _) => apply accounted_try_except; [| intros ?]
  | |- accounted (try_finally _ _) => apply accounted_try_finally
  | |- accounted (match ?x with _ => _ end) => destruct x
  end.

Ltac accounted_auto := repeat (cbv zeta; accounted_step).

Create HintDb accounted.

#[global] Hint Resolve accounted_path_exists accounted_rmtree_ignore
  accounted_os_rename accounted_os_replace accounted_shutil_move
  accounted_makedirs accounted_make_tmp_dir accounted_read_file
  accounted_write_file accounted_listdir accounted_copytree
  accounted_unzip_to accounted_relaunch : accounted.

Section AccountedSource.
Variable E : env.

Lemma accounted_read_json p d : accounted (read_json E p d).
Proof. unfold read_json. accounted_auto. Qed.

Lemma accounted_write_json_atomic p data : accounted (write_json_atomic E p data).
Proof. unfold write_json_atomic. accounted_auto; auto with accounted. Qed.

Lemma accounted_http_download url dest : accounted (http_download E url dest).
Proof. unfold http_download. accounted_auto; auto with accounted. Qed.

Lemma accounted_verify s a : accounted (verify_sha256_from_file E s a).
Proof.
  unfold verify_sha256_from_file, sha256_file. accounted_auto; auto with accounted.
Qed.

Lemma accounted_get_latest_release r i : accounted (get_latest_release E r i).
Proof. unfold get_latest_release, http_get_json. accounted_auto. Qed.

Lemma accounted_safe_swap fin app : accounted (safe_swap E fin app).
Proof. unfold safe_swap. accounted_auto; auto with accounted. Qed.

Lemma accounted_rollback b app : accounted (rollback_from_backup E b app).
Proof. unfold rollback_from_backup. accounted_auto; auto with accounted. Qed.

Lemma accounted_swap_with_fallback fin app : accounted (swap_with_fallback E fin app).
Proof.
  unfold swap_with_fallback.
  accounted_auto; auto using accounted_safe_swap with accounted.
Qed.

Lemma accounted_install c tag vdata an url sha tmp :
  accounted (install E c tag vdata an url sha tmp).
Proof.
  unfold install.
  accounted_auto;
    auto using accounted_http_download, accounted_verify,
      accounted_swap_with_fallback, accounted_write_json_atomic with accounted.
Qed.

Lemma accounted_resolve_and_install c rel tag vdata an :
  accounted (resolve_and_install E c rel tag vdata an).
Proof.
  unfold resolve_and_install.
  accounted_auto; auto using accounted_install with accounted.
Qed.

(** Whatever [run_update] changes in the file system shows in its trace. *)
Lemma accounted_run_update c : accounted (run_update E c).
Proof.
  unfold run_update, py_get, compare_with.
  accounted_auto;
    auto using accounted_read_json, accounted_get_latest_release,
      accounted_resolve_and_install with accounted.
Qed.
End AccountedSource.

Lemma changed_path_is_touched {A} (m : M A) f p :
  accounted m → (m f).1.2 !! p ≠ f !! p →
  ∃ ev, In ev (m f).2 ∧ touches ev p = true.
Proof.
  intros Hm Hne.
  destruct (existsb (λ ev, touches ev p) (m f).2) eqn:Hex.
  - apply existsb_exists in Hex as (ev & Hin & Hev). by exists ev.
  - exfalso. apply Hne, Hm. intros ev Hin.
    destruct (touches ev p) eqn:Hev; [| done].
    assert (existsb (λ ev, touches ev p) (m f).2 = true) as Ht; [| congruence].
    apply existsb_exists. by exists ev.
Qed.

(** If the state file holds something else after the run than before, an
    event of the trace names its path. *)
Lemma state_change_is_in_trace E c f :
  (run_update E c f).1.2 !! version_file c ≠ f !! version_file c →
  ∃ ev, In ev (run_update E c f).2 ∧ touches ev (version_file c) = true.
Proof. apply changed_path_is_touched, accounted_run_update. Qed.

(** * Further properties of the source *)

(** ** What the two patterns of [parse_semver] accept *)

Section StarClass.
Context {A : Type}.
Implicit Types (k : @Re.cont A).

(** A greedy run over exactly [x] hands the rest to the continuation, when
    the continuation accepts it. *)
Lemma star_class_success p i x rest caps k a :
  all_chars p x = true → head_fails p rest = true →
  k (i + String.length x)%nat rest caps = Some a →
  Re.star_class p i (x +:+ rest) caps k = Some a.
Proof.
  revert i. induction x as [|c x IH]; intros i Hx Hrest Hk.
  - rewrite append_nil_l. simpl in Hk. rewrite Nat.add_0_r in Hk.
    destruct rest as [|c r]; simpl; [done |].
    simpl in Hrest. by destruct (p c).
  - rewrite append_cons. simpl in Hx. apply andb_prop in Hx as [Hc Hx].
    simpl. rewrite Hc.
    rewrite (IH (S i)); [done | done | done |].
    simpl in Hk. by rewrite Nat.add_succ_r in Hk.
Qed.

(** The run fails when the continuation rejects every split of it. *)
Lemma star_class_failure p i x rest caps k :
  all_chars p x = true → head_fails p rest = true →
  (∀ x1 x2, x = x1 +:+ x2 →
            k (i + String.length x1)%nat (x2 +:+ rest) caps = None) →
  Re.star_class p i (x +:+ rest) caps k = None.
Proof.
  revert i. induction x as [|c x IH]; intros i Hx Hrest Hk.
  - rewrite append_nil_l. specialize (Hk "" "" eq_refl).
    change (k (i + 0)%nat rest caps = None) in Hk. rewrite Nat.add_0_r in Hk.
    destruct rest as [|c r]; simpl; [done |].
    simpl in Hrest. by destruct (p c).
  - rewrite append_cons. simpl in Hx. apply andb_prop in Hx as [Hc Hx].
    simpl. rewrite Hc. rewrite (IH (S i)); [| done | done |].
    + specialize (Hk "" (String c x) eq_refl).
      change (k (i + 0)%nat (String c (x +:+ rest)) caps = None) in Hk.
      by rewrite Nat.add_0_r in Hk.
    + intros x1 x2 ->. specialize (Hk (String c x1) x2 eq_refl).
      change (k (i + S (String.length x1))%nat (x2 +:+ rest) caps = None) in Hk.
      by rewrite Nat.add_succ_r in Hk.
Qed.

(** Whatever the run returns comes from the continuation, called after a
    prefix of characters of the class. *)
Lemma star_class_result p i s caps k a :
  Re.star_class p i s caps k = Some a →
  ∃ n, all_first p n s = true ∧ k (i + n)%nat (Str.drop n s) caps = Some a.
Proof.
  revert i. induction s as [|c s IH]; intros i; simpl.
  - intros H. exists O. by rewrite Nat.add_0_r.
  - destruct (p c) eqn:Hc.
    + destruct (Re.star_class p (S i) s caps k) as [a' |] eqn:Hs.
      * intros [= ->]. apply IH in Hs as (n & Hn & Hk).
        exists (S n). simpl. rewrite Hc, Hn. by rewrite Nat.add_succ_r.
      * intros H. exists O. by rewrite Nat.add_0_r.
    + intros H. exists O. by rewrite Nat.add_0_r.
Qed.
End StarClass.

Lemma append_nil_r (s : string) : s +:+ "" = s.
Proof. induction s as [|c s IH]; [done |]. by rewrite append_cons, IH. Qed.

Lemma substring_prefix x rest : substring 0 (String.length x) (x +:+ rest) = x.
Proof.
  induction x as [|c x IH].
  - rewrite append_nil_l. by destruct rest.
  - rewrite append_cons. simpl. by rewrite IH.
Qed.

Lemma digits_inv x :
  digits x = true →
  ∃ c x', x = String c x' ∧ Str.is_digit c = true ∧ all_chars Str.is_digit x' = true.
Proof.
  unfold digits. destruct x as [|c x']; [done |]. simpl.
  intros H. apply andb_prop in H as [Hc Hx]. by exists c, x'.
Qed.

Section GroupPlus.
Context {A : Type}.
Implicit Types (k : @Re.cont A).

(** A captured digit run followed by something that is not a digit. *)
Lemma group_digits_success i x rest caps k a :
  digits x = true → head_fails Str.is_digit rest = true →
  k (i + String.length x)%nat rest (caps ++ [x]) = Some a →
  Re.rmatch (Re.Group (Re.plus Str.is_digit)) i (x +:+ rest) caps k = Some a.
Proof.
  intros Hx Hrest Hk. apply digits_inv in Hx as (c & x' & -> & Hc & Hx').
  rewrite append_cons. simpl. rewrite Hc.
  apply star_class_success; [done | done |].
  replace (S i + String.length x' - i)%nat with (S (String.length x')) by lia.
  simpl. rewrite substring_prefix.
  simpl in Hk. by rewrite Nat.add_succ_r in Hk.
Qed.

(** The captured run cannot be followed if every shorter or equal capture
    is rejected by what follows. *)
Lemma group_digits_failure i x rest caps k :
  digits x = true → head_fails Str.is_digit rest = true →
  (∀ x1 x2 g, x = x1 +:+ x2 → x1 ≠ "" →
              k (i + String.length x1)%nat (x2 +:+ rest) (caps ++ [g]) = None) →
  Re.rmatch (Re.Group (Re.plus Str.is_digit)) i (x +:+ rest) caps k = None.
Proof.
  intros Hx Hrest Hk. apply digits_inv in Hx as (c & x' & -> & Hc & Hx').
  rewrite append_cons. simpl. rewrite Hc.
  apply star_class_failure; [done | done |].
  intros x1 x2 ->.
  specialize (Hk (String c x1) x2
                (substring 0 (S i + String.length x1 - i)
                   (String c ((x1 +:+ x2) +:+ rest))) eq_refl).
  simpl in Hk. rewrite Nat.add_succ_r in Hk. by apply Hk.
Qed.
End GroupPlus.

Lemma head_fails_qualifier s : qualifier s = true → head_fails Str.is_digit s = true.
Proof.
  destruct s as [|c q]; [done |]. simpl. intros H.
  apply andb_prop in H as [Hc _]. unfold is_sign in Hc.
  apply orb_prop in Hc as [Hc | Hc]; apply Ascii.eqb_eq in Hc; by subst c.
Qed.

(** The optional tail and the end anchor accept a qualifier and leave the
    captures as they are. *)
Lemma tail_accepts_qualifier i s caps :
  qualifier s = true →
  Re.rmatch
    (Re.opt (Re.Seq (Re.Chr (λ c, Ascii.eqb c "-" || Ascii.eqb c "+"))
                    (Re.StarC Re.dot)))
    i s caps
    (λ i' s' caps', Re.rmatch Re.Eol i' s' caps' (λ _ _ caps, Some caps))
  = Some caps.
Proof.
  intros Hs. destruct s as [|c q]; simpl; [done |].
  simpl in Hs. apply andb_prop in Hs as [Hc Hq]. unfold is_sign in Hc.
  rewrite Hc.
  rewrite <- (append_nil_r q) at 1.
  by rewrite (star_class_success Re.dot (S i) q "" caps _ caps).
Qed.

Lemma digit_not_v c : Str.is_digit c = true → Ascii.eqb c "v" = false.
Proof.
  destruct c as [[] [] [] [] [] [] [] []]; vm_compute; intros H;
    first [reflexivity | discriminate H].
Qed.

Lemma digit_not_dot c : Str.is_digit c = true → Ascii.eqb "." c = false.
Proof.
  destruct c as [[] [] [] [] [] [] [] []]; vm_compute; intros H;
    first [reflexivity | discriminate H].
Qed.

Lemma sign_not_dot c : is_sign c = true → Ascii.eqb "." c = false.
Proof.
  destruct c as [[] [] [] [] [] [] [] []]; vm_compute; intros H;
    first [reflexivity | discriminate H].
Qed.

Lemma startswith_v_digits x rest :
  digits x = true → Str.startswith "v" (x +:+ rest) = false.
Proof.
  intros Hx. apply digits_inv in Hx as (c & x' & -> & Hc & _).
  rewrite append_cons. simpl. by apply digit_not_v.
Qed.

(** The first pattern on three digit runs and a qualifier. *)
Lemma semver3_match x y z suf :
  digits x = true → digits y = true → digits z = true → qualifier suf = true →
  Re.re_match semver3_re (x +:+ "." +:+ y +:+ "." +:+ z +:+ suf) = Some [x; y; z].
Proof.
  intros Hx Hy Hz Hsuf. unfold Re.re_match, semver3_re, Re.seqs.
  change (Re.rmatch (Re.Group (Re.plus Str.is_digit)) 0
            (x +:+ String "." (y +:+ String "." (z +:+ suf))) []
            (λ i1 s1 caps1,
               Re.rmatch (Re.lit ".") i1 s1 caps1
                 (λ i2 s2 caps2,
                    Re.rmatch (Re.Group (Re.plus Str.is_digit)) i2 s2 caps2
                      (λ i3 s3 caps3,
                         Re.rmatch (Re.lit ".") i3 s3 caps3
                           (λ i4 s4 caps4,
                              Re.rmatch (Re.Group (Re.plus Str.is_digit)) i4 s4 caps4
                                (λ i5 s5 caps5,
                                   Re.rmatch
                                     (Re.opt (Re.Seq (Re.Chr (λ c, Ascii.eqb c "-" || Ascii.eqb c "+"))
                                                     (Re.StarC Re.dot)))
                                     i5 s5 caps5
                                     (λ i6 s6 caps6,
                                        Re.rmatch Re.Eol i6 s6 caps6
                                          (λ _ _ caps, Some caps)))))))
          = Some [x; y; z]).
  apply group_digits_success; [done | reflexivity |].
  change (Re.rmatch (Re.lit ".") ?i (String "." ?s) ?caps ?k) with (k (S i) s caps).
  cbv beta.
  apply group_digits_success; [done | reflexivity |].
  change (Re.rmatch (Re.lit ".") ?i (String "." ?s) ?caps ?k) with (k (S i) s caps).
  cbv beta.
  apply group_digits_success; [done | by apply head_fails_qualifier |].
  by apply tail_accepts_qualifier.
Qed.

(** The looser pattern on two digit runs and a qualifier. *)
Lemma semver2_match x y suf :
  digits x = true → digits y = true → qualifier suf = true →
  Re.re_match semver2_re (x +:+ "." +:+ y +:+ suf) = Some [x; y].
Proof.
  intros Hx Hy Hsuf. unfold Re.re_match, semver2_re, Re.seqs.
  change (Re.rmatch (Re.Group (Re.plus Str.is_digit)) 0
            (x +:+ String "." (y +:+ suf)) []
            (λ i1 s1 caps1,
               Re.rmatch (Re.lit ".") i1 s1 caps1
                 (λ i2 s2 caps2,
                    Re.rmatch (Re.Group (Re.plus Str.is_digit)) i2 s2 caps2
                      (λ i5 s5 caps5,
                         Re.rmatch
                           (Re.opt (Re.Seq (Re.Chr (λ c, Ascii.eqb c "-" || Ascii.eqb c "+"))
                                           (Re.StarC Re.dot)))
                           i5 s5 caps5
                           (λ i6 s6 caps6,
                              Re.rmatch Re.Eol i6 s6 caps6
                                (λ _ _ caps, Some caps)))))
          = Some [x; y]).
  apply group_digits_success; [done | reflexivity |].
  change (Re.rmatch (Re.lit ".") ?i (String "." ?s) ?caps ?k) with (k (S i) s caps).
  cbv beta.
  apply group_digits_success; [done | by apply head_fails_qualifier |].
  by apply tail_accepts_qualifier.
Qed.

Lemma all_chars_app p a b :
  all_chars p (a +:+ b) = all_chars p a && all_chars p b.
Proof.
  induction a as [|c a IH]; [done |]. rewrite append_cons. simpl.
  by rewrite IH, andb_assoc.
Qed.

Lemma rmatch_lit_cons {A} a i c s caps (k : @Re.cont A) :
  Re.rmatch (Re.lit a) i (String c s) caps k
  = if Ascii.eqb a c then k (S i) s caps else None.
Proof. reflexivity. Qed.

(** A literal dot does not match where a digit or a qualifier stands. *)
Lemma lit_dot_fails {A} i x suf caps (k : @Re.cont A) :
  all_chars Str.is_digit x = true → qualifier suf = true →
  Re.rmatch (Re.lit ".") i (x +:+ suf) caps k = None.
Proof.
  intros Hx Hsuf. destruct x as [|c x].
  - rewrite append_nil_l. destruct suf as [|c q]; [done |].
    simpl in Hsuf. apply andb_prop in Hsuf as [Hc _].
    by rewrite rmatch_lit_cons, sign_not_dot.
  - rewrite append_cons. simpl in Hx. apply andb_prop in Hx as [Hc _].
    by rewrite rmatch_lit_cons, digit_not_dot.
Qed.

(** The first pattern rejects a tag with only two digit runs. *)
Lemma semver3_rejects_two_parts x y suf :
  digits x = true → digits y = true → qualifier suf = true →
  Re.re_match semver3_re (x +:+ "." +:+ y +:+ suf) = None.
Proof.
  intros Hx Hy Hsuf. unfold Re.re_match, semver3_re, Re.seqs.
  change (Re.rmatch (Re.Group (Re.plus Str.is_digit)) 0
            (x +:+ String "." (y +:+ suf)) []
            (λ i1 s1 caps1,
               Re.rmatch (Re.lit ".") i1 s1 caps1
                 (λ i2 s2 caps2,
                    Re.rmatch (Re.Group (Re.plus Str.is_digit)) i2 s2 caps2
                      (λ i3 s3 caps3,
                         Re.rmatch (Re.lit ".") i3 s3 caps3
                           (λ i4 s4 caps4,
                              Re.rmatch (Re.Group (Re.plus Str.is_digit)) i4 s4 caps4
                                (λ i5 s5 caps5,
                                   Re.rmatch
                                     (Re.opt (Re.Seq (Re.Chr (λ c, Ascii.eqb c "-" || Ascii.eqb c "+"))
                                                     (Re.StarC Re.dot)))
                                     i5 s5 caps5
                                     (λ i6 s6 caps6,
                                        Re.rmatch Re.Eol i6 s6 caps6
                                          (λ _ _ caps, Some caps)))))))
          = None).
  assert (all_chars Str.is_digit x = true) as Hxd
    by (unfold digits in Hx; by apply andb_prop in Hx as [_ ?]).
  assert (all_chars Str.is_digit y = true) as Hyd
    by (unfold digits in Hy; by apply andb_prop in Hy as [_ ?]).
  apply group_digits_failure; [done | reflexivity |].
  intros x1 x2 g1 -> Hx1. cbv beta.
  rewrite all_chars_app in Hxd. apply andb_prop in Hxd as [_ Hx2].
  destruct x2 as [|d x2].
  - rewrite append_nil_l.
    change (Re.rmatch (Re.lit ".") ?i (String "." ?s) ?caps ?k) with (k (S i) s caps).
    cbv beta.
    apply group_digits_failure; [done | by apply head_fails_qualifier |].
    intros y1 y2 g2 -> Hy1. cbv beta.
    rewrite all_chars_app in Hyd. apply andb_prop in Hyd as [_ Hy2].
    by apply lit_dot_fails.
  - rewrite append_cons. simpl in Hx2. apply andb_prop in Hx2 as [Hd _].
    by rewrite rmatch_lit_cons, digit_not_dot.
Qed.

(** X1.  A tag made of three dot-separated digit runs, optionally followed
    by a qualifier (a [-] or [+] and any characters but newlines), parses to
    the three numbers; the qualifier has no influence, and one leading [v]
    is accepted. *)
Theorem parse_semver_three_parts (x y z suf : string) :
  digits x = true → digits y = true → digits z = true → qualifier suf = true →
  parse_semver (x +:+ "." +:+ y +:+ "." +:+ z +:+ suf)
  = (Str.int x, Str.int y, Str.int z)
  ∧ parse_semver ("v" +:+ x +:+ "." +:+ y +:+ "." +:+ z +:+ suf)
    = (Str.int x, Str.int y, Str.int z).
Proof.
  intros Hx Hy Hz Hsuf.
  assert (parse_semver (x +:+ "." +:+ y +:+ "." +:+ z +:+ suf)
          = (Str.int x, Str.int y, Str.int z)) as H.
  { unfold parse_semver. rewrite startswith_v_digits by done.
    by rewrite semver3_match. }
  split; [exact H |].
  unfold parse_semver at 1. change (Str.startswith "v" ("v" +:+ ?s)) with true.
  cbv iota. change (Str.tail ("v" +:+ ?s)) with s.
  by rewrite semver3_match.
Qed.

Lemma parse_semver_three_parts_witness :
  parse_semver "10.4.27-rc.1" = (10, 4, 27)
  ∧ parse_semver "v10.4.27-rc.1" = (10, 4, 27).
Proof.
  exact (parse_semver_three_parts "10" "4" "27" "-rc.1"
           eq_refl eq_refl eq_refl eq_refl).
Defined.

(** X2.  A tag made of two dot-separated digit runs, optionally followed by
    a qualifier, parses like the same tag with a third component 0. *)
Theorem parse_semver_two_parts (x y suf : string) :
  digits x = true → digits y = true → qualifier suf = true →
  parse_semver (x +:+ "." +:+ y +:+ suf) = (Str.int x, Str.int y, 0)
  ∧ parse_semver (x +:+ "." +:+ y +:+ suf)
    = parse_semver (x +:+ "." +:+ y +:+ "." +:+ "0" +:+ suf).
Proof.
  intros Hx Hy Hsuf.
  assert (parse_semver (x +:+ "." +:+ y +:+ suf) = (Str.int x, Str.int y, 0)) as H.
  { unfold parse_semver. rewrite startswith_v_digits by done.
    by rewrite semver3_rejects_two_parts, semver2_match. }
  split; [exact H |]. rewrite H.
  unfold parse_semver. rewrite startswith_v_digits by done.
  by rewrite (semver3_match x y "0" suf).
Qed.

Lemma parse_semver_two_parts_witness :
  parse_semver "3.14+build7" = (3, 14, 0)
  ∧ parse_semver "3.14+build7" = parse_semver "3.14.0+build7".
Proof.
  exact (parse_semver_two_parts "3" "14" "+build7" eq_refl eq_refl eq_refl).
Defined.

(** ** What [parse_semver] can return *)

Lemma all_first_substring p n s :
  all_first p n s = true → all_chars p (substring 0 n s) = true.
Proof.
  revert s. induction n as [|n IH]; intros s; [by destruct s |].
  destruct s as [|c s]; [done |]. simpl. intros H.
  apply andb_prop in H as [Hc Hs]. by rewrite Hc, IH.
Qed.

Section Inversion.
Context {A : Type}.
Implicit Types (k : @Re.cont A).

Lemma rmatch_Chr_inv p i s caps k a :
  Re.rmatch (Re.Chr p) i s caps k = Some a →
  ∃ c s', s = String c s' ∧ p c = true ∧ k (S i) s' caps = Some a.
Proof.
  simpl. destruct s as [|c s']; [done |]. destruct (p c) eqn:Hc; [| done].
  intros H. by exists c, s'.
Qed.

(** Whatever a group [(p+)] captures is a non-empty run of the class. *)
Lemma group_plus_inv p i s caps k a :
  Re.rmatch (Re.Group (Re.plus p)) i s caps k = Some a →
  ∃ g i' s', Str.truthy g = true ∧ all_chars p g = true
             ∧ k i' s' (caps ++ [g]) = Some a.
Proof.
  intros H.
  change (Re.rmatch (Re.Chr p) i s caps
            (λ i1 s1 caps1,
               Re.star_class p i1 s1 caps1
                 (λ i' s' caps', k i' s' (caps' ++ [substring 0 (i' - i) s])))
          = Some a) in H.
  apply rmatch_Chr_inv in H as (c & s' & -> & Hc & H).
  apply star_class_result in H as (n & Hn & H).
  replace (S i + n - i)%nat with (S n) in H by lia.
  exists (String c (substring 0 n s')), (S i + n)%nat, (Str.drop n s').
  split; [done |]. split; [| exact H].
  simpl. by rewrite Hc, all_first_substring.
Qed.
End Inversion.

Lemma tail_inv i s caps m :
  Re.rmatch
    (Re.opt (Re.Seq (Re.Chr (λ c, Ascii.eqb c "-" || Ascii.eqb c "+"))
                    (Re.StarC Re.dot)))
    i s caps
    (λ i' s' caps', Re.rmatch Re.Eol i' s' caps' (λ _ _ caps, Some caps))
  = Some m →
  m = caps.
Proof.
  assert (∀ i' s', Re.rmatch Re.Eol i' s' caps (λ _ _ caps, Some caps) = Some m →
                   m = caps) as Heol.
  { intros i' s'. simpl. destruct (Re.at_eol s'); [| done]. by intros [= <-]. }
  change (match
            Re.rmatch (Re.Chr (λ c, Ascii.eqb c "-" || Ascii.eqb c "+")) i s caps
              (λ i1 s1 caps1,
                 Re.star_class Re.dot i1 s1 caps1
                   (λ i' s' caps', Re.rmatch Re.Eol i' s' caps' (λ _ _ caps, Some caps)))
          with
          | Some a => Some a
          | None => Re.rmatch Re.Eol i s caps (λ _ _ caps, Some caps)
          end = Some m → m = caps).
  destruct (Re.rmatch (Re.Chr _) i s caps _) as [a |] eqn:Hfirst.
  - intros [= ->]. apply rmatch_Chr_inv in Hfirst as (c & s' & -> & _ & H).
    apply star_class_result in H as (n & _ & H). by eapply Heol.
  - apply Heol.
Qed.

(** The groups of a match of the first pattern are three digit runs. *)
Lemma semver3_inv s m :
  Re.re_match semver3_re s = Some m →
  ∃ g1 g2 g3, m = [g1; g2; g3]
              ∧ all_chars Str.is_digit g1 = true
              ∧ all_chars Str.is_digit g2 = true
              ∧ all_chars Str.is_digit g3 = true.
Proof.
  unfold Re.re_match, semver3_re, Re.seqs. intros H.
  change (Re.rmatch (Re.Group (Re.plus Str.is_digit)) 0 s []
            (λ i1 s1 caps1,
               Re.rmatch (Re.lit ".") i1 s1 caps1
                 (λ i2 s2 caps2,
                    Re.rmatch (Re.Group (Re.plus Str.is_digit)) i2 s2 caps2
                      (λ i3 s3 caps3,
                         Re.rmatch (Re.lit ".") i3 s3 caps3
                           (λ i4 s4 caps4,
                              Re.rmatch (Re.Group (Re.plus Str.is_digit)) i4 s4 caps4
                                (λ i5 s5 caps5,
                                   Re.rmatch
                                     (Re.opt (Re.Seq (Re.Chr (λ c, Ascii.eqb c "-" || Ascii.eqb c "+"))
                                                     (Re.StarC Re.dot)))
                                     i5 s5 caps5
                                     (λ i6 s6 caps6,
                                        Re.rmatch Re.Eol i6 s6 caps6
                                          (λ _ _ caps, Some caps)))))))
          = Some m) in H.
  apply group_plus_inv in H as (g1 & i1 & s1 & _ & Hg1 & H). cbv beta in H.
  apply rmatch_Chr_inv in H as (c1 & s1' & -> & _ & H). cbv beta in H.
  apply group_plus_inv in H as (g2 & i2 & s2 & _ & Hg2 & H). cbv beta in H.
  apply rmatch_Chr_inv in H as (c2 & s2' & -> & _ & H). cbv beta in H.
  apply group_plus_inv in H as (g3 & i3 & s3 & _ & Hg3 & H). cbv beta in H.
  apply tail_inv in H. by exists g1, g2, g3.
Qed.

Lemma semver2_inv s m :
  Re.re_match semver2_re s = Some m →
  ∃ g1 g2, m = [g1; g2]
           ∧ all_chars Str.is_digit g1 = true
           ∧ all_chars Str.is_digit g2 = true.
Proof.
  unfold Re.re_match, semver2_re, Re.seqs. intros H.
  change (Re.rmatch (Re.Group (Re.plus Str.is_digit)) 0 s []
            (λ i1 s1 caps1,
               Re.rmatch (Re.lit ".") i1 s1 caps1
                 (λ i2 s2 caps2,
                    Re.rmatch (Re.Group (Re.plus Str.is_digit)) i2 s2 caps2
                      (λ i5 s5 caps5,
                         Re.rmatch
                           (Re.opt (Re.Seq (Re.Chr (λ c, Ascii.eqb c "-" || Ascii.eqb c "+"))
                                           (Re.StarC Re.dot)))
                           i5 s5 caps5
                           (λ i6 s6 caps6,
                              Re.rmatch Re.Eol i6 s6 caps6
                                (λ _ _ caps, Some caps)))))
          = Some m) in H.
  apply group_plus_inv in H as (g1 & i1 & s1 & _ & Hg1 & H). cbv beta in H.
  apply rmatch_Chr_inv in H as (c1 & s1' & -> & _ & H). cbv beta in H.
  apply group_plus_inv in H as (g2 & i2 & s2 & _ & Hg2 & H). cbv beta in H.
  apply tail_inv in H. by exists g1, g2.
Qed.

Lemma digit_val_range c : Str.is_digit c = true → 0 ≤ Str.digit_val c ≤ 9.
Proof.
  unfold Str.is_digit, Str.digit_val. intros H.
  apply andb_prop in H as [H1 H2].
  apply Nat.leb_le in H1. apply Nat.leb_le in H2. lia.
Qed.

Lemma int_acc_nonneg acc g :
  0 ≤ acc → all_chars Str.is_digit g = true → 0 ≤ Str.int_acc acc g.
Proof.
  revert acc. induction g as [|c g IH]; intros acc Hacc Hg; [done |].
  simpl in *. apply andb_prop in Hg as [Hc Hg].
  apply IH; [| done]. pose proof (digit_val_range c Hc). lia.
Qed.

Lemma int_nonneg g : all_chars Str.is_digit g = true → 0 ≤ Str.int g.
Proof. by apply int_acc_nonneg. Qed.

(** The result of [parse_semver] is the lowest value or a triple of
    non-negative numbers. *)
Lemma parse_semver_range s :
  parse_semver s = unparseable
  ∨ ∃ a b c, parse_semver s = (a, b, c) ∧ 0 ≤ a ∧ 0 ≤ b ∧ 0 ≤ c.
Proof.
  unfold parse_semver.
  set (s' := if Str.startswith "v" s then Str.tail s else s).
  destruct (Re.re_match semver3_re s') as [m |] eqn:H3.
  - apply semver3_inv in H3 as (g1 & g2 & g3 & -> & H1 & H2 & H3).
    right. exists (Str.int g1), (Str.int g2), (Str.int g3).
    split; [reflexivity |]. auto using int_nonneg.
  - destruct (Re.re_match semver2_re s') as [m |] eqn:H2.
    + apply semver2_inv in H2 as (g1 & g2 & -> & H1 & H2).
      right. exists (Str.int g1), (Str.int g2), 0.
      split; [reflexivity |]. split; [by apply int_nonneg |].
      split; [by apply int_nonneg | done].
    + by left.
Qed.

(** X3.  For all strings: a tag that parses is strictly newer than any tag
    that does not, so a release with a well-formed tag always compares
    greater than an unparseable local version, and never the other way. *)
Theorem unparseable_is_oldest (a g : string) :
  parse_semver g = unparseable → parse_semver a ≠ unparseable →
  compare_versions a g = 1 ∧ compare_versions g a = -1.
Proof.
  intros Hg Ha. unfold compare_versions, version_gtb. cbv zeta. rewrite Hg.
  destruct (parse_semver_range a) as [Hu | (x & y & z & -> & Hx & Hy & Hz)];
    [done |].
  unfold unparseable, version_ltb.
  assert ((-1 <? x) = true) as -> by lia.
  assert ((x <? -1) = false) as -> by lia.
  assert ((x =? -1) = false) as -> by lia.
  split; reflexivity.
Qed.

Lemma unparseable_is_oldest_witness :
  compare_versions "0.0.1" "nightly" = 1 ∧ compare_versions "nightly" "0.0.1" = -1.
Proof.
  apply (unparseable_is_oldest "0.0.1" "nightly"); [reflexivity | discriminate].
Defined.

(** ** The comparison as an order *)

Lemma compare_versions_nonneg a b :
  0 ≤ compare_versions a b ↔ version_ltb (parse_semver a) (parse_semver b) = false.
Proof.
  unfold compare_versions, version_gtb. cbv zeta.
  destruct (version_ltb (parse_semver a) (parse_semver b)) eqn:Hab.
  - rewrite (version_ltb_asym _ _ Hab). simpl. split; [lia | done].
  - destruct (version_ltb (parse_semver b) (parse_semver a)); simpl; split; (lia || done).
Qed.

(** X4.  [compare_versions] is a total preorder on tags: its result is -1,
    0 or 1; it is 0 exactly when the two tags parse to the same triple; and
    "not older than" is transitive. *)
Theorem compare_versions_preorder (a b c : string) :
  (compare_versions a b = -1 ∨ compare_versions a b = 0 ∨ compare_versions a b = 1)
  ∧ (compare_versions a b = 0 ↔ parse_semver a = parse_semver b)
  ∧ (0 ≤ compare_versions a b → 0 ≤ compare_versions b c →
     0 ≤ compare_versions a c).
Proof.
  split; [| split].
  - unfold compare_versions, version_gtb. cbv zeta.
    destruct (version_ltb (parse_semver a) (parse_semver b)) eqn:Hab.
    + rewrite (version_ltb_asym _ _ Hab). auto.
    + destruct (version_ltb (parse_semver b) (parse_semver a)); auto.
  - unfold compare_versions, version_gtb. cbv zeta. split.
    + destruct (version_ltb (parse_semver a) (parse_semver b)) eqn:Hab.
      * rewrite (version_ltb_asym _ _ Hab). done.
      * destruct (version_ltb (parse_semver b) (parse_semver a)) eqn:Hba; [done |].
        intros _. by apply version_ltb_total.
    + intros ->. by rewrite version_ltb_irrefl.
  - rewrite !compare_versions_nonneg. intros Hab Hbc.
    assert (version_leb (parse_semver c) (parse_semver a) = true) as H.
    { apply (version_leb_trans _ (parse_semver b)); unfold version_leb.
      - by rewrite Hbc.
      - by rewrite Hab. }
    unfold version_leb in H. by apply negb_true_iff in H.
Qed.

Lemma compare_versions_preorder_witness :
  0 ≤ compare_versions "2.0" "1.9.9" ∧ 0 ≤ compare_versions "1.9.9" "v1.9.9-rc1"
  ∧ 0 ≤ compare_versions "2.0" "v1.9.9-rc1".
Proof.
  assert (0 ≤ compare_versions "2.0" "1.9.9") as H1
    by (replace (compare_versions "2.0" "1.9.9") with 1 by reflexivity; lia).
  assert (0 ≤ compare_versions "1.9.9" "v1.9.9-rc1") as H2
    by (replace (compare_versions "1.9.9" "v1.9.9-rc1") with 0 by reflexivity; lia).
  split; [exact H1 |]. split; [exact H2 |].
  exact (proj2 (proj2 (compare_versions_preorder "2.0" "1.9.9" "v1.9.9-rc1")) H1 H2).
Defined.

(** ** Asset lookup *)

Lemma find_asset_in_Some l n a :
  find_asset_in l n = Some a ↔
  ∃ pre post, l = pre ++ a :: post ∧ name a = n ∧ Forall (λ b, name b ≠ n) pre.
Proof.
  induction l as [|x l IH]; simpl.
  - split; [done |]. intros (pre & post & H & _). by destruct pre.
  - destruct (String.eqb (name x) n) eqn:Hx.
    + apply String.eqb_eq in Hx. split.
      * intros [= <-]. exists [], l. by repeat split.
      * intros (pre & post & H & Ha & Hpre). destruct pre as [|y pre].
        -- by injection H as -> _.
        -- injection H as -> _. by apply Forall_cons in Hpre as [Hy _].
    + apply String.eqb_neq in Hx. rewrite IH. split.
      * intros (pre & post & -> & Ha & Hpre). exists (x :: pre), post.
        repeat split; [done |]. by apply Forall_cons.
      * intros (pre & post & H & Ha & Hpre). destruct pre as [|y pre].
        -- injection H as -> _. done.
        -- injection H as -> ->. apply Forall_cons in Hpre as [_ Hpre].
           by exists pre, post.
Qed.

Lemma find_asset_in_None l n :
  find_asset_in l n = None ↔ Forall (λ b, name b ≠ n) l.
Proof.
  induction l as [|x l IH]; simpl.
  - split; [by constructor | done].
  - destruct (String.eqb (name x) n) eqn:Hx.
    + apply String.eqb_eq in Hx. split; [done |].
      intros H. by apply Forall_cons in H as [H _].
    + apply String.eqb_neq in Hx. rewrite IH. split.
      * intros H. by apply Forall_cons.
      * intros H. by apply Forall_cons in H as [_ H].
Qed.

(** X5.  [find_asset] returns the first asset of the release, in the order
    of the listing, whose name equals the requested name (names are compared
    exactly, case included), and it returns nothing exactly when no asset of
    the release has that name. *)
Theorem find_asset_first_match (r : release) (n : string) :
  (∀ a, find_asset r n = Some a ↔
        ∃ pre post, assets r = pre ++ a :: post ∧ name a = n
                    ∧ Forall (λ b, name b ≠ n) pre)
  ∧ (find_asset r n = None ↔ Forall (λ b, name b ≠ n) (assets r)).
Proof.
  split; [intros a; apply find_asset_in_Some | apply find_asset_in_None].
Qed.

(** ** Which of several equal releases is chosen *)

Section FirstMaximal.
Context {A : Type} (key : A → version).

Lemma head_sort_desc_first l x :
  head (sort_desc key l) = Some x →
  ∃ pre post, l = pre ++ x :: post
    ∧ Forall (λ y, version_ltb (key y) (key x) = true) pre
    ∧ Forall (λ y, version_leb (key y) (key x) = true) post.
Proof.
  revert x. induction l as [|y l IH]; intros x; [done |]. simpl.
  destruct (sort_desc key l) as [|h s] eqn:Hs.
  - apply sort_desc_nil_inv in Hs as ->. simpl. intros [= <-].
    exists [], []. by repeat split.
  - simpl. destruct (IH h eq_refl) as (pre & post & -> & Hpre & Hpost).
    destruct (version_leb (key h) (key y)) eqn:Hhy; simpl; intros [= <-].
    + exists [], (pre ++ h :: post). split; [done |]. split; [by constructor |].
      apply Forall_app. split; [| apply Forall_cons; split; [done |]].
      * eapply Forall_impl; [exact Hpre |]. simpl. intros z Hz.
        apply (version_leb_trans _ (key h)); [| done].
        unfold version_leb. by rewrite (version_ltb_asym _ _ Hz).
      * eapply Forall_impl; [exact Hpost |]. simpl. intros z Hz.
        by apply (version_leb_trans _ (key h)).
    + exists (y :: pre), post. split; [done |]. split; [| done].
      apply Forall_cons. split; [| done].
      unfold version_leb in Hhy. by apply negb_false_iff in Hhy.
Qed.
End FirstMaximal.

(** X6.  Among the releases that pass the draft and prerelease filter,
    [get_latest_release] returns the first one, in the order of the API
    listing, whose version is maximal: every candidate listed before it is
    strictly older, every candidate listed after it is older or equal.  So
    of two candidates with equal versions (for instance "1.2.0" and
    "v1.2.0-rc1") the one listed first wins. *)
Theorem get_latest_release_first_maximal (E : env) (repo : string) (incl : bool)
    (f f' : gmap string node) (t : list event) (r : release) :
  get_latest_release E repo incl f = (Ok (Some r), f', t) →
  ∃ releases pre post,
    api E (releases_url repo) = Ok releases
    ∧ candidates incl releases = pre ++ r :: post
    ∧ Forall (λ r', version_ltb (release_key r') (release_key r) = true) pre
    ∧ Forall (λ r', version_leb (release_key r') (release_key r) = true) post.
Proof.
  intros H. apply get_latest_release_inv in H as (releases & Hapi & Hr & _).
  exists releases. symmetry in Hr. unfold latest_of in Hr.
  destruct (candidates incl releases) as [|c0 cs] eqn:Hc; [done |].
  apply head_sort_desc_first in Hr as (pre & post & Heq & Hpre & Hpost).
  by exists pre, post.
Qed.

Lemma get_latest_release_first_maximal_witness :
  ∃ pre post,
    candidates true
      [Sample.rel_100_bare; Sample.rel_130_beta; Sample.rel_200_draft;
       {| tag_name := Some "1.3.0"; draft := false; prerelease := false; assets := [] |}]
    = pre ++ Sample.rel_130_beta :: post
    ∧ Forall (λ r', version_ltb (release_key r') (release_key Sample.rel_130_beta) = true) pre.
Proof.
  destruct (get_latest_release_first_maximal
              (Sample.env_with
                 [Sample.rel_100_bare; Sample.rel_130_beta; Sample.rel_200_draft;
                  {| tag_name := Some "1.3.0"; draft := false; prerelease := false;
                     assets := [] |}] "" (λ _, false))
              "owner/demo" true ∅ ∅ [EvHttpGet (releases_url "owner/demo")]
              Sample.rel_130_beta eq_refl)
    as (releases & pre & post & Hapi & Hc & Hpre & _).
  injection Hapi as <-. by exists pre, post.
Defined.

(** ** Platform identifiers *)

Lemma lower_char_idem c : Str.lower_char (Str.lower_char c) = Str.lower_char c.
Proof. destruct c as [[] [] [] [] [] [] [] []]; reflexivity. Qed.

Lemma lower_idem s : Str.lower (Str.lower s) = Str.lower s.
Proof. induction s as [|c s IH]; [done |]. simpl. by rewrite lower_char_idem, IH. Qed.

(** X7.  [norm_os] answers "windows", "macos" or "linux" and nothing else,
    and each of the three is a fixed point: a platform that reports one of
    these identifiers as its system name is given the same identifier. *)
Theorem norm_os_canonical (E E' : env) :
  platform_system E' = norm_os E →
  norm_os E' = norm_os E
  ∧ (norm_os E = "windows" ∨ norm_os E = "macos" ∨ norm_os E = "linux").
Proof.
  intros H.
  assert (norm_os E = "windows" ∨ norm_os E = "macos" ∨ norm_os E = "linux") as Hr.
  { unfold norm_os. cbv zeta.
    destruct (Fmt.contains "windows" (Str.lower (platform_system E))); [by auto |].
    destruct (Fmt.contains "darwin" (Str.lower (platform_system E))
              || Fmt.contains "mac" (Str.lower (platform_system E))); by auto. }
  split; [| exact Hr].
  unfold norm_os at 1. cbv zeta. rewrite H.
  destruct Hr as [-> | [-> | ->]]; reflexivity.
Qed.

Lemma norm_os_canonical_witness :
  norm_os Sample.E = "linux" ∧ norm_os canonical_platform = "linux".
Proof.
  split; [reflexivity |].
  exact (proj1 (norm_os_canonical Sample.E canonical_platform eq_refl)).
Defined.

(** X8.  The identifier returned by [norm_arch] is in lower case and is a
    fixed point of the normalisation: a machine that reports an identifier
    [norm_arch] has produced is given that identifier again, whether it is
    one of the four canonical names or an unknown name passed through. *)
Theorem norm_arch_idempotent (E E' : env) :
  platform_machine E' = norm_arch E →
  norm_arch E' = norm_arch E ∧ Str.lower (norm_arch E) = norm_arch E.
Proof.
  intros H. unfold norm_arch at 1. cbv zeta. rewrite H. clear H.
  unfold norm_arch. cbv zeta. set (m := Str.lower (platform_machine E)).
  assert (Str.lower m = m) as Hm by apply lower_idem.
  destruct (existsb (String.eqb m) ["amd64"; "x86_64"; "x64"]) eqn:H1; [done |].
  destruct (existsb (String.eqb m) ["aarch64"; "arm64"]) eqn:H2; [done |].
  destruct (existsb (String.eqb m) ["armv7l"; "armv7"; "arm32"; "arm"]) eqn:H3; [done |].
  destruct (existsb (String.eqb m) ["i386"; "i686"; "x86"]) eqn:H4; [done |].
  by rewrite Hm, H1, H2, H3, H4.
Qed.

Lemma norm_arch_idempotent_witness :
  norm_arch Sample.E = "x64" ∧ norm_arch canonical_platform = "x64".
Proof.
  split; [reflexivity |].
  exact (proj1 (norm_arch_idempotent Sample.E canonical_platform eq_refl)).
Defined.

(** ** Errors that leave [run_update] before anything is touched *)

Section EarlyErrors.
Variables (E : env) (c : config) (f : gmap string node) (asset_name : string).

Hypothesis format_ok :
  str_format E (asset_pattern c) (app_name c) (norm_os E) (norm_arch E)
  = Ok asset_name.

(** The run up to the request to the releases endpoint, when the state
    reads as a record. *)
Lemma run_update_request d r :
  local_state E c f = JObj d →
  api E (releases_url (repo c)) = r →
  run_update E c f =
  prefixed (preamble c asset_name (py_str E (version_field d)))
    (match r with
     | Raise e => (Raise e, f, [])
     | Ok releases =>
         match latest_of (include_prereleases c) releases with
         | None => (Ok false, f, [EvLog "No suitable releases found."])
         | Some rel =>
             prefixed [announce rel]
               (bind (compare_with (release_tag rel) (version_field d))
                  (λ cmp,
                     if (cmp <? 0) && negb (allow_downgrade c) then
                       log "Remote version is older; skipping (use --allow-downgrade to force).";;
                       ret false
                     else if cmp =? 0 then log "Already up to date.";; ret false
                     else resolve_and_install E c rel (release_tag rel) (JObj d)
                            asset_name) f)
         end
     end).
Proof.
  intros Hstate Hapi. unfold run_update. cbv zeta.
  rewrite (bind_Ok _ _ f asset_name f []) by (by rewrite format_ok).
  rewrite (bind_Ok _ _ f (load_json E (JObj []) (f !! version_file c)) f [])
    by reflexivity.
  fold (local_state E c f). rewrite Hstate.
  rewrite (bind_Ok _ _ f (version_field d) f []) by reflexivity.
  rewrite (bind_Ok _ _ f () f [EvLog ("Current version: " +:+ py_str E (version_field d))])
    by reflexivity.
  rewrite (bind_Ok _ _ f () f
             [EvLog ("Repo: " +:+ repo c +:+ ", asset pattern -> " +:+ asset_name)])
    by reflexivity.
  rewrite !prefixed_prefixed. simpl app.
  destruct r as [releases | e].
  - rewrite (bind_Ok _ _ f (latest_of (include_prereleases c) releases) f
               [EvHttpGet (releases_url (repo c))]).
    2: { unfold get_latest_release, http_get_json, bind, emit, lift, ret.
         by rewrite Hapi. }
    rewrite !prefixed_prefixed. simpl app.
    destruct (latest_of (include_prereleases c) releases) as [rel |]; [| reflexivity].
    rewrite (bind_Ok _ _ f () f [announce rel]) by reflexivity.
    by rewrite !prefixed_prefixed.
  - rewrite (bind_Raise _ _ f e f [EvHttpGet (releases_url (repo c))]).
    2: { unfold get_latest_release, http_get_json, bind, emit, lift, raise.
         by rewrite Hapi. }
    reflexivity.
Qed.
End EarlyErrors.

(** X9.  A failure of the request to the releases endpoint (network error,
    HTTP error, malformed answer) is not handled inside [run_update]: the
    exception leaves the function as it is, after the two opening log lines
    and the request, with the file system exactly as before; the process
    ends with status 1. *)
Theorem api_failure_escapes (E : env) (c : config) (f : gmap string node)
    (asset_name : string) (d : list (string * json)) (e : exn) :
  str_format E (asset_pattern c) (app_name c) (norm_os E) (norm_arch E)
    = Ok asset_name →
  local_state E c f = JObj d →
  api E (releases_url (repo c)) = Raise e →
  run_update E c f
  = (Raise e, f, preamble c asset_name (py_str E (version_field d)))
  ∧ exit_status (run_update E c f).1.1 = 1.
Proof.
  intros Hfmt Hstate Hapi.
  rewrite (run_update_request E c f asset_name Hfmt d (Raise e) Hstate Hapi).
  split; reflexivity.
Qed.

Lemma api_failure_escapes_witness :
  run_update unreachable_api Sample.cfg Sample.fs_installed
  = (Raise (URLError "timed out"), Sample.fs_installed,
     preamble Sample.cfg "demo-linux-x64.zip" "1.0.0").
Proof.
  exact (proj1 (api_failure_escapes unreachable_api Sample.cfg Sample.fs_installed
                  "demo-linux-x64.zip"
                  [("channel", JStr "stable"); ("version", JStr "1.0.0")]
                  (URLError "timed out") eq_refl eq_refl eq_refl)).
Defined.

(** X10.  A state file that holds a JSON value other than an object, and
    one that counts as true (a non-empty string or list, a non-zero number,
    [true]), makes [run_update] fail with an [AttributeError] at the lookup
    of the version, before anything is printed or requested and with the
    file system untouched.  (A false value, such as [null], [0] or an empty
    list, is replaced by an empty record instead.) *)
Theorem non_record_state_raises (E : env) (c : config) (f : gmap string node)
    (asset_name : string) (j : json) :
  str_format E (asset_pattern c) (app_name c) (norm_os E) (norm_arch E)
    = Ok asset_name →
  load_json E (JObj []) (f !! version_file c) = j →
  json_truthy j = true →
  (∀ d, j ≠ JObj d) →
  ∃ msg, run_update E c f = (Raise (AttributeError msg), f, []).
Proof.
  intros Hfmt Hj Htrue Hnd. exists "get". unfold run_update. cbv zeta.
  rewrite (bind_Ok _ _ f asset_name f []) by (by rewrite Hfmt).
  rewrite (bind_Ok _ _ f j f []) by (unfold read_json, bind, get_fs, ret; simpl; by rewrite Hj).
  rewrite Htrue. unfold prefixed. simpl.
  destruct j; try reflexivity. by destruct (Hnd fields).
Qed.

Lemma non_record_state_raises_witness :
  ∃ msg,
    run_update Sample.E Sample.cfg
      (<["/opt/demo/version.json" := File (Json (JStr "1.0.0"))]> Sample.fs_installed)
    = (Raise (AttributeError msg),
       <["/opt/demo/version.json" := File (Json (JStr "1.0.0"))]> Sample.fs_installed,
       []).
Proof.
  apply (non_record_state_raises Sample.E Sample.cfg _ "demo-linux-x64.zip"
           (JStr "1.0.0")); [reflexivity | reflexivity | reflexivity | discriminate].
Defined.

(** X11.  When the state record holds a [version] that is not a string (a
    number, say), the run prints it, asks for the releases, and then: with
    no suitable release it returns false as usual; with a candidate release
    it fails with an [AttributeError] at the comparison, after announcing
    the release, with nothing downloaded and the file system untouched. *)
Theorem non_string_version_raises (E : env) (c : config) (f : gmap string node)
    (asset_name : string) (d : list (string * json)) (releases : list release) :
  str_format E (asset_pattern c) (app_name c) (norm_os E) (norm_arch E)
    = Ok asset_name →
  local_state E c f = JObj d →
  (∀ s, version_field d ≠ JStr s) →
  api E (releases_url (repo c)) = Ok releases →
  match latest_of (include_prereleases c) releases with
  | None =>
      run_update E c f
      = (Ok false, f,
         preamble c asset_name (py_str E (version_field d))
         ++ [EvLog "No suitable releases found."])
  | Some rel =>
      ∃ msg,
        run_update E c f
        = (Raise (AttributeError msg), f,
           preamble c asset_name (py_str E (version_field d)) ++ [announce rel])
  end.
Proof.
  intros Hfmt Hstate Hns Hapi.
  rewrite (run_update_request E c f asset_name Hfmt d (Ok releases) Hstate Hapi).
  destruct (latest_of (include_prereleases c) releases) as [rel |]; [| reflexivity].
  exists "startswith".
  destruct (version_field d) as [| | | | s | |] eqn:Hv; try reflexivity.
  by destruct (Hns s).
Qed.

Lemma non_string_version_raises_witness :
  ∃ msg,
    (run_update Sample.E Sample.cfg
       (<["/opt/demo/version.json" := File (Json (JObj [("version", JInt 1)]))]>
          Sample.fs_installed)).1.1
    = Raise (AttributeError msg).
Proof.
  assert (local_state Sample.E Sample.cfg
            (<["/opt/demo/version.json" := File (Json (JObj [("version", JInt 1)]))]>
               Sample.fs_installed)
          = JObj [("version", JInt 1)]) as Hstate by (vm_compute; reflexivity).
  destruct (non_string_version_raises Sample.E Sample.cfg _
              "demo-linux-x64.zip" [("version", JInt 1)]
              [Sample.rel_130_beta; Sample.rel_120; Sample.rel_200_draft]
              eq_refl Hstate ltac:(discriminate) eq_refl) as [msg Hrun].
  exists msg. by rewrite Hrun.
Defined.

(** ** The atomic write of the state file *)

Lemma tmp_sibling_differs (path : string) : path +:+ ".tmp" ≠ path.
Proof.
  intros H. apply (f_equal String.length) in H. rewrite length_append in H.
  simpl in H. lia.
Qed.

Section AtomicWrite.
Variables (E : env) (path : string) (data : json) (f : gmap string node).

Let tmp : string := path +:+ ".tmp".

Lemma write_file_run a p c :
  write_file E a p c f =
  if match a with Some a0 => fault E a0 | None => false end
  then (Raise (OSError ("cannot open: " +:+ p)), f, [])
  else match f !! p with
       | Some (Dir _) => (Raise (OSError ("is a directory: " +:+ p)), f, [])
       | _ => (Ok (), <[p := File c]> f, [EvWrite p])
       end.
Proof.
  unfold write_file, bind, get_fs, put_fs, emit, raise. simpl.
  destruct (match a with Some a0 => fault E a0 | None => false end); [done |].
  by destruct (f !! p) as [[? | ?] |].
Qed.

Lemma os_replace_run a src dst g :
  os_replace E a src dst g =
  if fault E a then (Raise (OSError ("replace refused: " +:+ src)), g, [])
  else match g !! src with
       | None => (Raise (FileNotFoundError src), g, [])
       | Some n =>
           if can_replace n (g !! dst)
           then (Ok (), <[dst := n]> (delete src g), [EvReplace src dst])
           else (Raise (OSError ("cannot replace: " +:+ dst)), g, [])
       end.
Proof.
  unfold os_replace, bind, get_fs, put_fs, emit, raise. simpl.
  destruct (fault E a); [done |].
  destruct (g !! src) as [n |]; [| done].
  by destruct (can_replace n (g !! dst)).
Qed.

(** The whole of [write_json_atomic], case by case. *)
Lemma write_json_atomic_run :
  write_json_atomic E path data f =
  if fault E AtWriteTmp then (Raise (OSError ("cannot open: " +:+ tmp)), f, [])
  else match f !! tmp with
       | Some (Dir _) => (Raise (OSError ("is a directory: " +:+ tmp)), f, [])
       | _ =>
           match json_dump_error E data with
           | Some written =>
               (Raise (UnicodeEncodeError "surrogates not allowed"),
                <[tmp := File (Text written)]> f, [EvWrite tmp])
           | None =>
               if fault E AtReplace
               then (Raise (OSError ("replace refused: " +:+ tmp)),
                     <[tmp := File (Json data)]> f, [EvWrite tmp])
               else match f !! path with
                    | Some (Dir _) =>
                        (Raise (OSError ("cannot replace: " +:+ path)),
                         <[tmp := File (Json data)]> f, [EvWrite tmp])
                    | _ =>
                        (Ok (), <[path := File (Json data)]> (delete tmp f),
                         [EvWrite tmp; EvReplace tmp path])
                    end
           end
       end.
Proof.
  pose proof (tmp_sibling_differs path) as Hne. fold tmp in Hne.
  unfold write_json_atomic. cbv zeta. fold tmp.
  destruct (json_dump_error E data) as [written |].
  { pose proof (write_file_run (Some AtWriteTmp) tmp (Text written)) as Hw.
    destruct (fault E AtWriteTmp).
    { by rewrite (bind_Raise _ _ f _ _ _ Hw). }
    destruct (f !! tmp) as [[ct | es] |].
    - by rewrite (bind_Ok _ _ f _ _ _ Hw).
    - by rewrite (bind_Raise _ _ f _ _ _ Hw).
    - by rewrite (bind_Ok _ _ f _ _ _ Hw). }
  pose proof (write_file_run (Some AtWriteTmp) tmp (Json data)) as Hw.
  destruct (fault E AtWriteTmp).
  { by rewrite (bind_Raise _ _ f _ _ _ Hw). }
  assert (∀ g, g = <[tmp := File (Json data)]> f →
            os_replace E AtReplace tmp path g =
            if fault E AtReplace
            then (Raise (OSError ("replace refused: " +:+ tmp)), g, [])
            else match f !! path with
                 | Some (Dir _) => (Raise (OSError ("cannot replace: " +:+ path)), g, [])
                 | _ => (Ok (), <[path := File (Json data)]> (delete tmp f),
                         [EvReplace tmp path])
                 end) as Hr.
  { intros g ->. rewrite os_replace_run. destruct (fault E AtReplace); [done |].
    rewrite lookup_insert_eq, lookup_insert_ne by done.
    rewrite delete_insert_eq.
    by destruct (f !! path) as [[? | ?] |]. }
  destruct (f !! tmp) as [[ct | es] |].
  - rewrite (bind_Ok _ _ f _ _ _ Hw), (Hr _ eq_refl).
    destruct (fault E AtReplace); [done |]. by destruct (f !! path) as [[? | ?] |].
  - by rewrite (bind_Raise _ _ f _ _ _ Hw).
  - rewrite (bind_Ok _ _ f _ _ _ Hw), (Hr _ eq_refl).
    destruct (fault E AtReplace); [done |]. by destruct (f !! path) as [[? | ?] |].
Qed.
End AtomicWrite.

(** X12.  For a path given in absolute normalised form and a value that
    [json.dump] can encode: when the operating system refuses neither the
    creation of the temporary sibling nor the replacement, and neither
    path is a directory, [write_json_atomic] succeeds; afterwards
    [read_json] on the path yields the value written (whatever default is
    given), the temporary sibling is gone, and every other path holds what
    it held before. *)
Theorem write_json_atomic_round_trip (E : env) (path : string) (data dflt : json)
    (f : gmap string node) :
  Path.plain path = true →
  json_dump_error E data = None →
  fault E AtWriteTmp = false → fault E AtReplace = false →
  (∀ es, f !! (path +:+ ".tmp") ≠ Some (Dir es)) →
  (∀ es, f !! path ≠ Some (Dir es)) →
  ∃ f',
    write_json_atomic E path data f
    = (Ok (), f', [EvWrite (path +:+ ".tmp"); EvReplace (path +:+ ".tmp") path])
    ∧ read_json E path dflt f' = (Ok data, f', [])
    ∧ f' !! (path +:+ ".tmp") = None
    ∧ ∀ q, Path.canonical q = true → q ≠ path → q ≠ path +:+ ".tmp" →
           f' !! q = f !! q.
Proof.
  intros _ Henc Hw Hr Htmp Hpath.
  pose proof (tmp_sibling_differs path) as Hne.
  exists (<[path := File (Json data)]> (delete (path +:+ ".tmp") f)).
  split; [| split; [| split]].
  - rewrite write_json_atomic_run, Hw, Hr, Henc.
    destruct (f !! (path +:+ ".tmp")) as [[? | es] |] eqn:H1;
      try (by destruct (Htmp es));
      destruct (f !! path) as [[? | es'] |] eqn:H2; try done; by destruct (Hpath es').
  - unfold read_json, bind, get_fs, ret. simpl. by rewrite lookup_insert_eq.
  - by rewrite lookup_insert_ne, lookup_delete_eq.
  - intros q _ Hq1 Hq2. by rewrite lookup_insert_ne, lookup_delete_ne.
Qed.

Lemma write_json_atomic_round_trip_witness :
  ∃ f',
    (write_json_atomic Sample.E "/opt/demo/version.json" (JObj [("version", JStr "1.2.0")])
       Sample.fs_installed).1.2 = f'
    ∧ read_json Sample.E "/opt/demo/version.json" JNull f'
      = (Ok (JObj [("version", JStr "1.2.0")]), f', []).
Proof.
  destruct (write_json_atomic_round_trip Sample.E "/opt/demo/version.json"
              (JObj [("version", JStr "1.2.0")]) JNull Sample.fs_installed
              eq_refl eq_refl eq_refl eq_refl)
    as (f' & Hrun & Hread & _).
  - intros es. vm_compute. discriminate.
  - intros es. vm_compute. discriminate.
  - exists f'. rewrite Hrun. by split.
Defined.

(** X13.  For a path given in absolute normalised form: when
    [write_json_atomic] fails, the exception is an [OSError], or it is the
    [UnicodeEncodeError] (a [ValueError]) that [json.dump] raises on a value
    it cannot encode; no file has been replaced, and the file at the path
    is as it was: the only path that may have changed is the temporary
    sibling, which a refused replacement leaves behind with the new text
    and a failed encoding leaves behind truncated. *)
Theorem write_json_atomic_failure (E : env) (path : string) (data : json)
    (f f' : gmap string node) (e : exn) (t : list event) :
  Path.plain path = true →
  write_json_atomic E path data f = (Raise e, f', t) →
  (is_OSError e = true
   ∨ (is_ValueError e = true ∧ ∃ written,
        json_dump_error E data = Some written
        ∧ f' !! (path +:+ ".tmp") = Some (File (Text written))))
  ∧ f' !! path = f !! path
  ∧ (∀ q, Path.canonical q = true → q ≠ path +:+ ".tmp" → f' !! q = f !! q)
  ∧ quiet t.
Proof.
  intros _.
  pose proof (tmp_sibling_differs path) as Hne.
  rewrite write_json_atomic_run. intros H.
  set (tmp := path +:+ ".tmp") in *.
  assert ((is_OSError e = true
           ∨ (is_ValueError e = true ∧ ∃ written,
                json_dump_error E data = Some written
                ∧ f' !! tmp = Some (File (Text written))))
          ∧ (∀ q, q ≠ tmp → f' !! q = f !! q)
          ∧ quiet t) as (He & Hframe & Hq).
  { destruct (fault E AtWriteTmp).
    { injection H as <- <- <-. split; [by left |]. split; [done | apply quiet_nil]. }
    assert (quiet [EvWrite tmp]) as Hq1 by (apply quiet_one; intros; discriminate).
    assert (∀ c q, q ≠ tmp → <[tmp := File c]> f !! q = f !! q) as Hone.
    { intros c q Hq. by rewrite lookup_insert_ne. }
    assert (match json_dump_error E data with
            | Some written =>
                (Raise (UnicodeEncodeError "surrogates not allowed"),
                 <[tmp := File (Text written)]> f, [EvWrite tmp])
            | None =>
                if fault E AtReplace
                then (Raise (OSError ("replace refused: " +:+ tmp)),
                      <[tmp := File (Json data)]> f, [EvWrite tmp])
                else match f !! path with
                     | Some (Dir _) =>
                         (Raise (OSError ("cannot replace: " +:+ path)),
                          <[tmp := File (Json data)]> f, [EvWrite tmp])
                     | _ =>
                         (Ok (), <[path := File (Json data)]> (delete tmp f),
                          [EvWrite tmp; EvReplace tmp path])
                     end
            end = (Raise e, f', t) →
            (is_OSError e = true
             ∨ (is_ValueError e = true ∧ ∃ written,
                  json_dump_error E data = Some written
                  ∧ f' !! tmp = Some (File (Text written))))
            ∧ (∀ q, q ≠ tmp → f' !! q = f !! q)
            ∧ quiet t) as Hcase.
    { destruct (json_dump_error E data) as [written |].
      - intros [= <- <- <-]. split; [| split; [apply Hone | done]].
        right. split; [done |]. exists written. by rewrite lookup_insert_eq.
      - destruct (fault E AtReplace).
        + intros [= <- <- <-]. split; [by left |]. split; [apply Hone | done].
        + destruct (f !! path) as [[? | ?] |]; try done.
          intros [= <- <- <-]. split; [by left |]. split; [apply Hone | done]. }
    destruct (f !! tmp) as [[ct | es] |].
    - by apply Hcase.
    - injection H as <- <- <-. split; [by left |]. split; [done | apply quiet_nil].
    - by apply Hcase. }
  split; [done |]. split; [apply Hframe; congruence |].
  split; [| done]. intros q _. apply Hframe.
Qed.

Lemma write_json_atomic_failure_witness :
  (write_json_atomic Sample.E "/opt/demo/app" JNull Sample.fs_installed).1.2
    !! "/opt/demo/app"
  = Sample.fs_installed !! "/opt/demo/app".
Proof.
  exact (proj1 (proj2 (write_json_atomic_failure Sample.E "/opt/demo/app" JNull
                         Sample.fs_installed _ _ _ eq_refl eq_refl))).
Defined.

(** ** The backup paths lie apart from the application directory *)

Section BackupApart.
Import Path.

Lemma prefix_inv a p : String.prefix a p = true → ∃ r, p = a +:+ r.
Proof.
  revert p. induction a as [|c a IH]; intros p H.
  - exists p. by rewrite append_nil_l.
  - destruct p as [|d p]; [done |]. simpl in H.
    destruct (ascii_dec c d) as [<- | ?]; [| done].
    destruct (IH p H) as [r ->]. exists r. by rewrite append_cons.
Qed.

Lemma head_basename p : head p +:+ basename p = p.
Proof.
  induction p as [|c p IH]; [done |]. simpl.
  destruct (has_slash p).
  - by rewrite append_cons, IH.
  - destruct (is_slash c); [by rewrite append_cons, append_nil_l |].
    by rewrite append_nil_l.
Qed.

Lemma head_no_slash p : has_slash p = false → head p = "".
Proof.
  destruct p as [|c p]; [done |]. simpl. intros H.
  apply orb_false_elim in H as [Hc Hp]. by rewrite Hp, Hc.
Qed.

Lemma head_after_slash a r : head (a +:+ String "/" r) = a +:+ String "/" (head r).
Proof.
  induction a as [|c a IH].
  - rewrite !append_nil_l. simpl. destruct (has_slash r) eqn:Hr; [done |].
    by rewrite head_no_slash.
  - rewrite !append_cons. simpl. rewrite has_slash_app. simpl.
    rewrite orb_true_r. by rewrite IH.
Qed.

Lemma rstrip_slash_keeps a c s :
  is_slash c = false →
  (String.length a + 1 ≤ String.length (rstrip_slash (a +:+ String c s)))%nat.
Proof.
  intros Hc. induction a as [|d a IH].
  - rewrite append_nil_l. simpl. rewrite Hc.
    destruct (rstrip_slash s); simpl; lia.
  - rewrite append_cons. simpl.
    destruct (rstrip_slash (a +:+ String c s)) as [|e r] eqn:Hr; simpl in *; lia.
Qed.

Lemma rstrip_slash_shorter s : (String.length (rstrip_slash s) ≤ String.length s)%nat.
Proof.
  induction s as [|c s IH]; [done |]. simpl.
  destruct (rstrip_slash s); [destruct (is_slash c) |]; simpl in *; lia.
Qed.

Lemma all_slashes_app_false a c s : is_slash c = false → all_slashes (a +:+ String c s) = false.
Proof.
  intros Hc. induction a as [|d a IH].
  - rewrite append_nil_l. simpl. by rewrite Hc.
  - rewrite append_cons. simpl. by rewrite IH, andb_false_r.
Qed.

Lemma truthy_app_cons a c s : Str.truthy (a +:+ String c s) = true.
Proof. destruct a; [by rewrite append_nil_l | by rewrite append_cons]. Qed.

Lemma last_char_no_slash x :
  x ≠ "" → has_slash x = false → ∃ x' c, x = x' +:+ String c "" ∧ is_slash c = false.
Proof.
  induction x as [|c x IH]; [done |]. intros _ H. simpl in H.
  apply orb_false_elim in H as [Hc Hx].
  destruct x as [|d x].
  - exists "", c. by rewrite append_nil_l.
  - destruct (IH ltac:(done) Hx) as (x' & e & -> & He).
    exists (String c x'), e. by rewrite append_cons.
Qed.

Lemma dirname_shorter p : (String.length (dirname p) ≤ String.length (head p))%nat.
Proof.
  unfold dirname. cbv zeta.
  destruct (Str.truthy (head p) && negb (all_slashes (head p)));
    [apply rstrip_slash_shorter | done].
Qed.

Lemma head_shorter p : (String.length (head p) ≤ String.length p)%nat.
Proof.
  rewrite <- (head_basename p) at 2. rewrite length_append. lia.
Qed.

(** The last component of a backup path. *)
Lemma backup_name_shape app_dir now :
  let x := basename app_dir +:+ ".backup-" +:+ Fmt.of_Z now in
  x ≠ "" ∧ has_slash x = false ∧ Str.startswith "/" x = false.
Proof.
  cbv zeta. split; [| split].
  - intros H. apply (f_equal String.length) in H.
    rewrite !length_append in H. simpl in H. lia.
  - rewrite !has_slash_app, has_slash_basename, has_slash_of_Z. reflexivity.
  - assert (has_slash (basename app_dir +:+ ".backup-" +:+ Fmt.of_Z now) = false) as H
      by (rewrite !has_slash_app, has_slash_basename, has_slash_of_Z; reflexivity).
    destruct (basename app_dir +:+ ".backup-" +:+ Fmt.of_Z now) as [|c s]; [done |].
    simpl in *. by apply orb_false_elim in H as [H _].
Qed.

(** How [join] puts a relative name after a directory. *)
Lemma join_relative d x :
  Str.startswith "/" x = false →
  ∃ sep, join d x = d +:+ sep +:+ x
         ∧ ((sep = "" ∧ (d = "" ∨ endswith_slash d = true))
            ∨ (sep = "/" ∧ d ≠ "" ∧ endswith_slash d = false)).
Proof.
  intros Hx. unfold join. rewrite Hx.
  destruct (negb (Str.truthy d) || endswith_slash d) eqn:Hcase.
  - exists "". rewrite append_nil_l. split; [done |]. left. split; [done |].
    apply orb_prop in Hcase as [Hd | He]; [left; by destruct d | by right].
  - exists "/". split; [done |]. right. split; [done |].
    apply orb_false_elim in Hcase as [Hd He]. split; [by destruct d | done].
Qed.

Lemma head_ends_with_slash p : head p ≠ "" → endswith_slash (head p) = true.
Proof.
  induction p as [|c p IH]; [done |]. simpl.
  destruct (has_slash p) eqn:Hp.
  - intros _. assert (head p ≠ "") as Hne.
    { destruct p as [|d p]; [done |]. simpl in *.
      destruct (has_slash p); [done |]. by destruct (is_slash d). }
    specialize (IH Hne). simpl. by destruct (head p).
  - destruct (is_slash c) eqn:Hc; [done | done].
Qed.

Lemma append_same_length (a b s t : string) :
  a +:+ s = b +:+ t → String.length a = String.length b → a = b.
Proof.
  revert b. induction a as [|c a IH]; intros [|d b] H Hl; try done.
  rewrite !append_cons in H. injection H as -> H. simpl in Hl.
  f_equal. apply IH; [done | lia].
Qed.

(** The application directory is not inside its backup directory. *)
Lemma app_outside_backup app_dir now :
  is_under (backup_path (dirname app_dir) app_dir now) app_dir = false.
Proof.
  unfold is_under. apply orb_false_intro.
  { apply String.eqb_neq. intros H. symmetry in H. by apply backup_path_fresh in H. }
  destruct (String.prefix _ app_dir) eqn:Hp; [exfalso | done].
  apply prefix_inv in Hp as [r Hr].
  unfold backup_path in Hr.
  destruct (backup_name_shape app_dir now) as (Hne & Hns & Hrel). cbv zeta in *.
  set (x := basename app_dir +:+ ".backup-" +:+ Fmt.of_Z now) in *.
  destruct (join_relative (dirname app_dir) x Hrel) as (sep & Hj & _).
  rewrite Hj in Hr.
  destruct (last_char_no_slash x Hne Hns) as (x' & c & Hx & Hc).
  rewrite Hx in Hr.
  assert (app_dir = (dirname app_dir +:+ sep +:+ x') +:+ String c (String "/" r)) as Happ.
  { rewrite Hr at 1. rewrite !append_assoc. rewrite append_cons, append_nil_l.
    rewrite append_cons, append_nil_l. reflexivity. }
  assert (head app_dir
          = (dirname app_dir +:+ sep +:+ x') +:+ String c (String "/" (head r))) as Hh.
  { rewrite Happ at 1.
    change (String c (String "/" r)) with (String c "" +:+ String "/" r).
    rewrite <- append_assoc, head_after_slash, append_assoc.
    by rewrite append_cons, append_nil_l. }
  assert (dirname app_dir = rstrip_slash (head app_dir)) as Hd.
  { unfold dirname. cbv zeta. rewrite Hh at 1 2.
    rewrite all_slashes_app_false by done.
    by rewrite truthy_app_cons. }
  pose proof (rstrip_slash_keeps (dirname app_dir +:+ sep +:+ x') c
                (String "/" (head r)) Hc) as Hlen.
  rewrite <- Hh, <- Hd in Hlen. rewrite !length_append in Hlen. lia.
Qed.
(** The backup directory is not inside the application directory. *)
Lemma backup_outside_app app_dir now :
  is_under app_dir (backup_path (dirname app_dir) app_dir now) = false.
Proof.
  unfold is_under. apply orb_false_intro.
  { apply String.eqb_neq. apply backup_path_fresh. }
  destruct (String.prefix _ _) eqn:Hp; [exfalso | done].
  apply prefix_inv in Hp as [r Hr]. unfold backup_path in Hr.
  destruct (backup_name_shape app_dir now) as (Hne & Hns & Hrel). cbv zeta in *.
  set (x := basename app_dir +:+ ".backup-" +:+ Fmt.of_Z now) in *.
  destruct (join_relative (dirname app_dir) x Hrel) as (sep & Hj & Hsep).
  rewrite Hj in Hr. rewrite append_assoc in Hr.
  change ("/" +:+ r) with (String "/" r) in Hr.
  pose proof (dirname_shorter app_dir) as Hd1. pose proof (head_shorter app_dir) as Hd2.
  assert (head (dirname app_dir +:+ sep +:+ x) = app_dir +:+ String "/" (head r)) as Hh
    by (by rewrite Hr, head_after_slash).
  destruct Hsep as [[-> Hd] | (-> & Hdne & Hde)].
  - rewrite append_nil_l in Hh, Hr. destruct Hd as [Hd | Hd].
    + rewrite Hd, append_nil_l in Hr.
      apply (f_equal has_slash) in Hr. rewrite Hns, has_slash_app in Hr. simpl in Hr.
      by rewrite orb_true_r in Hr.
    + apply endswith_slash_inv in Hd as [d' Hd'].
      rewrite Hd', append_assoc in Hh. change ("/" +:+ x) with (String "/" x) in Hh.
      rewrite head_after_slash, head_no_slash in Hh by done.
      change (String "/" "") with "/" in Hh. rewrite <- Hd' in Hh.
      apply (f_equal String.length) in Hh. rewrite length_append in Hh.
      simpl in Hh. lia.
  - change ("/" +:+ x) with (String "/" x) in Hh.
    rewrite head_after_slash, head_no_slash in Hh by done.
    assert (String.length (dirname app_dir) = String.length app_dir) as Hlen.
    { apply (f_equal String.length) in Hh. rewrite !length_append in Hh.
      simpl in Hh. lia. }
    apply append_same_length in Hh; [| done].
    assert (head app_dir = app_dir) as Hhead.
    { pose proof (head_basename app_dir) as Hb.
      apply (f_equal String.length) in Hb. rewrite length_append in Hb.
      assert (basename app_dir = "") as Hbe
        by (destruct (basename app_dir); [done | simpl in Hb; lia]).
      rewrite <- (head_basename app_dir) at 2. by rewrite Hbe, append_nil_r. }
    assert (endswith_slash (head app_dir) = true) as He.
    { apply head_ends_with_slash. rewrite Hhead, <- Hh. done. }
    rewrite Hhead, <- Hh in He. congruence.
Qed.
End BackupApart.

(** ** Paths in canonical form *)

Lemma plain_canonical p : Path.plain p = true → Path.canonical p = true.
Proof. unfold Path.plain. by intros [H _]%andb_prop. Qed.

(** [os.path.abspath] leaves a canonical path as it is. *)
Lemma abspath_canonical cwd p : Path.canonical p = true → Path.abspath cwd p = p.
Proof.
  unfold Path.canonical, Path.abspath.
  intros [[[Habs _]%andb_prop _]%andb_prop Hnorm]%andb_prop.
  rewrite Habs. by apply String.eqb_eq.
Qed.

(** For an application directory in canonical form the two backup paths
    are built from the same parent. *)
Lemma swap_backup_canonical E app :
  Path.canonical app = true →
  swap_backup E app = backup_path (Path.dirname app) app (clock_swap E).
Proof. intros H. unfold swap_backup. by rewrite abspath_canonical. Qed.

(** ** The swap and the rollback on the file system *)

Section SwapStates.
Variable E : env.

Lemma os_rename_run a src dst g :
  os_rename E a src dst g =
  if fault E a then (Raise (OSError ("rename refused: " +:+ src)), g, [])
  else match g !! src with
       | None => (Raise (FileNotFoundError src), g, [])
       | Some n =>
           if can_replace n (g !! dst)
           then (Ok (), <[dst := n]> (delete src g), [EvRename src dst])
           else (Raise (OSError ("cannot replace: " +:+ dst)), g, [])
       end.
Proof.
  unfold os_rename, bind, get_fs, put_fs, emit, raise. simpl.
  destruct (fault E a); [done |].
  destruct (g !! src) as [n |]; [| done].
  by destruct (can_replace n (g !! dst)).
Qed.

Lemma os_rename_inv_Raise a src dst g e g' t :
  os_rename E a src dst g = (Raise e, g', t) →
  is_OSError e = true ∧ g' = g ∧ t = [].
Proof.
  rewrite os_rename_run. destruct (fault E a); [by intros [= <- <- <-] |].
  destruct (g !! src) as [n |]; [| by intros [= <- <- <-]].
  destruct (can_replace n (g !! dst)); [done | by intros [= <- <- <-]].
Qed.

(** The removal of a tree, when there is one: it always returns, and
    leaves alone what is outside the tree; a regular file stays. *)
Lemma remove_if_exists_run a root g :
  ∃ g' t,
    bind (path_exists root) (λ ex, when ex (rmtree_ignore E a root)) g = (Ok (), g', t)
    ∧ (∀ p, is_under root p = false → g' !! p = g !! p)
    ∧ (∀ p, g' !! p = None ∨ g' !! p = g !! p)
    ∧ (fault E a = false → (∀ c, g !! root ≠ Some (File c)) → g' !! root = None)
    ∧ (∀ ev, In ev t → ev = EvRmtree root).
Proof.
  rewrite (bind_Ok _ _ g _ g [] (path_exists_run root g)), prefixed_nil.
  destruct (g !! root) as [[c | es] |] eqn:Hroot; unfold when.
  - rewrite rmtree_ignore_run, Hroot. exists g, []. repeat split; try done.
    + intros p. by right.
    + intros _ Hc. by destruct (Hc c).
  - rewrite rmtree_ignore_run, Hroot. destruct (fault E a).
    + exists g, []. repeat split; try done. intros p. by right.
    + eexists _, _. split; [reflexivity |]. repeat split.
      * intros p Hp. by rewrite lookup_rmtree, Hp.
      * intros p. rewrite lookup_rmtree. destruct (is_under root p); auto.
      * intros _ _. by rewrite lookup_rmtree, is_under_refl.
      * by intros ev [<- | []].
  - exists g, []. repeat split; try done. intros p. by right.
Qed.

Lemma when_rmtree_inv a root ex g r g' t :
  when ex (rmtree_ignore E a root) g = (r, g', t) →
  r = Ok () ∧ (∀ p, is_under root p = false → g' !! p = g !! p).
Proof.
  destruct ex; unfold when.
  - rewrite rmtree_ignore_run. destruct (g !! root) as [[c | es] |];
      [by intros [= <- <- <-] | | by intros [= <- <- <-]].
    destruct (fault E a); intros [= <- <- <-]; [done |].
    split; [done |]. intros p Hp. by rewrite lookup_rmtree, Hp.
  - by intros [= <- <- <-].
Qed.

(** The first rename of [safe_swap]: it moves the live tree aside, or there
    is none, or it fails and changes nothing. *)
Lemma when_rename_live_inv app b g r g' t :
  when (match g !! app with Some _ => true | None => false end)
    (os_rename E AtRenameLive app b) g = (r, g', t) →
  (r = Ok ()
   ∧ ((g !! app = None ∧ g' = g)
      ∨ ∃ old, g !! app = Some old ∧ g' = <[b := old]> (delete app g)))
  ∨ (∃ e, r = Raise e ∧ is_OSError e = true ∧ g' = g).
Proof.
  destruct (g !! app) as [old |] eqn:Happ; unfold when.
  - rewrite os_rename_run, Happ.
    destruct (fault E AtRenameLive); [intros [= <- <- <-]; right; by eexists |].
    destruct (can_replace old (g !! b)); intros [= <- <- <-];
      [left; split; [done |]; right; by exists old | right; by eexists].
  - intros [= <- <- <-]. left. split; [done |]. by left.
Qed.

Lemma safe_swap_inv_Ok fin app f b f' t :
  safe_swap E fin app f = (Ok b, f', t) →
  b = swap_backup E app
  ∧ ∃ f1 f2 n,
      (∀ p, is_under b p = false → f1 !! p = f !! p)
      ∧ ((f1 !! app = None ∧ f2 = f1)
         ∨ ∃ old, f1 !! app = Some old ∧ f2 = <[b := old]> (delete app f1))
      ∧ f2 !! fin = Some n
      ∧ f' = <[app := n]> (delete fin f2).
Proof.
  intros H. unfold safe_swap in H. cbv zeta in H. fold (swap_backup E app) in H.
  inv_bind H as u1 f1 Hlog. apply log_inv in Hlog as (_ & -> & ->).
  inv_bind H as ex1 f2 Hex1. apply path_exists_inv in Hex1 as (-> & -> & ->).
  inv_bind H as u2 f3 Hstale. apply when_rmtree_inv in Hstale as (_ & Hframe).
  inv_bind H as ex2 f4 Hex2. apply path_exists_inv in Hex2 as (-> & -> & ->).
  inv_bind H as u3 f5 Hlive.
  apply when_rename_live_inv in Hlive as [(_ & Hcase) | (e & [=] & _)].
  inv_bind H as u4 f6 Hstage.
  apply ret_inv in H as ([= ->] & -> & ->).
  apply os_rename_inv in Hstage as (_ & n & Hn & ->).
  split; [done |]. by exists f3, f5, n.
Qed.

Lemma safe_swap_inv_Raise fin app f e f' t :
  safe_swap E fin app f = (Raise e, f', t) →
  is_OSError e = true
  ∧ ∃ f1,
      (∀ p, is_under (swap_backup E app) p = false → f1 !! p = f !! p)
      ∧ (f' = f1
         ∨ ∃ old, f1 !! app = Some old
                  ∧ f' = <[swap_backup E app := old]> (delete app f1)).
Proof.
  intros H. unfold safe_swap in H. cbv zeta in H. fold (swap_backup E app) in H.
  apply bind_inv in H as [(u1 & f1 & t1 & t1' & Hlog & H & ->) | (e1 & Hlog & _)].
  2: { by apply log_inv in Hlog as ([=] & _). }
  apply log_inv in Hlog as (_ & -> & ->). cbv beta in H.
  apply bind_inv in H as [(ex1 & f2 & t2 & t2' & Hex1 & H & ->) | (e1 & Hex1 & _)].
  2: { by rewrite path_exists_run in Hex1. }
  apply path_exists_inv in Hex1 as (-> & -> & ->). cbv beta in H.
  apply bind_inv in H as [(u2 & f3 & t3 & t3' & Hstale & H & ->) | (e1 & Hstale & _)].
  2: { by apply when_rmtree_inv in Hstale as ([=] & _). }
  apply when_rmtree_inv in Hstale as (_ & Hframe). cbv beta in H.
  apply bind_inv in H as [(ex2 & f4 & t4 & t4' & Hex2 & H & ->) | (e1 & Hex2 & _)].
  2: { by rewrite path_exists_run in Hex2. }
  apply path_exists_inv in Hex2 as (-> & -> & ->). cbv beta in H.
  apply bind_inv in H as [(u3 & f5 & t5 & t5' & Hlive & H & ->) | (e1 & Hlive & [= <-])].
  - apply when_rename_live_inv in Hlive as [(_ & Hcase) | (e1 & [=] & _)].
    cbv beta in H.
    apply bind_inv in H as [(u4 & f6 & t6 & t6' & Hstage & H & ->) | (e1 & Hstage & [= <-])].
    + by apply ret_inv in H as ([=] & _).
    + apply os_rename_inv_Raise in Hstage as (He & -> & ->).
      split; [done |]. exists f3. split; [done |].
      destruct Hcase as [[_ ->] | (old & Hold & ->)]; [by left | right; by exists old].
  - apply when_rename_live_inv in Hlive as [([=] & _) | (e1 & [= <-] & He & ->)].
    split; [done |]. exists f3. auto.
Qed.
End SwapStates.

(** X14.  For an application directory and a staging path given in
    absolute normalised form (the application directory not the root, the
    staging path outside the backup path): a successful [safe_swap] returns
    the backup path it computed, which is a sibling of the application
    directory, and leaves the staged tree at the application path, nothing
    at the staging path, and the tree that was live before (if there was
    one) at the backup path; every path outside the application tree, the
    staged tree and the backup tree holds what it held before. *)
Theorem safe_swap_success (E : env) (fin app b : string)
    (f f' : gmap string node) (t : list event) :
  Path.plain app = true →
  Path.canonical fin = true →
  is_under (swap_backup E app) fin = false →
  safe_swap E fin app f = (Ok b, f', t) →
  b = swap_backup E app
  ∧ b = Path.join (Path.dirname app)
          (Path.basename app +:+ ".backup-" +:+ Fmt.of_Z (clock_swap E))
  ∧ fin ≠ app
  ∧ (∃ n, f !! fin = Some n ∧ f' !! app = Some n)
  ∧ f' !! fin = None
  ∧ (∀ old, f !! app = Some old → f' !! b = Some old)
  ∧ (∀ p, Path.canonical p = true →
          is_under app p = false → is_under fin p = false → is_under b p = false →
          f' !! p = f !! p).
Proof.
  intros Hplain _ Hfin H.
  pose proof (swap_backup_canonical E app (plain_canonical app Hplain)) as Hsib.
  pose proof (app_outside_backup app (clock_swap E)) as Happ.
  rewrite <- Hsib in Happ.
  apply safe_swap_inv_Ok in H as (-> & f1 & f2 & n & Hframe & Hcase & Hn & ->).
  set (b := swap_backup E app) in *.
  assert (b ≠ app) as Hba by (intros Heq; by rewrite Heq, is_under_refl in Happ).
  assert (b ≠ fin) as Hbf by (intros Heq; by rewrite Heq, is_under_refl in Hfin).
  assert (fin ≠ app ∧ f !! fin = Some n) as [Hfa Hfn].
  { destruct Hcase as [[Hnone ->] | (old & Hold & ->)].
    - rewrite Hframe in Hn, Hnone by done. split; [congruence | done].
    - rewrite lookup_insert_ne in Hn by done.
      destruct (decide (fin = app)) as [-> | Hne].
      + by rewrite lookup_delete_eq in Hn.
      + rewrite lookup_delete_ne, Hframe in Hn by done. done. }
  split; [done |]. split; [exact Hsib |]. split; [done |].
  split; [| split; [| split]].
  - exists n. split; [done |]. by rewrite lookup_insert_eq.
  - by rewrite lookup_insert_ne, lookup_delete_eq.
  - intros old Hold. rewrite lookup_insert_ne, lookup_delete_ne by done.
    destruct Hcase as [[Hnone ->] | (old' & Hold' & ->)].
    + rewrite Hframe in Hnone by done. congruence.
    + rewrite lookup_insert_eq. rewrite Hframe in Hold' by done. congruence.
  - intros p _ Hpa Hpf Hpb.
    assert (p ≠ app) as Hne1 by (intros ->; by rewrite is_under_refl in Hpa).
    assert (p ≠ fin) as Hne2 by (intros ->; by rewrite is_under_refl in Hpf).
    assert (p ≠ b) as Hne by (intros ->; by rewrite is_under_refl in Hpb).
    rewrite lookup_insert_ne, lookup_delete_ne by done.
    destruct Hcase as [[_ ->] | (old & _ & ->)].
    + by apply Hframe.
    + rewrite lookup_insert_ne, lookup_delete_ne by done. by apply Hframe.
Qed.

Lemma safe_swap_success_witness :
  ∃ f',
    (safe_swap Sample.E "/tmp/upd-k3/final" "/opt/demo/app"
       fs_staged).1.2 = f'
    ∧ f' !! "/opt/demo/app" = Some (Dir Sample.new_tree)
    ∧ f' !! "/opt/demo/app.backup-1700000000" = Some (Dir Sample.old_tree).
Proof.
  destruct (safe_swap_success Sample.E "/tmp/upd-k3/final" "/opt/demo/app"
              "/opt/demo/app.backup-1700000000"
              fs_staged
              (safe_swap Sample.E "/tmp/upd-k3/final" "/opt/demo/app"
                 fs_staged).1.2
              (safe_swap Sample.E "/tmp/upd-k3/final" "/opt/demo/app"
                 fs_staged).2)
    as (_ & _ & _ & (n & Hn & Hnew) & _ & Hold & _).
  - reflexivity.
  - reflexivity.
  - reflexivity.
  - vm_compute. reflexivity.
  - eexists. split; [reflexivity |]. split.
    + rewrite Hnew, <- Hn. vm_compute. reflexivity.
    + apply Hold. vm_compute. reflexivity.
Defined.



(** ** Rollback *)

Section Rollback.
Variable E : env.

(** [rollback_from_backup] when the backup exists and the operating system
    refuses nothing. *)
Lemma rollback_run backup app f old :
  f !! backup = Some old →
  is_under app backup = false →
  (∀ c, f !! app ≠ Some (File c)) →
  fault E AtRollbackRmtree = false → fault E AtRollbackRename = false →
  ∃ f1 t1,
    rollback_from_backup E backup app f
    = (Ok (), <[app := old]> (delete backup f1), t1 ++ [EvRename backup app])
    ∧ (∀ p, is_under app p = false → f1 !! p = f !! p)
    ∧ (∀ p, f1 !! p = None ∨ f1 !! p = f !! p)
    ∧ f1 !! app = None.
Proof.
  intros Hb Hout Hdir Hrm Hrn. unfold rollback_from_backup.
  destruct (remove_if_exists_run E AtRollbackRmtree app f)
    as (f1 & t1 & Hrun & Hframe & Hshrink & Hgone & _).
  specialize (Hgone Hrm Hdir). exists f1, t1.
  split; [| done].
  assert (f1 !! backup = Some old) as Hb1 by (by rewrite Hframe).
  unfold bind in Hrun |- *.
  destruct (path_exists app f) as [[[ex | e] g] u]; [| done].
  destruct (when ex (rmtree_ignore E AtRollbackRmtree app) g) as [[[[] | e] g'] u'];
    [| done].
  injection Hrun as -> <-.
  rewrite path_exists_run, Hb1. unfold when.
  rewrite os_rename_run, Hrn, Hb1, Hgone. simpl.
  by rewrite app_assoc.
Qed.
End Rollback.

(** X16.  For an application directory and a backup path given in
    absolute normalised form, neither the root and neither inside the
    other: when the backup exists, the application path holds a directory
    or nothing (a regular file there would survive the removal and stop
    the rename), and the operating system refuses neither the removal nor
    the rename, [rollback_from_backup] succeeds: the application path holds
    the tree that was at the backup path, the backup path is vacant, and
    every path outside the old application tree and the backup tree holds
    what it held before. *)
Theorem rollback_restores_backup (E : env) (backup app : string)
    (f : gmap string node) (old : node) :
  Path.plain app = true →
  Path.plain backup = true →
  f !! backup = Some old →
  is_under app backup = false →
  is_under backup app = false →
  (∀ c, f !! app ≠ Some (File c)) →
  fault E AtRollbackRmtree = false → fault E AtRollbackRename = false →
  ∃ f' t,
    rollback_from_backup E backup app f = (Ok (), f', t)
    ∧ f' !! app = Some old
    ∧ f' !! backup = None
    ∧ (∀ p, Path.canonical p = true →
            is_under app p = false → is_under backup p = false →
            f' !! p = f !! p)
    ∧ last t = Some (EvRename backup app).
Proof.
  intros _ _ Hb Hout _ Hdir Hrm Hrn.
  destruct (rollback_run E backup app f old Hb Hout Hdir Hrm Hrn)
    as (f1 & t1 & Hrun & Hframe & _ & _).
  assert (backup ≠ app) as Hne by (intros ->; by rewrite is_under_refl in Hout).
  eexists _, _. split; [exact Hrun |]. split; [| split; [| split]].
  - by rewrite lookup_insert_eq.
  - by rewrite lookup_insert_ne, lookup_delete_eq.
  - intros p _ Hp Hpb.
    assert (p ≠ app) by (intros ->; by rewrite is_under_refl in Hp).
    assert (p ≠ backup) by (intros ->; by rewrite is_under_refl in Hpb).
    rewrite lookup_insert_ne, lookup_delete_ne by done. by apply Hframe.
  - by rewrite last_snoc.
Qed.

Lemma rollback_restores_backup_witness :
  ∃ f',
    (rollback_from_backup Sample.E "/opt/demo/app.backup-1700000000" "/opt/demo/app"
       (<["/opt/demo/app.backup-1700000000" := Dir Sample.old_tree]> fs_staged)).1.2 = f'
    ∧ f' !! "/opt/demo/app" = Some (Dir Sample.old_tree)
    ∧ f' !! "/opt/demo/app.backup-1700000000" = None.
Proof.
  destruct (rollback_restores_backup Sample.E "/opt/demo/app.backup-1700000000"
              "/opt/demo/app"
              (<["/opt/demo/app.backup-1700000000" := Dir Sample.old_tree]> fs_staged)
              (Dir Sample.old_tree))
    as (f' & t & Hrun & Happ & Hb & _); try reflexivity.
  - intros c. vm_compute. discriminate.
  - exists f'. rewrite Hrun. by repeat split.
Defined.

(** X17.  [rollback_from_backup] undoes [safe_swap].  For an application
    directory and a staging path given in absolute normalised form (the
    application directory not the root, the staging path outside the
    application tree and outside the backup path) and a staged tree that
    is a directory: after a successful swap of a live application
    directory, a rollback with the backup path the swap returned (nothing
    being refused) puts the tree that was live before back at the
    application path and leaves the backup path vacant; the staged tree is
    gone, and every path outside the application tree, the backup tree and
    the staging tree holds what it held before the swap. *)
Theorem rollback_undoes_safe_swap (E : env) (fin app b : string)
    (f f1 : gmap string node) (t1 : list event) (old : node)
    (staged : list (string * node)) :
  Path.plain app = true →
  Path.canonical fin = true →
  is_under (swap_backup E app) fin = false →
  is_under app fin = false →
  f !! fin = Some (Dir staged) →
  fault E AtRollbackRmtree = false → fault E AtRollbackRename = false →
  f !! app = Some old →
  safe_swap E fin app f = (Ok b, f1, t1) →
  ∃ f2 t2,
    rollback_from_backup E b app f1 = (Ok (), f2, t2)
    ∧ f2 !! app = Some old
    ∧ f2 !! b = None
    ∧ f2 !! fin = None
    ∧ (∀ p, Path.canonical p = true →
            is_under app p = false → is_under b p = false →
            is_under fin p = false →
            f2 !! p = f !! p).
Proof.
  intros Hplain _ Hfin _ Hstaged Hrm Hrn Hold H.
  pose proof (swap_backup_canonical E app (plain_canonical app Hplain)) as Hsib.
  pose proof (app_outside_backup app (clock_swap E)) as Happ.
  rewrite <- Hsib in Happ.
  pose proof (backup_outside_app app (clock_swap E)) as Hout.
  rewrite <- Hsib in Hout.
  apply safe_swap_inv_Ok in H as (-> & g1 & g2 & n & Hframe & Hcase & Hn & ->).
  set (b := swap_backup E app) in *.
  assert (b ≠ app) as Hba by (intros Heq; by rewrite Heq, is_under_refl in Happ).
  assert (b ≠ fin) as Hbf by (intros Heq; by rewrite Heq, is_under_refl in Hfin).
  destruct Hcase as [[Hnone _] | (old' & Hold' & ->)].
  { rewrite Hframe in Hnone by done. congruence. }
  rewrite Hframe in Hold' by done. assert (old' = old) as -> by congruence.
  assert (fin ≠ app) as Hfa.
  { intros ->. by rewrite lookup_insert_ne, lookup_delete_eq in Hn. }
  assert (n = Dir staged) as ->.
  { rewrite lookup_insert_ne, lookup_delete_ne, Hframe in Hn by done. congruence. }
  set (f1 := <[app := Dir staged]> (delete fin (<[b := old]> (delete app g1)))).
  assert (f1 !! b = Some old) as Hb1.
  { unfold f1. by rewrite lookup_insert_ne, lookup_delete_ne, lookup_insert_eq. }
  assert (∀ c, f1 !! app ≠ Some (File c)) as Hdir.
  { intros c. unfold f1. by rewrite lookup_insert_eq. }
  destruct (rollback_run E b app f1 old Hb1 Hout Hdir Hrm Hrn)
    as (h & t & Hrun & Hframe2 & Hshrink & _).
  eexists _, _. split; [exact Hrun |]. split; [| split; [| split]].
  - by rewrite lookup_insert_eq.
  - by rewrite lookup_insert_ne, lookup_delete_eq.
  - rewrite lookup_insert_ne, lookup_delete_ne by done.
    destruct (Hshrink fin) as [-> | ->]; [done |].
    unfold f1. by rewrite lookup_insert_ne, lookup_delete_eq.
  - intros p _ Hpa Hpb Hpf.
    assert (p ≠ app) by (intros ->; by rewrite is_under_refl in Hpa).
    assert (p ≠ b) by (intros ->; by rewrite is_under_refl in Hpb).
    assert (p ≠ fin) by (intros ->; by rewrite is_under_refl in Hpf).
    rewrite lookup_insert_ne, lookup_delete_ne, Hframe2 by done.
    unfold f1.
    rewrite lookup_insert_ne, lookup_delete_ne, lookup_insert_ne, lookup_delete_ne
      by done.
    by apply Hframe.
Qed.

Lemma rollback_undoes_safe_swap_witness :
  ∃ f1 f2,
    (safe_swap Sample.E "/tmp/upd-k3/final" "/opt/demo/app" fs_staged).1.2 = f1
    ∧ f1 !! "/opt/demo/app" = Some (Dir Sample.new_tree)
    ∧ (rollback_from_backup Sample.E "/opt/demo/app.backup-1700000000" "/opt/demo/app"
         f1).1.2 = f2
    ∧ f2 !! "/opt/demo/app" = Some (Dir Sample.old_tree)
    ∧ f2 !! "/opt/demo/version.json" = fs_staged !! "/opt/demo/version.json".
Proof.
  assert (safe_swap Sample.E "/tmp/upd-k3/final" "/opt/demo/app" fs_staged
          = (Ok "/opt/demo/app.backup-1700000000",
             (safe_swap Sample.E "/tmp/upd-k3/final" "/opt/demo/app" fs_staged).1.2,
             (safe_swap Sample.E "/tmp/upd-k3/final" "/opt/demo/app" fs_staged).2))
    as Hswap by (vm_compute; reflexivity).
  destruct (rollback_undoes_safe_swap Sample.E "/tmp/upd-k3/final" "/opt/demo/app"
              _ fs_staged _ _ (Dir Sample.old_tree) Sample.new_tree
              eq_refl eq_refl eq_refl eq_refl eq_refl eq_refl eq_refl eq_refl Hswap)
    as (f2 & t2 & Hrun & Happ & _ & _ & Hframe).
  eexists _, f2. split; [reflexivity |]. split; [vm_compute; reflexivity |].
  split; [by rewrite Hrun |]. split; [exact Happ |].
  apply Hframe; reflexivity.
Defined.

(** ** Runs that touch nothing *)

#[global] Instance all_events_closed ok : AppClosed (all_events ok).
Proof.
  split.
  - intros ev [].
  - intros t1 t2 H1 H2 ev Hin. apply in_app_or in Hin as [?|?]; auto.
Qed.

Lemma all_events_one ok ev : ok ev = true → all_events ok [ev].
Proof. by intros H ev' [<- | []]. Qed.

(** A trace of reports touches no path. *)
Lemma reports_untouched t p : all_events is_report t → untouched p t.
Proof.
  intros H ev Hin. specialize (H ev Hin). by destruct ev.
Qed.

Lemma reports_keep_fs {A} (m : M A) f :
  accounted m → all_events is_report (m f).2 → (m f).1.2 = f.
Proof.
  intros Hm Ht. apply map_eq. intros p. apply Hm. by apply reports_untouched.
Qed.

Ltac reports_auto :=
  emits_auto; try (apply all_events_one; reflexivity).

Section Reports.
Variables (E : env) (c : config).

Lemma reports_resolve_dry_run rel tag vdata asset_name :
  dry_run c = true →
  emits (all_events is_report) (resolve_and_install E c rel tag vdata asset_name).
Proof.
  intros Hdry. unfold resolve_and_install.
  destruct (find_asset rel asset_name) as [a |]; [| reports_auto].
  cbv zeta. rewrite Hdry. reports_auto.
Qed.

Lemma reports_dry_run :
  dry_run c = true → emits (all_events is_report) (run_update E c).
Proof.
  intros Hdry.
  unfold run_update, read_json, py_get, get_latest_release, http_get_json, compare_with.
  reports_auto; by apply reports_resolve_dry_run.
Qed.

(** A result of [true] comes from the installation only. *)
Lemma resolve_dry_run_not_true rel tag vdata asset_name f f' t :
  dry_run c = true →
  resolve_and_install E c rel tag vdata asset_name f ≠ (Ok true, f', t).
Proof.
  intros Hdry H. unfold resolve_and_install in H.
  destruct (find_asset rel asset_name) as [a |]; [| done].
  cbv zeta in H. rewrite Hdry in H.
  inv_bind H as u1 f1 H1. inv_bind H as u2 f2 H2.
  by apply ret_inv in H as ([=] & _).
Qed.

(** What a run that returns [true] went through. *)
Lemma run_update_true_inv f f' t :
  run_update E c f = (Ok true, f', t) →
  ∃ rel tag vdata asset_name f0 t0 t1,
    resolve_and_install E c rel tag vdata asset_name f0 = (Ok true, f', t1)
    ∧ t = t0 ++ t1.
Proof.
  intros H. unfold run_update in H. cbv zeta in H.
  inv_bind H as an f1 Hfmt.
  inv_bind H as vdata f2 Hread.
  inv_bind H as cv f3 Hget.
  inv_bind H as u1 f4 Hl1.
  inv_bind H as u2 f5 Hl2.
  inv_bind H as latest f6 Hrel.
  destruct latest as [rel |].
  2: { inv_bind H as u3 f7 Hl3. by apply ret_inv in H as ([=] & _). }
  inv_bind H as u3 f7 Hl3.
  inv_bind H as cmp f8 Hcmp.
  destruct ((cmp <? 0) && negb (allow_downgrade c)).
  { inv_bind H as u4 f9 Hl4. by apply ret_inv in H as ([=] & _). }
  destruct (cmp =? 0).
  { inv_bind H as u4 f9 Hl4. by apply ret_inv in H as ([=] & _). }
  eexists _, _, _, _, _, _, _. split; [exact H |].
  rewrite !app_assoc. reflexivity.
Qed.
End Reports.

(** X18.  With the dry-run flag set, [run_update] changes nothing, whatever
    else happens: the file system after the run is the file system before
    it, the trace holds only printed lines and the request to the releases
    endpoint (nothing is downloaded, created, moved or started), and the
    result is never [true]. *)
Theorem dry_run_changes_nothing (E : env) (c : config) (f : gmap string node) :
  dry_run c = true →
  (run_update E c f).1.2 = f
  ∧ all_events is_report (run_update E c f).2
  ∧ (run_update E c f).1.1 ≠ Ok true.
Proof.
  intros Hdry.
  pose proof (reports_dry_run E c Hdry f) as Ht.
  split; [| split; [exact Ht |]].
  - apply reports_keep_fs; [apply accounted_run_update | exact Ht].
  - intros Hr.
    destruct (run_update E c f) as [[r f'] t] eqn:Hrun. simpl in Hr. subst r.
    apply run_update_true_inv in Hrun
      as (rel & tag & vdata & an & f0 & t0 & t1 & Hres & _).
    by apply resolve_dry_run_not_true in Hres.
Qed.

Lemma dry_run_changes_nothing_witness :
  (run_update Sample.E Sample.cfg_dry Sample.fs_installed).1.2 = Sample.fs_installed.
Proof.
  exact (proj1 (dry_run_changes_nothing Sample.E Sample.cfg_dry Sample.fs_installed
                  eq_refl)).
Defined.

(** ** The guarded installation: it always returns, and it cleans up *)


Section Attempt.
Variables (E : env) (c : config) (rel : release) (tag : string) (vdata : json).
Variables (asset_name : string) (a : asset) (f : gmap string node).

Hypothesis asset_found : find_asset rel asset_name = Some a.
Hypothesis not_dry : dry_run c = false.
Hypothesis tmp_granted : fault E AtMkdtemp = false.

End Attempt.



(** ** A run that raises has touched nothing *)


Section RaiseIsClean.
Variables (E : env) (c : config).



End RaiseIsClean.



(** ** What a successful installation went through *)

(** Inversion of a successful sequence, keeping the trace of the step. *)
Tactic Notation "inv_step" hyp(H) "as" ident(a) ident(f1) ident(t1) ident(H1) :=
  apply bind_inv_Ok in H as (a & f1 & t1 & ? & H1 & H & ->);
  cbv beta in H.

Lemma sibling_path_differs tmp_dir x :
  Path.join tmp_dir (x +:+ ".sha256") ≠ Path.join tmp_dir x.
Proof.
  unfold Path.join.
  assert (Str.startswith "/" (x +:+ ".sha256") = Str.startswith "/" x) as ->.
  { destruct x as [|ch x]; [done |]. by rewrite append_cons. }
  intros H. apply (f_equal String.length) in H.
  destruct (Str.startswith "/" x);
    [| destruct (negb (Str.truthy tmp_dir) || Path.endswith_slash tmp_dir)];
    rewrite ?length_append in H; simpl in H; lia.
Qed.

Section InstallSteps.
Variable E : env.

Lemma http_download_inv url dest f u f' t :
  http_download E url dest f = (Ok u, f', t) →
  ∃ body, net E url = Ok body
          ∧ f' = <[dest := File (Text body)]> f
          ∧ t = [EvFetch url dest; EvWrite dest].
Proof.
  unfold http_download. intros H.
  inv_step H as u1 f1 t1 Hemit. injection Hemit as <- <- <-.
  inv_step H as body f2 t2 Hnet. apply lift_inv in Hnet as (Hnet & -> & ->).
  exists body. split; [done |].
  rewrite write_file_run in H.
  destruct (f !! dest) as [[? | ?] |]; try done; by injection H as _ <- <-.
Qed.

Lemma verify_inv sha_path asset_path f b f' t txt body :
  f !! sha_path = Some (File (Text txt)) →
  f !! asset_path = Some (File (Text body)) →
  verify_sha256_from_file E sha_path asset_path f = (Ok b, f', t) →
  ∃ m, Re.re_search sha256_re (Str.strip txt) = Some m
       ∧ sha256 E body = Str.lower (Re.group m 1)
       ∧ f' = f ∧ t = [].
Proof.
  intros Hsha Hasset H. unfold verify_sha256_from_file in H.
  rewrite (bind_Ok _ _ f txt f []) in H
    by (unfold read_file, bind, get_fs, ret; simpl; by rewrite Hsha).
  rewrite prefixed_nil in H.
  destruct (Re.re_search sha256_re (Str.strip txt)) as [m |]; [| done].
  exists m. split; [done |].
  rewrite (bind_Ok _ _ f (sha256 E body) f []) in H.
  2: { unfold sha256_file, read_file, bind, get_fs, ret. simpl. by rewrite Hasset. }
  rewrite prefixed_nil in H.
  destruct (String.eqb (sha256 E body) (Str.lower (Re.group m 1))) eqn:Heq; [| done].
  apply String.eqb_eq in Heq. simpl in H. by injection H as _ <- <-.
Qed.

Lemma write_json_atomic_trace p data f u f' t :
  write_json_atomic E p data f = (Ok u, f', t) →
  t = [EvWrite (p +:+ ".tmp"); EvReplace (p +:+ ".tmp") p].
Proof.
  rewrite write_json_atomic_run.
  destruct (fault E AtWriteTmp); [done |].
  destruct (f !! (p +:+ ".tmp")) as [[? | ?] |]; try done;
    (destruct (json_dump_error E data); [done |]);
    (destruct (fault E AtReplace); [done |]);
    destruct (f !! p) as [[? | ?] |]; try done; by intros [= _ _ <-].
Qed.

Lemma restart_trace (c : config) f u f' t :
  (match restart_cmd c with
   | Some cmd => when (Str.truthy cmd) (log ("Restarting: " +:+ cmd);; relaunch E cmd)
   | None => ret ()
   end) f = (Ok u, f', t) →
  ∀ cmd, restart_cmd c = Some cmd → Str.truthy cmd = true → In (EvSpawn cmd) t.
Proof.
  intros H cmd Hcmd Htrue. rewrite Hcmd, Htrue in H. unfold when in H.
  inv_step H as u1 f1 t1 Hlog.
  unfold relaunch in H. destruct (fault E AtSpawn); [done |].
  injection H as _ _ <-. apply in_or_app. right. by left.
Qed.

Lemma install_Ok_inv (c : config) tag vdata asset_name asset_url sha_url tmp_dir
    f b f' t :
  install E c tag vdata asset_name asset_url sha_url tmp_dir f = (Ok b, f', t) →
  b = true
  ∧ ∃ body pre mid wr post,
      net E asset_url = Ok body
      ∧ (∀ url, sha_url = Some url →
           ∃ txt m, net E url = Ok txt
                    ∧ Re.re_search sha256_re (Str.strip txt) = Some m
                    ∧ sha256 E body = Str.lower (Re.group m 1))
      ∧ t = pre ++ mid ++ wr ++ post
      ∧ In (EvFetch asset_url (Path.join tmp_dir asset_name)) pre
      ∧ installed (Path.join tmp_dir "final") (app_dir c) mid
      ∧ In (EvReplace (version_file c +:+ ".tmp") (version_file c)) wr
      ∧ (∀ cmd, restart_cmd c = Some cmd → Str.truthy cmd = true →
                In (EvSpawn cmd) post).
Proof.
  intros H. unfold install in H. cbv zeta in H.
  inv_step H as u1 f1 t1 H1. apply log_inv in H1 as (_ & -> & ->).
  inv_step H as u2 f2 t2 Hdl.
  apply http_download_inv in Hdl as (body & Hbody & -> & ->).
  inv_step H as u3 f3 t3 Hsha.
  inv_step H as u4 f4 t4 H4. inv_step H as u5 f5 t5 H5. inv_step H as u6 f6 t6 H6.
  inv_step H as items f7 t7 H7. inv_step H as u8 f8 t8 H8.
  inv_step H as backup f9 tswap Hswap.
  inv_step H as u10 f10 twrite Hwrite.
  inv_step H as u11 f11 tlog Hlog.
  inv_step H as u12 f12 tclean Hclean.
  inv_step H as u13 f13 trestart Hrestart.
  apply ret_inv in H as ([= ->] & -> & ->).
  split; [done |].
  exists body,
    ([EvLog ("Downloading asset to " +:+ Path.join tmp_dir asset_name +:+ " ...")]
     ++ [EvFetch asset_url (Path.join tmp_dir asset_name);
         EvWrite (Path.join tmp_dir asset_name)]
     ++ t3 ++ t4 ++ t5 ++ t6 ++ t7 ++ t8),
    tswap, twrite, (tlog ++ tclean ++ trestart).
  split; [done |]. split; [| split; [| split; [| split; [| split]]]].
  - intros url ->.
    inv_step Hsha as v1 g1 s1 Hl1. apply log_inv in Hl1 as (_ & -> & ->).
    inv_step Hsha as v2 g2 s2 Hdl2.
    apply http_download_inv in Hdl2 as (txt & Htxt & -> & ->).
    inv_step Hsha as v3 g3 s3 Hl3. apply log_inv in Hl3 as (_ & -> & ->).
    inv_step Hsha as v4 g4 s4 Hver.
    apply verify_inv with (txt := txt) (body := body) in Hver
      as (m & Hm & Hdigest & _).
    + by exists txt, m.
    + by rewrite lookup_insert_eq.
    + rewrite lookup_insert_ne by apply sibling_path_differs.
      by rewrite lookup_insert_eq.
  - rewrite app_nil_r. by rewrite <- !app_assoc.
  - simpl. auto.
  - by apply swap_with_fallback_inv in Hswap as (Hi & _).
  - apply write_json_atomic_trace in Hwrite as ->. simpl. auto.
  - intros cmd Hcmd Htrue. apply in_or_app. right. apply in_or_app. right.
    by eapply restart_trace.
Qed.
End InstallSteps.

Section SuccessfulRunSteps.
Variables (E : env) (c : config).

Lemma resolve_Ok_true_inv rel tag vdata asset_name f f' t :
  resolve_and_install E c rel tag vdata asset_name f = (Ok true, f', t) →
  dry_run c = false
  ∧ ∃ a f1 t1 t2,
      find_asset rel asset_name = Some a
      ∧ install E c tag vdata asset_name (browser_download_url a)
          (companion_url rel asset_name) (mkdtemp E) (<[mkdtemp E := Dir []]> f)
        = (Ok true, f1, t1)
      ∧ t = [EvMkdir (mkdtemp E)] ++ t1 ++ t2
      ∧ (∀ p, is_under (mkdtemp E) p = false → f' !! p = f1 !! p).
Proof.
  intros H. destruct (dry_run c) eqn:Hdry.
  { by apply resolve_dry_run_not_true in H. }
  split; [done |]. unfold resolve_and_install in H.
  destruct (find_asset rel asset_name) as [a |]; [| done].
  cbv zeta in H. rewrite Hdry in H. fold (companion_url rel asset_name) in H.
  inv_step H as tmp f1 t1 Htmp.
  assert (tmp = mkdtemp E ∧ f1 = <[mkdtemp E := Dir []]> f
          ∧ t1 = [EvMkdir (mkdtemp E)]) as (-> & -> & ->).
  { by apply make_tmp_dir_inv in Htmp as (_ & -> & -> & ->). }
  apply try_finally_inv_Ok in H as (f2 & t2 & u & t3 & Hbody & Hclean & ->).
  apply try_except_inv_Ok in Hbody as [Hinst | (e & f3 & t4 & t5 & _ & _ & Hh & _)].
  - exists a, f2, t2, t3. repeat split; try done.
    intros p Hp. by eapply rmtree_ignore_inv.
  - inv_bind Hh as u1 f4 H1. by apply ret_inv in Hh as ([=] & _).
Qed.

Lemma run_update_Ok_true_inv f f' t :
  run_update E c f = (Ok true, f', t) →
  ∃ asset_name releases rel vdata t0 t1,
    str_format E (asset_pattern c) (app_name c) (norm_os E) (norm_arch E)
    = Ok asset_name
    ∧ api E (releases_url (repo c)) = Ok releases
    ∧ latest_of (include_prereleases c) releases = Some rel
    ∧ resolve_and_install E c rel (release_tag rel) vdata asset_name f
      = (Ok true, f', t1)
    ∧ t = t0 ++ t1.
Proof.
  intros H. unfold run_update in H. cbv zeta in H.
  inv_step H as an f1 t1 Hfmt. apply lift_inv in Hfmt as (Hfmt & -> & ->).
  inv_step H as vdata f2 t2 Hread. apply read_json_inv in Hread as (-> & -> & ->).
  inv_step H as cv f3 t3 Hget.
  assert (f3 = f) as ->.
  { unfold py_get in Hget. destruct (if json_truthy _ then _ else _); try done;
      by apply ret_inv in Hget as (_ & -> & _). }
  inv_step H as u1 f4 t4 Hl1. apply log_inv in Hl1 as (_ & -> & ->).
  inv_step H as u2 f5 t5 Hl2. apply log_inv in Hl2 as (_ & -> & ->).
  inv_step H as latest f6 t6 Hrel.
  apply get_latest_release_inv in Hrel as (releases & Hapi & -> & ->).
  destruct (latest_of (include_prereleases c) releases) as [rel |] eqn:Hlatest.
  2: { inv_bind H as u3 f7 Hl3. by apply ret_inv in H as ([=] & _). }
  inv_step H as u3 f7 t7 Hl3. apply log_inv in Hl3 as (_ & -> & ->).
  inv_step H as cmp f8 t8 Hcmp.
  assert (f8 = f) as ->.
  { unfold compare_with in Hcmp. destruct cv; try done.
    by apply ret_inv in Hcmp as (_ & -> & _). }
  destruct ((cmp <? 0) && negb (allow_downgrade c)).
  { inv_bind H as u4 f9 Hl4. by apply ret_inv in H as ([=] & _). }
  destruct (cmp =? 0).
  { inv_bind H as u4 f9 Hl4. by apply ret_inv in H as ([=] & _). }
  eexists an, releases, rel, _, _, _.
  split; [done |]. split; [done |]. split; [done |]. split; [exact H |].
  rewrite !app_assoc. reflexivity.
Qed.

Lemma exit_status_zero r : exit_status r = 0 → r = Ok true.
Proof. by destruct r as [[] | e]. Qed.
End SuccessfulRunSteps.

(** X21.  A run whose exit status is 0 has installed an update, and it
    went through these steps in this order: the asset named by the pattern,
    of the release the selection chose, was downloaded into the temporary
    directory; the staged tree was put at the application path; the state
    file was replaced by its temporary sibling; and, when a restart command
    is configured, it was started last.  The run was not a dry run. *)
Theorem exit_zero_means_installed (E : env) (c : config) (f : gmap string node) :
  exit_status (run_update E c f).1.1 = 0 →
  dry_run c = false
  ∧ ∃ asset_name releases rel a pre mid wr post,
      str_format E (asset_pattern c) (app_name c) (norm_os E) (norm_arch E)
      = Ok asset_name
      ∧ api E (releases_url (repo c)) = Ok releases
      ∧ latest_of (include_prereleases c) releases = Some rel
      ∧ find_asset rel asset_name = Some a
      ∧ (run_update E c f).2 = pre ++ mid ++ wr ++ post
      ∧ In (EvFetch (browser_download_url a) (Path.join (mkdtemp E) asset_name)) pre
      ∧ installed (Path.join (mkdtemp E) "final") (app_dir c) mid
      ∧ In (EvReplace (version_file c +:+ ".tmp") (version_file c)) wr
      ∧ (∀ cmd, restart_cmd c = Some cmd → Str.truthy cmd = true →
                In (EvSpawn cmd) post).
Proof.
  intros Hexit. apply exit_status_zero in Hexit.
  destruct (run_update E c f) as [[r f'] t] eqn:Hrun. simpl in Hexit. subst r.
  apply run_update_Ok_true_inv in Hrun
    as (an & releases & rel & vdata & t0 & t1 & Hfmt & Hapi & Hlatest & Hres & ->).
  apply resolve_Ok_true_inv in Hres
    as (Hdry & a & f1 & t2 & t3 & Ha & Hinst & -> & _).
  apply install_Ok_inv in Hinst
    as (_ & body & pre & mid & wr & post & _ & _ & -> & Hpre & Hmid & Hwr & Hpost).
  split; [done |].
  exists an, releases, rel, a, (t0 ++ [EvMkdir (mkdtemp E)] ++ pre), mid, wr, (post ++ t3).
  repeat split; try done.
  - simpl. by rewrite <- !app_assoc.
  - apply in_or_app. right. by right.
  - intros cmd Hcmd Htrue. apply in_or_app. left. by apply Hpost.
Qed.

Lemma exit_zero_means_installed_witness :
  ∃ pre mid wr post,
    (run_update Sample.E Sample.cfg Sample.fs_installed).2 = pre ++ mid ++ wr ++ post
    ∧ installed "/tmp/upd-k3/final" "/opt/demo/app" mid
    ∧ In (EvReplace "/opt/demo/version.json.tmp" "/opt/demo/version.json") wr.
Proof.
  destruct (exit_zero_means_installed Sample.E Sample.cfg Sample.fs_installed)
    as (_ & an & releases & rel & a & pre & mid & wr & post
        & _ & _ & _ & _ & Ht & _ & Hmid & Hwr & _).
  - vm_compute. reflexivity.
  - exists pre, mid, wr, post. split; [exact Ht |]. split; [exact Hmid | exact Hwr].
Defined.

(** X22.  An update is installed only after its digest was checked, when
    the release offers one: if [run_update] returns [true] and the chosen
    release lists a companion [<asset>.sha256] with a URL, then the text
    served at that URL contains a 64-digit hexadecimal token, and the
    SHA-256 digest of the archive that was downloaded equals the first such
    token, in lower case. *)
Theorem installed_only_with_matching_digest (E : env) (c : config)
    (f f' : gmap string node) (t : list event) :
  run_update E c f = (Ok true, f', t) →
  ∃ asset_name releases rel a body,
    str_format E (asset_pattern c) (app_name c) (norm_os E) (norm_arch E)
    = Ok asset_name
    ∧ api E (releases_url (repo c)) = Ok releases
    ∧ latest_of (include_prereleases c) releases = Some rel
    ∧ find_asset rel asset_name = Some a
    ∧ net E (browser_download_url a) = Ok body
    ∧ ∀ url, companion_url rel asset_name = Some url →
        ∃ txt m, net E url = Ok txt
                 ∧ Re.re_search sha256_re (Str.strip txt) = Some m
                 ∧ sha256 E body = Str.lower (Re.group m 1).
Proof.
  intros Hrun.
  apply run_update_Ok_true_inv in Hrun
    as (an & releases & rel & vdata & t0 & t1 & Hfmt & Hapi & Hlatest & Hres & ->).
  apply resolve_Ok_true_inv in Hres
    as (Hdry & a & f1 & t2 & t3 & Ha & Hinst & -> & _).
  apply install_Ok_inv in Hinst
    as (_ & body & pre & mid & wr & post & Hbody & Hsha & _).
  by exists an, releases, rel, a, body.
Qed.

Lemma installed_only_with_matching_digest_witness :
  ∃ txt m,
    net Sample.E "https://dl/demo.zip.sha256" = Ok txt
    ∧ Re.re_search sha256_re (Str.strip txt) = Some m
    ∧ sha256 Sample.E "PK-archive" = Str.lower (Re.group m 1).
Proof.
  assert (run_update Sample.E Sample.cfg Sample.fs_installed
          = (Ok true, (run_update Sample.E Sample.cfg Sample.fs_installed).1.2,
             (run_update Sample.E Sample.cfg Sample.fs_installed).2)) as Hrun
    by (vm_compute; reflexivity).
  destruct (installed_only_with_matching_digest Sample.E Sample.cfg
              Sample.fs_installed _ _ Hrun)
    as (an & releases & rel & a & body & Hfmt & Hapi & Hlatest & Ha & Hbody & Hsha).
  injection Hfmt as <-. injection Hapi as <-. injection Hlatest as <-.
  injection Ha as <-. injection Hbody as <-.
  exact (Hsha "https://dl/demo.zip.sha256" eq_refl).
Defined.

(** ** The relaunch *)

Section Relaunch.
Variables (E : env) (c : config).

Let calm : list event → Prop := all_events (λ ev, negb (is_spawn ev)).

Lemma calm_no_spawn t cmd : calm t → ¬ In (EvSpawn cmd) t.
Proof. intros H Hin. by specialize (H _ Hin). Qed.

Lemma justified_calm x : calm x.2 → relaunch_justified c x.
Proof. intros H cmd Hin. by apply calm_no_spawn in Hin. Qed.

Lemma justified_bind {A} (m : M A) (k : A → M bool) f :
  emits calm m → (∀ a f1, relaunch_justified c (k a f1)) →
  relaunch_justified c (bind m k f).
Proof.
  intros Hm Hk cmd. specialize (Hm f). unfold bind.
  destruct (m f) as [[[a | e] f1] t1]; simpl in *.
  - specialize (Hk a f1 cmd). destruct (k a f1) as [[r f2] t2]. simpl in *.
    intros Hin. apply in_app_or in Hin as [Hin | Hin]; [| auto].
    by apply calm_no_spawn in Hin.
  - intros Hin. by apply calm_no_spawn in Hin.
Qed.

Lemma justified_try_except (m : M bool) catches h f :
  relaunch_justified c (m f) → (∀ e, emits calm (h e)) →
  relaunch_justified c (try_except m catches h f).
Proof.
  intros Hm Hh cmd. unfold try_except. specialize (Hm cmd).
  destruct (m f) as [[[a | e] f1] t1]; simpl in *; [done |].
  assert (¬ In (EvSpawn cmd) t1) as Hno by (intros Hin; by destruct (Hm Hin)).
  destruct (catches e); [| done]. specialize (Hh e f1).
  destruct (h e f1) as [[r f2] t2]. simpl in *.
  intros Hin. apply in_app_or in Hin as [Hin | Hin]; [done |].
  by apply calm_no_spawn in Hin.
Qed.

Lemma justified_try_finally_rmtree (m : M bool) a root f :
  relaunch_justified c (m f) →
  relaunch_justified c (try_finally m (rmtree_ignore E a root) f).
Proof.
  intros Hm cmd. unfold try_finally. specialize (Hm cmd).
  destruct (m f) as [[r f1] t1]. rewrite rmtree_ignore_run.
  assert (In (EvSpawn cmd) (t1 ++ []) →
          r = Ok true ∧ restart_cmd c = Some cmd ∧ Str.truthy cmd = true) as Hidle
    by (by rewrite app_nil_r).
  destruct (f1 !! root) as [[ct | es] |]; simpl in *; try done.
  destruct (fault E a); simpl in *; [done |].
  intros Hin. apply in_app_or in Hin as [Hin | [[=] | []]]. auto.
Qed.

Ltac calm_auto :=
  emits_auto; try (apply all_events_one; reflexivity).

Lemma justified_restart f :
  relaunch_justified c
    (bind (match restart_cmd c with
           | Some cmd =>
               when (Str.truthy cmd) (log ("Restarting: " +:+ cmd);; relaunch E cmd)
           | None => ret ()
           end) (λ _, ret true) f).
Proof.
  intros cmd. destruct (restart_cmd c) as [cmd' |]; [| by intros []].
  destruct (Str.truthy cmd') eqn:Htrue; [| by intros []].
  unfold when, relaunch, bind, log, emit, raise, ret.
  destruct (fault E AtSpawn); simpl.
  - by intros [[=] | []].
  - by intros [[=] | [[= <-] | []]].
Qed.

Lemma justified_install tag vdata asset_name asset_url sha_url tmp_dir f :
  relaunch_justified c (install E c tag vdata asset_name asset_url sha_url tmp_dir f).
Proof.
  unfold install. cbv zeta.
  apply justified_bind; [calm_auto |]. intros _ f1.
  apply justified_bind; [unfold http_download, write_file; calm_auto |]. intros _ f2.
  apply justified_bind.
  { unfold http_download, write_file, verify_sha256_from_file, sha256_file, read_file.
    calm_auto. }
  intros _ f3.
  apply justified_bind; [unfold makedirs; calm_auto |]. intros _ f4.
  apply justified_bind; [calm_auto |]. intros _ f5.
  apply justified_bind; [unfold unzip_to, read_file; calm_auto |]. intros _ f6.
  apply justified_bind; [unfold listdir; calm_auto |]. intros items f7.
  apply justified_bind; [unfold copytree; calm_auto |]. intros _ f8.
  apply justified_bind.
  { unfold swap_with_fallback, safe_swap, path_exists, rmtree_ignore, os_rename,
      shutil_move.
    calm_auto. }
  intros backup f9.
  apply justified_bind.
  { unfold write_json_atomic, write_file, os_replace. calm_auto. }
  intros _ f10.
  apply justified_bind; [calm_auto |]. intros _ f11.
  apply justified_bind; [unfold path_exists, rmtree_ignore; calm_auto |]. intros _ f12.
  apply justified_restart.
Qed.

Lemma justified_resolve rel tag vdata asset_name f :
  relaunch_justified c (resolve_and_install E c rel tag vdata asset_name f).
Proof.
  unfold resolve_and_install.
  destruct (find_asset rel asset_name) as [a |]; [| by intros cmd []].
  cbv zeta. destruct (dry_run c).
  { apply justified_calm. assert (emits calm
      (log ("[dry-run] Would download: " +:+ asset_name);;
       when (bool_decide (is_Some (companion_url rel asset_name)))
         (log ("[dry-run] Would verify with: " +:+ asset_name +:+ ".sha256"));;
       ret false)) as H by calm_auto.
    apply H. }
  apply justified_bind; [unfold make_tmp_dir; calm_auto |]. intros tmp f1.
  apply justified_try_finally_rmtree, justified_try_except.
  - apply justified_install.
  - intros e. calm_auto.
Qed.

Lemma justified_run_update f : relaunch_justified c (run_update E c f).
Proof.
  unfold run_update. cbv zeta.
  apply justified_bind; [calm_auto |]. intros an f1.
  apply justified_bind; [unfold read_json; calm_auto |]. intros vd f2.
  apply justified_bind; [unfold py_get; calm_auto |]. intros cv f3.
  apply justified_bind; [calm_auto |]. intros _ f4.
  apply justified_bind; [calm_auto |]. intros _ f5.
  apply justified_bind; [unfold get_latest_release, http_get_json; calm_auto |].
  intros [rel |] f6.
  2: { apply justified_calm. assert (emits calm
         (log "No suitable releases found.";; ret false)) as H by calm_auto.
       apply H. }
  apply justified_bind; [calm_auto |]. intros _ f7.
  apply justified_bind; [unfold compare_with; calm_auto |]. intros cmp f8.
  destruct ((cmp <? 0) && negb (allow_downgrade c)).
  { apply justified_calm. assert (emits calm
      (log "Remote version is older; skipping (use --allow-downgrade to force).";;
       ret false)) as H by calm_auto.
    apply H. }
  destruct (cmp =? 0).
  { apply justified_calm.
    assert (emits calm (log "Already up to date.";; ret false)) as H by calm_auto.
    apply H. }
  apply justified_resolve.
Qed.
End Relaunch.

(** X23.  The restart command is started only by a run that installed an
    update: if the trace of [run_update] shows that a command was started,
    the run returns [true] (so the swap and the state write are done, and
    the exit status is 0), and the command is the configured restart
    command, which is not empty.  A run that skips, fails or is a dry run
    starts nothing. *)
Theorem relaunch_only_after_success (E : env) (c : config) (f : gmap string node)
    (cmd : string) :
  In (EvSpawn cmd) (run_update E c f).2 →
  (run_update E c f).1.1 = Ok true
  ∧ restart_cmd c = Some cmd
  ∧ Str.truthy cmd = true.
Proof. apply justified_run_update. Qed.

Lemma relaunch_only_after_success_witness :
  (run_update Sample.E cfg_restart Sample.fs_installed).1.1 = Ok true.
Proof.
  refine (proj1 (relaunch_only_after_success Sample.E cfg_restart Sample.fs_installed
                   "python app/main.py" _)).
  vm_compute. do 25 right. by left.
Defined.

(** ** The footprint of a run *)

Lemma emits_bind_post {A B} (P : list event → Prop) `{!AppClosed P}
    (Q : A → Prop) (m : M A) (k : A → M B) :
  emits P m →
  (∀ f a f' t, m f = (Ok a, f', t) → Q a) →
  (∀ a, Q a → emits P (k a)) →
  emits P (bind m k).
Proof.
  intros Hm HQ Hk f. rewrite bind_trace. specialize (Hm f). specialize (HQ f).
  destruct (m f) as [[[a | e] f1] t1]; simpl in *; [| done].
  apply closed_app; [done |]. apply Hk. by eapply HQ.
Qed.

Ltac footprint_leaf :=
  apply all_events_one;
  cbv beta iota zeta delta [in_footprint one_of existsb swap_backup fallback_backup];
  rewrite ?String.eqb_refl; cbn [orb andb]; rewrite ?orb_true_r; reflexivity.

Ltac footprint_auto := emits_auto; try footprint_leaf.

Section Footprint.
Variables (E : env) (c : config) (asset_name : string).

Let inside : list event → Prop := all_events (in_footprint E c asset_name).

Lemma footprint_download url :
  emits inside (http_download E url (Path.join (mkdtemp E) asset_name)).
Proof. unfold http_download, write_file. footprint_auto. Qed.

Lemma footprint_check url :
  emits inside
    (log ("Downloading checksum to "
          +:+ Path.join (mkdtemp E) (asset_name +:+ ".sha256") +:+ " ...");;
     http_download E url (Path.join (mkdtemp E) (asset_name +:+ ".sha256"));;
     log "Verifying SHA-256 ...";;
     verify_sha256_from_file E (Path.join (mkdtemp E) (asset_name +:+ ".sha256"))
       (Path.join (mkdtemp E) asset_name);;
     ret ()).
Proof.
  unfold http_download, write_file, verify_sha256_from_file, sha256_file, read_file.
  footprint_auto.
Qed.

Lemma footprint_swap :
  emits inside
    (swap_with_fallback E (Path.join (mkdtemp E) "final") (app_dir c)).
Proof.
  unfold swap_with_fallback, safe_swap, path_exists, rmtree_ignore, os_rename,
    shutil_move.
  footprint_auto.
Qed.

Lemma footprint_install tag vdata asset_url sha_url :
  emits inside (install E c tag vdata asset_name asset_url sha_url (mkdtemp E)).
Proof.
  unfold install. cbv zeta.
  apply emits_bind; [apply _ | footprint_auto | intros _].
  apply emits_bind; [apply _ | apply footprint_download | intros _].
  apply emits_bind; [apply _ | | intros _].
  { destruct sha_url as [url |]; [apply footprint_check | footprint_auto]. }
  apply emits_bind; [apply _ | unfold makedirs; footprint_auto | intros _].
  apply emits_bind; [apply _ | footprint_auto | intros _].
  apply emits_bind; [apply _ | unfold unzip_to, read_file; footprint_auto | intros _].
  apply emits_bind; [apply _ | unfold listdir; footprint_auto | intros items].
  apply emits_bind; [apply _ | unfold copytree; footprint_auto | intros _].
  apply (emits_bind_post inside
           (λ b, b = None ∨ b = Some (swap_backup E (app_dir c))
                 ∨ b = Some (fallback_backup E (app_dir c))));
    [apply footprint_swap | |].
  { intros f b f' t H. by apply swap_with_fallback_inv in H as (_ & _ & H). }
  intros backup Hbackup.
  apply emits_bind; [apply _ | | intros _].
  { unfold write_json_atomic, write_file, os_replace. footprint_auto. }
  apply emits_bind; [apply _ | footprint_auto | intros _].
  apply emits_bind; [apply _ | | intros _].
  { unfold path_exists, rmtree_ignore.
    destruct Hbackup as [-> | [-> | ->]]; footprint_auto. }
  apply emits_bind; [apply _ | | intros _; footprint_auto].
  destruct (restart_cmd c) as [cmd |] eqn:Hcmd; [| footprint_auto].
  unfold relaunch. footprint_auto.
  apply all_events_one. unfold in_footprint. cbv zeta. rewrite Hcmd.
  apply String.eqb_refl.
Qed.

Lemma footprint_resolve rel tag vdata :
  emits inside (resolve_and_install E c rel tag vdata asset_name).
Proof.
  unfold resolve_and_install.
  destruct (find_asset rel asset_name) as [a |]; [| footprint_auto].
  cbv zeta. destruct (dry_run c); [footprint_auto |].
  apply (emits_bind_post inside (λ tmp, tmp = mkdtemp E)).
  - unfold make_tmp_dir. footprint_auto.
  - intros f tmp f' t H. by apply make_tmp_dir_inv in H as (_ & -> & _).
  - intros tmp ->.
    apply emits_try_finally; [apply _ | | unfold rmtree_ignore; footprint_auto].
    apply emits_try_except; [apply _ | apply footprint_install |].
    intros e. footprint_auto.
Qed.
End Footprint.

Lemma emits_bind_lift_Ok {A B} (P : list event → Prop) (a : A) r (k : A → M B) :
  r = Ok a → emits P (k a) → emits P (bind (lift r) k).
Proof.
  intros -> H f. specialize (H f). unfold bind, lift, ret. simpl.
  by destruct (k a f) as [[r f'] t].
Qed.

(** X24.  The footprint of [run_update].  With [asset_name] the name the
    pattern yields, every event of every run is one of these: a printed
    line; the request to the releases endpoint of the configured
    repository; a download into the archive path or the digest path of the
    temporary directory; the creation of the temporary directory or of its
    staging directory; a write to the archive path, the digest path or the
    temporary sibling of the state file; the extraction of the archive into
    the staging directory; the copy into the final staging path; the rename
    of the application directory to its backup path, or of the final
    staging path to the application directory; the replacement of the state
    file by its temporary sibling; a move whose source is the application
    directory or the final staging path; the removal of one of the two
    backup paths or of the temporary directory; the start of the configured
    restart command.  In particular no run renames or moves a backup back:
    there is no rollback. *)
Theorem run_update_footprint (E : env) (c : config) (f : gmap string node)
    (asset_name : string) :
  str_format E (asset_pattern c) (app_name c) (norm_os E) (norm_arch E)
    = Ok asset_name →
  all_events (in_footprint E c asset_name) (run_update E c f).2.
Proof.
  intros Hfmt. revert f. change (emits (all_events (in_footprint E c asset_name))
                                   (run_update E c)).
  unfold run_update. cbv zeta.
  apply (emits_bind_lift_Ok _ asset_name); [exact Hfmt |].
  apply emits_bind; [apply _ | unfold read_json; footprint_auto | intros vdata].
  apply emits_bind; [apply _ | unfold py_get; footprint_auto | intros cv].
  apply emits_bind; [apply _ | footprint_auto | intros _].
  apply emits_bind; [apply _ | footprint_auto | intros _].
  apply emits_bind; [apply _ | | intros [rel |]; [| footprint_auto]].
  { unfold get_latest_release, http_get_json. footprint_auto. }
  apply emits_bind; [apply _ | footprint_auto | intros _].
  apply emits_bind; [apply _ | unfold compare_with; footprint_auto | intros cmp].
  destruct ((cmp <? 0) && negb (allow_downgrade c)); [footprint_auto |].
  destruct (cmp =? 0); [footprint_auto |].
  apply footprint_resolve.
Qed.

Lemma run_update_footprint_witness :
  all_events (in_footprint Sample.E Sample.cfg "demo-linux-x64.zip")
    (run_update Sample.E Sample.cfg Sample.fs_installed).2.
Proof.
  exact (run_update_footprint Sample.E Sample.cfg Sample.fs_installed
           "demo-linux-x64.zip" eq_refl).
Defined.

(** ** What a successful update puts at the application path *)

Lemma join_longer d x :
  Str.startswith "/" x = false →
  (String.length d + String.length x ≤ String.length (Path.join d x))%nat.
Proof.
  intros Hx. unfold Path.join. rewrite Hx.
  destruct (negb (Str.truthy d) || Path.endswith_slash d);
    rewrite !length_append; simpl; lia.
Qed.

Lemma join_differs d x y :
  Str.startswith "/" x = false → Str.startswith "/" y = false →
  String.length x ≠ String.length y → Path.join d x ≠ Path.join d y.
Proof.
  intros Hx Hy Hne H. unfold Path.join in H. rewrite Hx, Hy in H.
  apply (f_equal String.length) in H.
  destruct (negb (Str.truthy d) || Path.endswith_slash d);
    rewrite !length_append in H; simpl in H; lia.
Qed.

Lemma join_not_dir d x : x ≠ "" → Str.startswith "/" x = false → Path.join d x ≠ d.
Proof.
  intros Hne Hx H. pose proof (join_longer d x Hx) as Hl. rewrite H in Hl.
  destruct x; [done |]. simpl in Hl. lia.
Qed.

Section FsSteps.
Variable E : env.

Lemma shutil_move_frame a src dst f d' f' t p :
  shutil_move E a src dst f = (Ok d', f', t) →
  p ≠ src → p ≠ dst → f' !! p = f !! p.
Proof.
  unfold shutil_move, bind, get_fs, put_fs, emit, raise, ret. simpl.
  destruct (fault E a); [done |].
  destruct (f !! src) as [n |]; [| done].
  destruct (f !! dst) as [[cd | es] |].
  - destruct n; [| done]. simpl. intros [= <- <- <-] ? ?.
    by rewrite lookup_insert_ne, lookup_delete_ne.
  - destruct (String.eqb src dst); [by intros [= <- <- <-] |].
    destruct (existsb _ _); [done |]. simpl. intros [= <- <- <-] ? ?.
    by rewrite lookup_insert_ne, lookup_delete_ne.
  - simpl. intros [= <- <- <-] ? ?.
    by rewrite lookup_insert_ne, lookup_delete_ne.
Qed.

(** When the swap block returns, the application path holds what the
    staging path held. *)
Lemma swap_with_fallback_places fin app f b f' t :
  is_under (swap_backup E app) fin = false →
  fin ≠ fallback_backup E app →
  fin ≠ app →
  swap_with_fallback E fin app f = (Ok b, f', t) →
  f' !! app = f !! fin ∧ f !! fin ≠ None.
Proof.
  intros Hu Hfb Hfa H.
  assert (swap_backup E app ≠ fin) as Hbf
    by (intros Heq; by rewrite Heq, is_under_refl in Hu).
  unfold swap_with_fallback in H.
  apply try_except_inv_Ok in H as [H | (e & f1 & t1 & t2 & Hbody & _ & H & ->)].
  - inv_bind H as u fa Hlog. apply log_inv in Hlog as (_ & -> & ->).
    inv_bind H as b0 fb Hsafe. apply ret_inv in H as (_ & -> & _).
    apply safe_swap_inv_Ok in Hsafe as (-> & g1 & g2 & n & Hframe & Hcase & Hn & ->).
    rewrite lookup_insert_eq.
    assert (g2 !! fin = f !! fin) as Hfin.
    { destruct Hcase as [[_ ->] | (old & _ & ->)].
      - by apply Hframe.
      - rewrite lookup_insert_ne, lookup_delete_ne by done. by apply Hframe. }
    rewrite <- Hfin, Hn. by split.
  - assert (f1 !! fin = f !! fin) as Hfin1.
    { apply bind_inv in Hbody
        as [(u & fa & ta & tb & Hlog & Hbody & _) | (e1 & Hlog & _)].
      2: { by apply log_inv in Hlog as ([=] & _). }
      apply log_inv in Hlog as (_ & -> & _). cbv beta in Hbody.
      apply bind_inv in Hbody
        as [(b0 & fb & tc & td & Hsafe & Hret & _) | (e1 & Hsafe & _)].
      { by apply ret_inv in Hret as ([=] & _). }
      apply safe_swap_inv_Raise in Hsafe as (_ & g1 & Hframe & [-> | (old & _ & ->)]).
      - by apply Hframe.
      - rewrite lookup_insert_ne, lookup_delete_ne by done. by apply Hframe. }
    inv_bind H as u fa Hlog. apply log_inv in Hlog as (_ & -> & ->).
    inv_bind H as ex fb Hex. apply path_exists_inv in Hex as (-> & -> & ->).
    destruct (f1 !! fin) as [nfin |] eqn:Hfin; [| done].
    inv_bind H as ex' fc Hex'. apply path_exists_inv in Hex' as (-> & -> & ->).
    inv_bind H as backup fd Hbackup. inv_bind H as d fe Hmove.
    apply ret_inv in H as (_ & -> & _).
    rewrite <- Hfin1. split; [| done].
    destruct (f1 !! app) as [napp |] eqn:Happ.
    + inv_bind Hbackup as u' fg Hlog. apply log_inv in Hlog as (_ & -> & ->).
      inv_bind Hbackup as d' fh Hlive.
      apply ret_inv in Hbackup as (_ & -> & _).
      pose proof (shutil_move_frame _ _ _ _ _ _ _ fin Hlive Hfa Hfb) as Hkeep.
      apply shutil_move_source_gone in Hlive;
        [| intros Heq; symmetry in Heq; by apply backup_path_fresh in Heq].
      apply shutil_move_vacant in Hmove as (_ & _ & n & Hn & ->); [| done].
      rewrite lookup_insert_eq. congruence.
    + apply ret_inv in Hbackup as (_ & -> & _).
      apply shutil_move_vacant in Hmove as (_ & _ & n & Hn & ->); [| done].
      rewrite lookup_insert_eq. congruence.
Qed.

Lemma makedirs_inv a p f u f' t :
  makedirs E a p f = (Ok u, f', t) →
  (∃ es, f !! p = Some (Dir es) ∧ f' = f)
  ∨ (f !! p = None ∧ f' = <[p := Dir []]> f).
Proof.
  unfold makedirs, bind, get_fs, put_fs, emit, raise, ret. simpl.
  destruct (f !! p) as [[? | es] |]; [done | |].
  - intros [= <- <-]. left. by exists es.
  - destruct (fault E a); [done |]. simpl. intros [= <- <-]. by right.
Qed.

Lemma unzip_to_inv zip_path dir f u f' t body :
  f !! zip_path = Some (File (Text body)) →
  unzip_to E zip_path dir f = (Ok u, f', t) →
  ∃ entries old,
    unzip E body = Ok entries
    ∧ f !! dir = Some (Dir old)
    ∧ f' = <[dir := Dir (overlay old entries)]> f.
Proof.
  intros Hzip H. unfold unzip_to in H.
  rewrite (bind_Ok _ _ f body f []) in H
    by (unfold read_file, bind, get_fs, ret; simpl; by rewrite Hzip).
  rewrite prefixed_nil in H.
  inv_bind H as entries f1 Hun. apply lift_inv in Hun as (Hun & -> & ->).
  unfold bind, get_fs, put_fs, emit, raise in H. simpl in H.
  destruct (f !! dir) as [[? | old] |]; try done.
  injection H as <- <-. by exists entries, old.
Qed.

Lemma listdir_inv a p f items f' t :
  listdir E a p f = (Ok items, f', t) → f !! p = Some (Dir items) ∧ f' = f.
Proof.
  unfold listdir, bind, get_fs, raise, ret. simpl.
  destruct (fault E a); [done |].
  destruct (f !! p) as [[? | es] |]; try done. by intros [= <- <- <-].
Qed.

Lemma copytree_inv a src dst f u f' t :
  f !! dst = None →
  copytree E a src dst f = (Ok u, f', t) → f' = <[dst := src]> f.
Proof.
  intros Hdst. unfold copytree, bind, get_fs, put_fs, emit, raise. simpl.
  destruct (fault E a); [done |]. rewrite Hdst.
  destruct src as [? | es]; [done |]. simpl. by intros [= <- <-].
Qed.

Lemma copytree_inv_not_file a src dst f u f' t :
  copytree E a src dst f = (Ok u, f', t) → ∀ x, f !! dst ≠ Some (File x).
Proof.
  unfold copytree, bind, get_fs, put_fs, emit, raise. simpl.
  destruct (fault E a); [done |].
  destruct src as [? | es]; [done |].
  by destruct (f !! dst) as [[? | ?] |].
Qed.

Lemma write_json_atomic_fs p data f u f' t :
  write_json_atomic E p data f = (Ok u, f', t) →
  f' = <[p := File (Json data)]> (delete (p +:+ ".tmp") f).
Proof.
  rewrite write_json_atomic_run.
  destruct (fault E AtWriteTmp); [done |].
  destruct (f !! (p +:+ ".tmp")) as [[? | ?] |]; try done;
    (destruct (json_dump_error E data); [done |]);
    (destruct (fault E AtReplace); [done |]);
    destruct (f !! p) as [[? | ?] |]; try done; by intros [= _ <- _].
Qed.

(** The download and check of the digest companion changes no path but
    the digest path, where it leaves a file. *)
Lemma check_step_inv sha_url sha_path zip_path f u f' t :
  (match sha_url with
   | Some url =>
       log ("Downloading checksum to " +:+ sha_path +:+ " ...");;
       http_download E url sha_path;;
       log "Verifying SHA-256 ...";;
       verify_sha256_from_file E sha_path zip_path;;
       ret ()
   | None => log "No .sha256 file provided for this asset (verification skipped)."
   end) f = (Ok u, f', t) →
  (∀ p, p ≠ sha_path → f' !! p = f !! p)
  ∧ (∀ es, f' !! sha_path = Some (Dir es) → f !! sha_path = Some (Dir es)).
Proof.
  destruct sha_url as [url |]; intros H.
  - inv_bind H as v1 g1 Hl1. apply log_inv in Hl1 as (_ & -> & ->).
    inv_bind H as v2 g2 Hdl.
    apply http_download_inv in Hdl as (txt & Htxt & -> & ->).
    inv_bind H as v3 g3 Hl3. apply log_inv in Hl3 as (_ & -> & ->).
    inv_bind H as v4 g4 Hver. apply ret_inv in H as (_ & -> & _).
    assert (g4 = <[sha_path := File (Text txt)]> f) as ->.
    { pose proof (reports_keep_fs (verify_sha256_from_file E sha_path zip_path)
                    (<[sha_path := File (Text txt)]> f) (accounted_verify E _ _)) as Hk.
      rewrite Hver in Hk. simpl in Hk. apply Hk.
      assert (emits (all_events is_report)
                (verify_sha256_from_file E sha_path zip_path)) as Hr.
      { unfold verify_sha256_from_file, sha256_file, read_file. reports_auto. }
      specialize (Hr (<[sha_path := File (Text txt)]> f)). by rewrite Hver in Hr. }
    split.
    + intros p Hp. by rewrite lookup_insert_ne.
    + intros es. by rewrite lookup_insert_eq.
  - apply log_inv in H as (_ & -> & _). by split.
Qed.
End FsSteps.

Section InstalledTree.
Variables (E : env) (c : config).

Hypothesis layout : layout_ok E c = true.

Lemma install_Ok_tree tag vdata asset_name asset_url sha_url f f' t :
  f !! Path.join (mkdtemp E) "staging" = None →
  f !! Path.join (mkdtemp E) "final" = None →
  install E c tag vdata asset_name asset_url sha_url (mkdtemp E)
    (<[mkdtemp E := Dir []]> f) = (Ok true, f', t) →
  ∃ body entries,
    net E asset_url = Ok body
    ∧ unzip E body = Ok entries
    ∧ f' !! app_dir c = Some (extracted_root entries).
Proof.
  intros Hstaging Hfin H.
  set (fin := Path.join (mkdtemp E) "final") in *.
  set (staging := Path.join (mkdtemp E) "staging") in *.
  pose proof layout as layout'. clear layout. rename layout' into layout.
  unfold layout_ok in layout. cbv zeta in layout. fold fin in layout.
  apply andb_prop in layout as [layout Lut]. apply andb_prop in layout as [layout Lat].
  apply andb_prop in layout as [layout Lav]. apply andb_prop in layout as [layout Lfb2].
  apply andb_prop in layout as [layout Lfb1]. apply andb_prop in layout as [layout Lfa].
  do 3 apply andb_prop in layout as [layout _].
  apply andb_prop in layout as [[Lplain _]%andb_prop _].
  apply negb_true_iff in Lut, Lat, Lav, Lfb2, Lfa, Lfb1.
  apply String.eqb_neq in Lat, Lav, Lfb2, Lfa.
  pose proof (app_outside_backup (app_dir c) (clock_swap E)) as Lub1.
  rewrite <- (swap_backup_canonical E (app_dir c) (plain_canonical _ Lplain)) in Lub1.
  pose proof (app_outside_backup (app_dir c) (clock_fallback E)) as Lub2.
  change (is_under (fallback_backup E (app_dir c)) (app_dir c) = false) in Lub2.
  assert (staging ≠ mkdtemp E) as Hst by (by apply join_not_dir).
  assert (fin ≠ mkdtemp E) as Hft by (by apply join_not_dir).
  assert (fin ≠ staging) as Hfs by (by apply join_differs).
  set (zip := Path.join (mkdtemp E) asset_name) in *.
  set (sha := Path.join (mkdtemp E) (asset_name +:+ ".sha256")) in *.
  assert (sha ≠ zip) as Hsz by apply sibling_path_differs.
  unfold install in H. cbv zeta in H. fold zip sha staging fin in H.
  inv_bind H as u1 f1 H1. apply log_inv in H1 as (_ & -> & ->).
  inv_bind H as u2 f2 Hdl.
  apply http_download_inv in Hdl as (body & Hbody & -> & ->).
  inv_bind H as u3 f3 Hsha.
  apply check_step_inv in Hsha as [Hsha_frame Hsha_dir].
  inv_bind H as u4 f4 Hmk. inv_bind H as u5 f5 Hl5.
  apply log_inv in Hl5 as (_ & -> & ->).
  inv_bind H as u6 f6 Hunzip. inv_bind H as items f7 Hlist.
  inv_bind H as u8 f8 Hcopy. inv_bind H as backup f9 Hswap.
  inv_bind H as u10 f10 Hwrite. inv_bind H as u11 f11 Hlog.
  apply log_inv in Hlog as (_ & -> & ->).
  inv_bind H as u12 f12 Hclean. inv_bind H as u13 f13 Hrestart.
  apply ret_inv in H as (_ & -> & _).
  set (f0 := <[mkdtemp E := Dir []]> f) in *.
  (* the staging directory is new and empty *)
  assert (f3 !! staging = None ∧ staging ≠ zip ∧ f4 = <[staging := Dir []]> f3)
    as (Hst3 & Hstz & ->).
  { apply makedirs_inv in Hmk as [(es & Hes & ->) | [Hnone ->]].
    - exfalso. destruct (decide (staging = sha)) as [Heq | Hne].
      + rewrite Heq in Hes. apply Hsha_dir in Hes.
        destruct (decide (sha = zip)) as [? | Hne']; [done |].
        rewrite lookup_insert_ne in Hes by done. unfold f0 in Hes.
        rewrite lookup_insert_ne in Hes by congruence. congruence.
      + rewrite Hsha_frame in Hes by done.
        destruct (decide (staging = zip)) as [Heq' | Hne'].
        * by rewrite Heq', lookup_insert_eq in Hes.
        * rewrite lookup_insert_ne in Hes by done. unfold f0 in Hes.
          rewrite lookup_insert_ne in Hes by done. congruence.
    - split; [done |]. split; [| done]. intros Heq.
      destruct (decide (staging = sha)) as [Heq2 | Hne]; [congruence |].
      rewrite Hsha_frame in Hnone by done.
      by rewrite Heq, lookup_insert_eq in Hnone. }
  (* the archive is unpacked into it *)
  assert (f3 !! zip = Some (File (Text body))) as Hzip3.
  { rewrite Hsha_frame by done. by rewrite lookup_insert_eq. }
  apply unzip_to_inv with (body := body) in Hunzip
    as (entries & old & Hentries & Hold & ->);
    [| by rewrite lookup_insert_ne].
  rewrite lookup_insert_eq in Hold. injection Hold as <-.
  rewrite insert_insert_eq in Hlist.
  apply listdir_inv in Hlist as [Hitems ->].
  rewrite lookup_insert_eq in Hitems. injection Hitems as <-.
  assert (overlay [] entries = entries) as Hov by reflexivity.
  rewrite Hov in *.
  (* the final staging path is new *)
  pose proof (copytree_inv_not_file _ _ _ _ _ _ _ _ Hcopy) as Hnf.
  rewrite lookup_insert_ne in Hnf by done.
  assert (f3 !! fin = None) as Hfin3.
  { destruct (decide (fin = sha)) as [Heq | Hne].
    - destruct (f3 !! fin) as [[ct | es] |] eqn:Hx; [by destruct (Hnf ct) | | done].
      rewrite Heq in Hx. apply Hsha_dir in Hx.
      rewrite lookup_insert_ne in Hx by done. unfold f0 in Hx.
      rewrite lookup_insert_ne in Hx by congruence. congruence.
    - rewrite Hsha_frame in Hnf |- * by done.
      destruct (decide (fin = zip)) as [Heq' | Hne'].
      + rewrite Heq', lookup_insert_eq in Hnf. by destruct (Hnf (Text body)).
      + rewrite lookup_insert_ne by done. unfold f0.
        by rewrite lookup_insert_ne. }
  apply copytree_inv in Hcopy; [| by rewrite lookup_insert_ne].
  subst f8.
  (* the swap puts it at the application path *)
  pose proof Hswap as Hb.
  apply swap_with_fallback_inv in Hb as (_ & _ & Hb).
  apply swap_with_fallback_places in Hswap as [Hplaced _]; try done.
  rewrite lookup_insert_eq in Hplaced.
  (* the remaining steps leave the application path alone *)
  apply write_json_atomic_fs in Hwrite.
  assert (f10 !! app_dir c = f9 !! app_dir c) as Hkeep0.
  { subst f10. by rewrite lookup_insert_ne, lookup_delete_ne. }
  clear Hwrite.
  assert (f12 !! app_dir c = f10 !! app_dir c) as Hkeep1.
  { change (backup_path (Path.dirname (Path.abspath (getcwd E) (app_dir c))) (app_dir c)
              (clock_swap E)) with (swap_backup E (app_dir c)) in Hb.
    change (backup_path (Path.dirname (app_dir c)) (app_dir c) (clock_fallback E))
      with (fallback_backup E (app_dir c)) in Hb.
    destruct Hb as [-> | [-> | ->]].
    - by apply ret_inv in Hclean as (_ & -> & _).
    - inv_bind Hclean as ex fx Hex. apply path_exists_inv in Hex as (-> & -> & ->).
      destruct (f10 !! swap_backup E (app_dir c)); unfold when in Hclean.
      + by eapply rmtree_ignore_inv.
      + by apply ret_inv in Hclean as (_ & -> & _).
    - inv_bind Hclean as ex fx Hex. apply path_exists_inv in Hex as (-> & -> & ->).
      destruct (f10 !! fallback_backup E (app_dir c)); unfold when in Hclean.
      + by eapply rmtree_ignore_inv.
      + by apply ret_inv in Hclean as (_ & -> & _). }
  assert (f13 = f12) as ->.
  { destruct (restart_cmd c) as [cmd |].
    - destruct (Str.truthy cmd); simpl in Hrestart.
      + inv_bind Hrestart as ul fl Hl. apply log_inv in Hl as (_ & -> & ->).
        by apply relaunch_inv in Hrestart.
      + by apply ret_inv in Hrestart as (_ & -> & _).
    - by apply ret_inv in Hrestart as (_ & -> & _). }
  exists body, entries. split; [done |]. split; [done |].
  by rewrite Hkeep1, Hkeep0, Hplaced.
Qed.
End InstalledTree.

(** X25.  What a successful update installs.  When the paths of the run
    are given in absolute normalised form and keep apart (in particular
    the state file and the temporary directory lie outside the application
    directory, which is not the root) and the temporary directory is
    fresh, a run that returns [true] leaves at the application path the
    content of the archive that was downloaded for the asset of the chosen
    release: the content of its single top-level folder when the archive
    holds exactly one entry and that entry is a folder, and otherwise
    everything the archive holds. *)
Theorem successful_update_installs_archive (E : env) (c : config)
    (f f' : gmap string node) (t : list event) :
  layout_ok E c = true →
  f !! Path.join (mkdtemp E) "staging" = None →
  f !! Path.join (mkdtemp E) "final" = None →
  run_update E c f = (Ok true, f', t) →
  ∃ asset_name releases rel a body entries,
    str_format E (asset_pattern c) (app_name c) (norm_os E) (norm_arch E)
    = Ok asset_name
    ∧ api E (releases_url (repo c)) = Ok releases
    ∧ latest_of (include_prereleases c) releases = Some rel
    ∧ find_asset rel asset_name = Some a
    ∧ net E (browser_download_url a) = Ok body
    ∧ unzip E body = Ok entries
    ∧ f' !! app_dir c = Some (extracted_root entries).
Proof.
  intros Hlayout Hstaging Hfin Hrun.
  apply run_update_Ok_true_inv in Hrun
    as (an & releases & rel & vdata & t0 & t1 & Hfmt & Hapi & Hlatest & Hres & ->).
  apply resolve_Ok_true_inv in Hres
    as (Hdry & a & f1 & t2 & t3 & Ha & Hinst & -> & Hframe).
  apply install_Ok_tree in Hinst as (body & entries & Hbody & Hentries & Happ);
    try done.
  exists an, releases, rel, a, body, entries. repeat split; try done.
  rewrite Hframe; [done |].
  unfold layout_ok in Hlayout. cbv zeta in Hlayout.
  apply andb_prop in Hlayout as [_ Hut]. by apply negb_true_iff in Hut.
Qed.

Lemma successful_update_installs_archive_witness :
  (run_update Sample.E Sample.cfg Sample.fs_installed).1.2 !! "/opt/demo/app"
  = Some (Dir Sample.new_tree).
Proof.
  assert (run_update Sample.E Sample.cfg Sample.fs_installed
          = (Ok true, (run_update Sample.E Sample.cfg Sample.fs_installed).1.2,
             (run_update Sample.E Sample.cfg Sample.fs_installed).2)) as Hrun
    by (vm_compute; reflexivity).
  destruct (successful_update_installs_archive Sample.E Sample.cfg
              Sample.fs_installed _ _ eq_refl eq_refl eq_refl Hrun)
    as (an & releases & rel & a & body & entries
        & Hfmt & Hapi & Hlatest & Ha & Hbody & Hentries & Happ).
  injection Hfmt as <-. injection Hapi as <-. injection Hlatest as <-.
  injection Ha as <-. injection Hbody as <-. injection Hentries as <-.
  exact Happ.
Defined.

(** ** The version that a successful update records *)

Lemma lstrip_v_no_v s : Str.startswith "v" s = false → Str.lstrip_char "v" s = s.
Proof. destruct s as [|ch s]; [done |]. simpl. by intros ->. Qed.

Lemma parse_semver_double_v s :
  Str.startswith "v" s = true → parse_semver (String "v" s) = unparseable.
Proof.
  intros Hs. unfold parse_semver. simpl Str.startswith. simpl Str.tail. cbv iota.
  destruct s as [|ch s]; [done |]. simpl in Hs. apply Ascii.eqb_eq in Hs as ->.
  by rewrite semver3_needs_digit, semver2_needs_digit.
Qed.

Lemma unparseable_is_least v :
  v = unparseable ∨ (∃ a b c, v = (a, b, c) ∧ 0 ≤ a ∧ 0 ≤ b ∧ 0 ≤ c) →
  version_ltb v unparseable = false.
Proof.
  intros [-> | (a & b & c & -> & Ha & Hb & Hc)]; [done |].
  unfold unparseable, version_ltb. lia.
Qed.

Lemma prefix_one c d s : String.prefix (String c "") (String d s) = Ascii.eqb d c.
Proof.
  simpl. destruct (ascii_dec c d) as [-> | Hne].
  - rewrite Ascii.eqb_refl. by destruct s.
  - symmetry. apply Ascii.eqb_neq. congruence.
Qed.

Lemma prefix_vv c s :
  String.prefix "vv" (String c s) = Ascii.eqb c "v" && Str.startswith "v" s.
Proof.
  change "vv" with (String "v" "v"). cbn [String.prefix].
  destruct (ascii_dec "v" c) as [<- | Hne].
  - destruct s as [|d s]; [done |]. by rewrite prefix_one.
  - symmetry. apply andb_false_intro1. apply Ascii.eqb_neq. congruence.
Qed.

Lemma compare_versions_recorded tag :
  compare_versions tag (Str.lstrip_char "v" tag) ≤ 0
  ∧ (String.prefix "vv" tag = false →
     parse_semver (Str.lstrip_char "v" tag) = parse_semver tag).
Proof.
  assert (String.prefix "vv" tag = false →
          parse_semver (Str.lstrip_char "v" tag) = parse_semver tag) as Hsame.
  { destruct tag as [|c1 s]; [done |]. rewrite prefix_vv.
    cbn [Str.lstrip_char]. destruct (Ascii.eqb c1 "v") eqn:H1; [| done].
    apply Ascii.eqb_eq in H1 as ->. cbn [andb]. intros Hs.
    rewrite lstrip_v_no_v by done.
    unfold parse_semver at 2. simpl Str.startswith. simpl Str.tail. cbv iota.
    unfold parse_semver. by rewrite Hs. }
  split; [| exact Hsame].
  destruct (String.prefix "vv" tag) eqn:Hvv.
  - assert (parse_semver tag = unparseable) as Hu.
    { destruct tag as [|c1 s]; [done |]. rewrite prefix_vv in Hvv.
      apply andb_prop in Hvv as [H1 H2]. apply Ascii.eqb_eq in H1 as ->.
      by apply parse_semver_double_v. }
    unfold compare_versions, version_gtb. cbv zeta. rewrite Hu.
    rewrite unparseable_is_least by apply parse_semver_range.
    destruct (version_ltb unparseable _); simpl; lia.
  - unfold compare_versions, version_gtb. cbv zeta. rewrite Hsame by done.
    rewrite version_ltb_irrefl. simpl. lia.
Qed.

(** X26.  The version that a successful update writes to the state file
    (the tag without its leading "v" characters) never compares older than
    the tag itself, and compares equal to it unless the tag begins with two
    "v" characters (such a tag is unparseable, while the recorded version
    may parse). *)
Theorem recorded_version_matches_tag (tag : string) :
  compare_versions tag (Str.lstrip_char "v" tag) ≤ 0
  ∧ (String.prefix "vv" tag = false →
     compare_versions tag (Str.lstrip_char "v" tag) = 0).
Proof.
  destruct (compare_versions_recorded tag) as [Hle Hsame].
  split; [exact Hle |]. intros Hvv.
  unfold compare_versions, version_gtb. cbv zeta. rewrite Hsame by done.
  by rewrite version_ltb_irrefl.
Qed.

Lemma recorded_version_matches_tag_witness :
  compare_versions "v1.2.0" (Str.lstrip_char "v" "v1.2.0") = 0.
Proof.
  exact (proj2 (recorded_version_matches_tag "v1.2.0") eq_refl).
Defined.

(** X27.  A second run after a successful update does nothing.  When
    [run_update] has returned [true] (the state file lying outside the
    temporary directory and the backup directories), running it again on
    the file system it left, with the same answers from the outside and
    downgrades not allowed, returns [false] at the evaluation stage:
    nothing is downloaded, the file system is unchanged, and the trace
    holds only printed lines and the request to the releases endpoint. *)
Theorem second_run_changes_nothing (E : env) (c : config)
    (f f' : gmap string node) (t : list event) :
  is_under (mkdtemp E) (version_file c) = false →
  state_outside_backups E c →
  allow_downgrade c = false →
  run_update E c f = (Ok true, f', t) →
  ∃ t', run_update E c f' = (Ok false, f', t') ∧ all_events is_report t'.
Proof.
  intros Htmp Hout Hdown Hrun.
  apply run_update_Ok_true_inv in Hrun
    as (an & releases & rel & vdata & t0 & t1 & Hfmt & Hapi & Hlatest & Hres & ->).
  apply (resolve_Ok_state E c Htmp Hout) in Hres.
  set (x := Str.lstrip_char "v" (release_tag rel)) in *.
  assert (∃ d, with_version vdata x = JObj d ∧ d ≠ []
               ∧ version_field d = JStr x) as (d & Hd & Hne & Hver).
  { unfold with_version, version_field. destruct vdata;
      try (eexists; split; [reflexivity |]; split; [done | reflexivity]).
    eexists; split; [reflexivity |]. split.
    - by destruct fields as [|[k v] fields]; simpl; [| destruct (String.eqb k "version")].
    - by rewrite dict_get_set_eq. }
  assert (local_state E c f' = JObj d) as Hstate.
  { unfold local_state. cbv zeta. rewrite Hres. simpl. rewrite Hd.
    by destruct d. }
  rewrite (run_update_eval E c f' an x d releases Hfmt Hstate Hver Hapi), Hlatest.
  cbv zeta. rewrite Hdown.
  destruct (compare_versions_recorded (release_tag rel)) as [Hle _]. fold x in Hle.
  destruct (compare_versions (release_tag rel) x <? 0) eqn:Hlt; simpl.
  - eexists. split; [reflexivity |].
    intros ev Hin. repeat (destruct Hin as [<- | Hin]; [reflexivity |]). done.
  - assert ((compare_versions (release_tag rel) x =? 0) = true) as -> by lia.
    eexists. split; [reflexivity |].
    intros ev Hin. repeat (destruct Hin as [<- | Hin]; [reflexivity |]). done.
Qed.

Lemma second_run_changes_nothing_witness :
  (run_update Sample.E Sample.cfg
     (run_update Sample.E Sample.cfg Sample.fs_installed).1.2).1.1 = Ok false.
Proof.
  assert (run_update Sample.E Sample.cfg Sample.fs_installed
          = (Ok true, (run_update Sample.E Sample.cfg Sample.fs_installed).1.2,
             (run_update Sample.E Sample.cfg Sample.fs_installed).2)) as Hrun
    by (vm_compute; reflexivity).
  assert (state_outside_backups Sample.E Sample.cfg) as Hout
    by (split; vm_compute; reflexivity).
  destruct (second_run_changes_nothing Sample.E Sample.cfg Sample.fs_installed
              _ _ eq_refl Hout eq_refl Hrun) as (t' & Hrun2 & _).
  by rewrite Hrun2.
Defined.

(** ** The fallback after a half-done swap *)

(** X28.  For an application directory and a staging path given in
    absolute normalised form (the application directory not the root, the
    staging path outside the application tree and outside the backup
    path): when the first rename of the swap succeeds and the second is
    refused (the application directory and the staged tree exist, no stale
    backup is in the way, and the move of the fallback is not refused), the
    fallback of [run_update] finds the application path vacant and moves
    the staged tree there without making a backup of its own: the swap
    block returns no backup path (the clean-up that follows acts on the
    returned path only), and when it returns the tree that was live sits at
    the backup path of the swap, a sibling of the application directory,
    the staged tree at the application path. *)
Theorem half_done_swap_leaves_backup (E : env) (fin app : string)
    (f : gmap string node) (old new : node) :
  Path.plain app = true →
  Path.canonical fin = true →
  is_under app fin = false →
  is_under (swap_backup E app) fin = false →
  fault E AtRenameLive = false →
  fault E AtRenameStage = true →
  fault E AtMoveStage = false →
  f !! app = Some old →
  f !! fin = Some new →
  f !! swap_backup E app = None →
  ∃ f' t,
    swap_with_fallback E fin app f = (Ok None, f', t)
    ∧ swap_backup E app
      = Path.join (Path.dirname app)
          (Path.basename app +:+ ".backup-" +:+ Fmt.of_Z (clock_swap E))
    ∧ f' !! app = Some new
    ∧ f' !! swap_backup E app = Some old
    ∧ f' !! fin = None
    ∧ In (EvRename app (swap_backup E app)) t
    ∧ In (EvMove fin app) t.
Proof.
  intros Hplain _ Hua Hub Hlive Hstage Hmove Happ Hfin Hb.
  pose proof (swap_backup_canonical E app (plain_canonical app Hplain)) as Hsib.
  assert (fin ≠ app) as Hfa by (intros Heq; by rewrite Heq, is_under_refl in Hua).
  assert (fin ≠ swap_backup E app) as Hfb
    by (intros Heq; by rewrite <- Heq, is_under_refl in Hub).
  set (b := swap_backup E app) in *.
  assert (b ≠ app) as Hba by apply backup_path_fresh.
  set (f1 := <[b := old]> (delete app f)).
  assert (safe_swap E fin app f
          = (Raise (OSError ("rename refused: " +:+ fin)), f1,
             [EvLog ("Creating backup: " +:+ b); EvRename app b])) as Hsafe.
  { unfold safe_swap. cbv zeta. fold (swap_backup E app). fold b.
    rewrite (bind_Ok _ _ f () f [EvLog ("Creating backup: " +:+ b)]) by reflexivity.
    rewrite (bind_Ok _ _ f _ f [] (path_exists_run b f)), Hb.
    rewrite (bind_Ok _ _ f () f [] eq_refl).
    rewrite (bind_Ok _ _ f _ f [] (path_exists_run app f)), Happ.
    unfold when.
    rewrite (bind_Ok _ _ f () f1 [EvRename app b])
      by (by rewrite os_rename_run, Hlive, Happ, Hb).
    rewrite (bind_Raise _ _ f1 (OSError ("rename refused: " +:+ fin)) f1 [])
      by (by rewrite os_rename_run, Hstage).
    reflexivity. }
  assert (f1 !! fin = Some new) as Hfin1.
  { unfold f1. by rewrite lookup_insert_ne, lookup_delete_ne. }
  assert (f1 !! app = None) as Happ1.
  { unfold f1. by rewrite lookup_insert_ne, lookup_delete_eq. }
  exists (<[app := new]> (delete fin f1)). eexists.
  split; [| split; [exact Hsib |]; split; [| split; [| split; [| split]]]].
  - unfold swap_with_fallback, try_except.
    rewrite (bind_Ok _ _ f () f [EvLog "Swapping in new version ..."]) by reflexivity.
    rewrite (bind_Raise _ _ f _ _ _ Hsafe). unfold prefixed. cbn [fst snd is_OSError].
    rewrite (bind_Ok _ _ f1 () f1 _ eq_refl).
    rewrite (bind_Ok _ _ f1 _ f1 [] (path_exists_run fin f1)), Hfin1.
    rewrite (bind_Ok _ _ f1 _ f1 [] (path_exists_run app f1)), Happ1.
    rewrite (bind_Ok _ _ f1 None f1 [] eq_refl).
    rewrite (bind_Ok _ _ f1 app (<[app := new]> (delete fin f1)) [EvMove fin app]).
    2: { unfold shutil_move, bind, get_fs, put_fs, emit, ret. simpl.
         by rewrite Hmove, Hfin1, Happ1. }
    unfold prefixed, ret. simpl. reflexivity.
  - by rewrite lookup_insert_eq.
  - rewrite lookup_insert_ne, lookup_delete_ne by done. unfold f1.
    by rewrite lookup_insert_eq.
  - by rewrite lookup_insert_ne, lookup_delete_eq.
  - simpl. auto.
  - simpl. auto 10.
Qed.

Lemma half_done_swap_leaves_backup_witness :
  ∃ f',
    (swap_with_fallback stage_rename_refused "/tmp/upd-k3/final" "/opt/demo/app"
       fs_staged).1.2 = f'
    ∧ f' !! "/opt/demo/app" = Some (Dir Sample.new_tree)
    ∧ f' !! "/opt/demo/app.backup-1700000000" = Some (Dir Sample.old_tree).
Proof.
  destruct (half_done_swap_leaves_backup stage_rename_refused "/tmp/upd-k3/final"
              "/opt/demo/app" fs_staged (Dir Sample.old_tree) (Dir Sample.new_tree)
              eq_refl eq_refl eq_refl eq_refl eq_refl eq_refl eq_refl
              eq_refl eq_refl eq_refl)
    as (f' & t & Hrun & _ & Happ & Hb & _).
  exists f'. rewrite Hrun. by repeat split.
Defined.

(** ** The commands of the graphical front end *)

(** X29.  The command behind "Check for updates" is the command behind
    "Install update" followed by the single argument [--dry-run], and the
    two are missing together (when [updater.py] is not beside the module).
    The install command itself never asks for a dry run or for a downgrade:
    [--dry-run] and [--allow-downgrade] occur in it only where one of the
    configured values (interpreter, script path, repository, application
    name, asset pattern, restart command, application directory, version
    file) is that very string. *)
Theorem check_is_install_with_dry_run (sys_executable : option string)
    (module_dir : string) (isfile : string → bool) (self : UpdaterUI) :
  check_command sys_executable module_dir isfile self
  = option_map (λ l, l ++ ["--dry-run"])
      (install_command sys_executable module_dir isfile self)
  ∧ ∀ l flag,
      install_command sys_executable module_dir isfile self = Some l →
      In flag ["--dry-run"; "--allow-downgrade"] →
      In flag l →
      In flag ([ _python_exe sys_executable; Path.join module_dir "updater.py";
                 ui_repo self; ui_app_name self; ui_asset_pattern self ]
               ++ option_list (ui_restart_cmd self)
               ++ option_list (ui_app_dir self)
               ++ option_list (ui_version_file self)).
Proof.
  unfold check_command, install_command, _cmd. cbv zeta.
  destruct (isfile (Path.join module_dir "updater.py")); simpl; [| by split].
  split.
  - by rewrite !app_nil_r, <- !app_assoc.
  - intros l flag [= <-] Hflag. rewrite !app_nil_r.
    assert (∀ w, In w [ "--repo"; "--app-name"; "--asset-pattern"; "--timeout"; "120";
                        "--include-prereleases"; "--restart-cmd"; "--app-dir";
                        "--version-file" ] → flag ≠ w) as Hfixed.
    { intros w Hw ->. simpl in Hflag, Hw.
      destruct Hflag as [<- | [<- | []]];
        repeat (destruct Hw as [Hw | Hw]; [discriminate |]); done. }
    assert (∀ w (x : option string),
              In flag (option_args w x) → flag ≠ w → In flag (option_list x)) as Hopt.
    { intros w [s |] Hin Hne; simpl in Hin; [| done].
      destruct (Str.truthy s); [| done].
      destruct Hin as [<- | [<- | []]]; [done | by left]. }
    intros Hin. simpl in Hin.
    destruct Hin as [<- | Hin]; [by left |].
    destruct Hin as [<- | Hin]; [right; by left |].
    destruct Hin as [<- | Hin]; [exfalso; eapply Hfixed; [| done]; simpl; tauto |].
    destruct Hin as [<- | Hin]; [do 2 right; by left |].
    destruct Hin as [<- | Hin]; [exfalso; eapply Hfixed; [| done]; simpl; tauto |].
    destruct Hin as [<- | Hin]; [do 3 right; by left |].
    destruct Hin as [<- | Hin]; [exfalso; eapply Hfixed; [| done]; simpl; tauto |].
    destruct Hin as [<- | Hin]; [do 4 right; by left |].
    destruct Hin as [<- | Hin]; [exfalso; eapply Hfixed; [| done]; simpl; tauto |].
    destruct Hin as [<- | Hin]; [exfalso; eapply Hfixed; [| done]; simpl; tauto |].
    do 5 right.
    apply in_app_or in Hin as [Hin | Hin].
    { exfalso. destruct (ui_include_prereleases self); [| done].
      destruct Hin as [<- | []]. eapply Hfixed; [| done]. simpl. tauto. }
    apply in_app_or in Hin as [Hin | Hin].
    { apply in_or_app. left. eapply Hopt; [exact Hin |]. apply Hfixed. simpl. tauto. }
    apply in_app_or in Hin as [Hin | Hin].
    { apply in_or_app. right. apply in_or_app. left.
      eapply Hopt; [exact Hin |]. apply Hfixed. simpl. tauto. }
    apply in_or_app. right. apply in_or_app. right.
    eapply Hopt; [exact Hin |]. apply Hfixed. simpl. tauto.
Qed.

(** ** Where the backups go *)

(** An application path that ends in a slash has an empty last
    component: [safe_swap] then puts its backup beside the directory under
    a name that begins with a dot, and the fallback computes a backup path
    inside the application directory itself. *)
Example backup_paths_of_slashed_app :
  swap_backup Sample.E "/opt/demo/app/" = "/opt/demo/.backup-1700000000"
  ∧ fallback_backup Sample.E "/opt/demo/app/" = "/opt/demo/app/.backup-1700000001"
  ∧ Path.plain "/opt/demo/app/" = false.
Proof. repeat split; vm_compute; reflexivity. Qed.

(** X30.  For an application directory given in absolute normalised form
    and not the root, the backup paths that [safe_swap] and the fallback of
    [run_update] compute lie beside it, whatever the time: both are built
    from the same parent, a backup path is never the application
    directory, the application directory is never inside a backup
    directory (so removing a backup cannot remove the live tree), and a
    backup directory is never inside the application directory (so
    removing the live tree, as the rollback does, cannot remove the
    backup). *)
Theorem backup_paths_apart (E : env) (app_dir : string) :
  Path.plain app_dir = true →
  swap_backup E app_dir
  = Path.join (Path.dirname app_dir)
      (Path.basename app_dir +:+ ".backup-" +:+ Fmt.of_Z (clock_swap E))
  ∧ fallback_backup E app_dir
    = Path.join (Path.dirname app_dir)
        (Path.basename app_dir +:+ ".backup-" +:+ Fmt.of_Z (clock_fallback E))
  ∧ Forall (λ b, b ≠ app_dir ∧ is_under b app_dir = false
                 ∧ is_under app_dir b = false)
      [swap_backup E app_dir; fallback_backup E app_dir].
Proof.
  intros Hplain.
  pose proof (swap_backup_canonical E app_dir (plain_canonical _ Hplain)) as Hsib.
  split; [exact Hsib |]. split; [reflexivity |].
  rewrite Hsib. repeat constructor.
  - apply backup_path_fresh.
  - apply (app_outside_backup app_dir (clock_swap E)).
  - apply (backup_outside_app app_dir (clock_swap E)).
  - apply backup_path_fresh.
  - apply (app_outside_backup app_dir (clock_fallback E)).
  - apply (backup_outside_app app_dir (clock_fallback E)).
Qed.

Lemma backup_paths_apart_witness :
  swap_backup Sample.E "/opt/demo/app" = "/opt/demo/app.backup-1700000000"
  ∧ is_under "/opt/demo/app" (fallback_backup Sample.E "/opt/demo/app") = false.
Proof.
  destruct (backup_paths_apart Sample.E "/opt/demo/app" eq_refl)
    as (Hswap & _ & Hall).
  split; [rewrite Hswap; reflexivity |].
  apply Forall_cons in Hall as [_ Hall].
  apply Forall_cons in Hall as [(_ & _ & Hout) _].
  exact Hout.
Defined.
